(** * ADCMT 7352A/E controller: acquisition engine

    A shallow embedding of [7352A_E_controller.py]: the SI unit formatter
    ([format_si_unit]), the sampler thread ([MeasurementClass]), the
    derived-metric reductions of [DMMApp.update_from_shared_memory] and
    [GraphDisplayPage.load_data_from_list], and the window / recording
    buffers of [GraphDisplayPage].

    Python values are dynamically typed, so readings are a tagged union
    ([Py.value]); Python floats are IEEE binary64 and are modelled by Rocq's
    primitive floats, on which every arithmetic operation and comparison
    computes.  Exceptions are explicit: a fallible operation returns
    [Py.result]. *)

From Stdlib Require Import ZArith List String Ascii Bool Lia.
From Stdlib Require Import PrimFloat FloatOps SpecFloat FloatAxioms DecimalString.
Import ListNotations.

Set Warnings "-inexact-float".
Local Open Scope Z_scope.

(* ================================================================== *)
(** ** The Python runtime the program relies on *)
(* ================================================================== *)

Module Py.

(** The exception classes the embedded code can meet. *)
Inductive exn : Type :=
| TypeError
| ValueError
| ZeroDivisionError
| IndexError
| KeyError
| OverflowError
| VisaIOError
| UnboundLocalError
| OtherError.

Inductive result (A : Type) : Type :=
| Ok (a : A)
| Raise (e : exn).

Arguments Ok {A} a.
Arguments Raise {A} e.

Definition bind {A B : Type} (m : result A) (k : A -> result B) : result B :=
  match m with
  | Ok a => k a
  | Raise e => Raise e
  end.

(** [try: m except E: h] for a single exception class [E]. *)
Definition exn_eqb (a b : exn) : bool :=
  match a, b with
  | TypeError, TypeError | ValueError, ValueError
  | ZeroDivisionError, ZeroDivisionError | IndexError, IndexError
  | KeyError, KeyError | OverflowError, OverflowError
  | VisaIOError, VisaIOError | UnboundLocalError, UnboundLocalError
  | OtherError, OtherError => true
  | _, _ => false
  end.

Definition try_except {A : Type} (m : result A) (E : exn) (h : result A)
  : result A :=
  match m with
  | Ok a => Ok a
  | Raise e => if exn_eqb e E then h else Raise e
  end.

(** A reading as the program carries it around: a float, a string (the
    literal ['Overload']) or [None]. *)
Inductive value : Type :=
| VFloat (f : float)
| VStr (s : string)
| VNone.

Definition Overload : value := VStr "Overload".

(** What the interpreter and the C library supply and the repository does
    not define: [float(str)] ([None] stands for [ValueError]) and the C
    library's [log10] on finite positive doubles. *)
Record runtime : Type := {
  float_of_str : string -> option float;
  libm_log10 : float -> float
}.

(** *** Comparisons and arithmetic on dynamic values *)

(** [v == s] for a string literal [s]. *)
Definition eq_str (v : value) (s : string) : bool :=
  match v with
  | VStr s' => String.eqb s' s
  | _ => false
  end.

Definition is_none (v : value) : bool :=
  match v with
  | VNone => true
  | _ => false
  end.

(** [v == 0] and [v != 0]. *)
Definition eq_zero (v : value) : bool :=
  match v with
  | VFloat f => (f =? 0)%float
  | _ => false
  end.

Definition ne_zero (v : value) : bool := negb (eq_zero v).

(** [math.isnan] and [math.isinf] accept numbers only. *)
Definition math_isnan (v : value) : result bool :=
  match v with
  | VFloat f => Ok (is_nan f)
  | _ => Raise TypeError
  end.

Definition math_isinf (v : value) : result bool :=
  match v with
  | VFloat f => Ok (is_infinity f)
  | _ => Raise TypeError
  end.

(** [a / b]: true division raises on a zero divisor. *)
Definition truediv (a b : value) : result value :=
  match a, b with
  | VFloat x, VFloat y =>
      if (y =? 0)%float then Raise ZeroDivisionError else Ok (VFloat (x / y)%float)
  | _, _ => Raise TypeError
  end.

(** [a * b].  A string times a float, or [None] times anything, is a
    [TypeError]. *)
Definition mul (a b : value) : result value :=
  match a, b with
  | VFloat x, VFloat y => Ok (VFloat (x * y)%float)
  | _, _ => Raise TypeError
  end.

Definition abs (a : value) : result value :=
  match a with
  | VFloat x => Ok (VFloat (PrimFloat.abs x))
  | _ => Raise TypeError
  end.

(** [math.log10] as CPython wraps the C function: not-a-number and the
    positive infinity pass through, a zero, a negative number or a result
    that is not finite on a finite argument is a "math domain error". *)
Definition math_log10 (rt : runtime) (x : float) : result float :=
  if is_nan x then Ok x
  else if is_infinity x then
    if (0 <? x)%float then Ok x else Raise ValueError
  else if (0 <? x)%float then
    let r := libm_log10 rt x in
    if is_nan r || is_infinity r then Raise ValueError else Ok r
  else Raise ValueError.

(** [math.floor] on a float: an exact integer, or an error on a
    not-a-number or an infinity. *)
Definition math_floor (x : float) : result Z :=
  match Prim2SF x with
  | S754_nan => Raise ValueError
  | S754_infinity _ => Raise OverflowError
  | S754_zero _ => Ok 0
  | S754_finite s m e =>
      let n := if s then Zneg m else Zpos m in
      Ok (if 0 <=? e then n * 2 ^ e else n / 2 ^ (- e))
  end.

(** An integer as the nearest float (ties to even). *)
Definition float_of_Z (z : Z) : float :=
  SF2Prim (binary_normalize prec emax z 0 false).

(** [10 ** e] for an integer [e], as the float it becomes in a true
    division: an exact integer when [e >= 0], the correctly rounded inverse
    power otherwise. *)
Definition pow10 (e : Z) : float :=
  if 0 <=? e then float_of_Z (10 ^ e)
  else (1 / float_of_Z (10 ^ (- e)))%float.

(** [min] and [max] of a list of integers; the empty list is a
    [ValueError]. *)
Definition min_list (l : list Z) : result Z :=
  match l with
  | [] => Raise ValueError
  | x :: xs => Ok (fold_left Z.min xs x)
  end.

Definition max_list (l : list Z) : result Z :=
  match l with
  | [] => Raise ValueError
  | x :: xs => Ok (fold_left Z.max xs x)
  end.

(** A dictionary with integer keys, in insertion order. *)
Fixpoint dict_get (d : list (Z * string)) (k : Z) : result string :=
  match d with
  | [] => Raise KeyError
  | (k', v) :: d' => if k' =? k then Ok v else dict_get d' k
  end.

(** *** [format(x, '.6g')]

    Six significant digits, correctly rounded (ties to even) from the exact
    binary value; fixed notation when the decimal exponent is in
    [[-4, 6)], scientific otherwise; trailing zeros removed. *)

(** [10^x <= num / den] *)
Definition pow10_le (x num den : Z) : bool :=
  if 0 <=? x then 10 ^ x * den <=? num else den <=? num * 10 ^ (- x).

Fixpoint dec_exponent (fuel : nat) (x num den : Z) : Z :=
  match fuel with
  | O => x
  | S k => if pow10_le x num den then x else dec_exponent k (x - 1) num den
  end.

Definition decimal_exponent (num den : Z) : Z :=
  dec_exponent 8 (((Z.log2 num - Z.log2 den + 1) * 30103) / 100000 + 1) num den.

Definition round_half_even (num den : Z) : Z :=
  let q := num / den in
  let r := num mod den in
  if 2 * r <? den then q
  else if den <? 2 * r then q + 1
  else if Z.even q then q else q + 1.

Definition digits_of_Z (z : Z) : string :=
  NilZero.string_of_uint (N.to_uint (Z.to_N z)).

Fixpoint rstrip_zeros (s : string) : string :=
  match s with
  | EmptyString => EmptyString
  | String c s' =>
      match rstrip_zeros s' with
      | EmptyString => if Ascii.eqb c "0" then EmptyString else String c EmptyString
      | r => String c r
      end
  end.

Fixpoint zeros (n : nat) : string :=
  match n with
  | O => EmptyString
  | S k => String "0" (zeros k)
  end.

Definition with_fraction (int_part frac : string) : string :=
  match rstrip_zeros frac with
  | EmptyString => int_part
  | f => (int_part ++ "." ++ f)%string
  end.

Definition exponent_text (x : Z) : string :=
  let a := Z.abs x in
  ((if (x <? 0)%Z then "-" else "+")
     ++ (if (a <? 10)%Z then "0" else "") ++ digits_of_Z a)%string.

Definition format_6g_finite (m : positive) (e : Z) : string :=
  let num := if 0 <=? e then Zpos m * 2 ^ e else Zpos m in
  let den := if 0 <=? e then 1 else 2 ^ (- e) in
  let x0 := decimal_exponent num den in
  let d0 := if x0 <=? 5 then round_half_even (num * 10 ^ (5 - x0)) den
            else round_half_even num (den * 10 ^ (x0 - 5)) in
  let x := if d0 =? 1000000 then x0 + 1 else x0 in
  let d := if d0 =? 1000000 then 100000 else d0 in
  let ds := digits_of_Z d in
  if (-4 <=? x) && (x <? 6) then
    if 0 <=? x then
      with_fraction (substring 0 (Z.to_nat (x + 1)) ds)
                    (substring (Z.to_nat (x + 1)) (Z.to_nat (5 - x)) ds)
    else
      with_fraction "0" (zeros (Z.to_nat (- x - 1)) ++ ds)
  else
    (with_fraction (substring 0 1 ds) (substring 1 5 ds)
       ++ "e" ++ exponent_text x)%string.

Definition format_6g (f : float) : string :=
  match Prim2SF f with
  | S754_nan => "nan"
  | S754_infinity s => if s then "-inf" else "inf"
  | S754_zero s => if s then "-0" else "0"
  | S754_finite s m e =>
      ((if s then "-" else "") ++ format_6g_finite m e)%string
  end.

(** [format(x, '.3f')]: three decimals, correctly rounded. *)
Definition pad3 (z : Z) : string :=
  ((if (z <? 100)%Z then "0" else "") ++ (if (z <? 10)%Z then "0" else "")
     ++ digits_of_Z z)%string.

Definition format_3f (f : float) : string :=
  match Prim2SF f with
  | S754_nan => "nan"
  | S754_infinity s => if s then "-inf" else "inf"
  | S754_zero s => if s then "-0.000" else "0.000"
  | S754_finite s m e =>
      let num := if 0 <=? e then Zpos m * 2 ^ e else Zpos m in
      let den := if 0 <=? e then 1 else 2 ^ (- e) in
      let d := round_half_even (num * 1000) den in
      ((if s then "-" else "") ++ digits_of_Z (d / 1000) ++ "."
         ++ pad3 (d mod 1000))%string
  end.

(** *** Strings

    A [str] is a sequence of code points below 256 (the transport decodes the
    instrument's bytes one to one).  The white space of [str.strip] and
    [str.split] in that range: TAB, LF, VT, FF, CR, FS, GS, RS, US, SPACE,
    NEL and NBSP. *)
Definition is_space (c : ascii) : bool :=
  let n := N_of_ascii c in
  ((9 <=? n) && (n <=? 13) || (28 <=? n) && (n <=? 32)
   || (n =? 133) || (n =? 160))%N.

Definition is_empty (s : string) : bool :=
  match s with
  | EmptyString => true
  | String _ _ => false
  end.

Fixpoint lstrip (s : string) : string :=
  match s with
  | EmptyString => EmptyString
  | String c s' => if is_space c then lstrip s' else s
  end.

Fixpoint rstrip (s : string) : string :=
  match s with
  | EmptyString => EmptyString
  | String c s' =>
      match rstrip s' with
      | EmptyString => if is_space c then EmptyString else String c EmptyString
      | r => String c r
      end
  end.

(** [s.strip()] *)
Definition strip (s : string) : string := rstrip (lstrip s).

(** [s.split()]: the maximal runs of characters that are not white space. *)
Fixpoint split_ws (s : string) : list string :=
  match s with
  | EmptyString => []
  | String c s' =>
      if is_space c then split_ws s'
      else
        match s' with
        | EmptyString => [String c EmptyString]
        | String d _ =>
            if is_space d then String c EmptyString :: split_ws s'
            else
              match split_ws s' with
              | w :: ws => String c w :: ws
              | [] => [String c EmptyString]
              end
        end
  end.

(** [s.split(sep)] for a one-character separator: never an empty list. *)
Fixpoint split_on (sep : ascii) (s : string) : list string :=
  match s with
  | EmptyString => [EmptyString]
  | String c s' =>
      if Ascii.eqb c sep then EmptyString :: split_on sep s'
      else
        match split_on sep s' with
        | p :: ps => String c p :: ps
        | [] => [String c EmptyString]
        end
  end.

(** [s.endswith(suffix)] and [s.startswith(prefix)] *)
Definition endswith (s suffix : string) : bool :=
  let n := String.length s in
  let m := String.length suffix in
  (m <=? n)%nat && String.eqb (substring (n - m) m s) suffix.

Definition startswith (s pre : string) : bool := String.prefix pre s.

(** [s[n:]] *)
Definition slice_from (n : nat) (s : string) : string :=
  substring n (String.length s - n) s.

(** [l[i]] *)
Definition index {A : Type} (l : list A) (i : nat) : result A :=
  match nth_error l i with
  | Some a => Ok a
  | None => Raise IndexError
  end.

(** [l[-1]] *)
Definition latest {A : Type} (l : list A) : result A :=
  index l (List.length l - 1).

Definition is_nil {A : Type} (l : list A) : bool :=
  match l with
  | [] => true
  | _ :: _ => false
  end.

(** [[l[i] for i in indices]] *)
Fixpoint select {A : Type} (l : list A) (indices : list nat)
  : result (list A) :=
  match indices with
  | [] => Ok []
  | i :: rest =>
      match index l i with
      | Ok x =>
          match select l rest with
          | Ok xs => Ok (x :: xs)
          | Raise e => Raise e
          end
      | Raise e => Raise e
      end
  end.

(** [max(0, x)], and [min(l)], [max(l)] on a list of floats: the built-ins
    keep the first of two items unless the later one compares strictly
    better. *)
Definition max0 (x : float) : float := if (0 <? x)%float then x else 0%float.

Definition float_min (l : list float) : result float :=
  match l with
  | [] => Raise ValueError
  | x :: xs => Ok (fold_left (fun m t => if (t <? m)%float then t else m) xs x)
  end.

Definition float_max (l : list float) : result float :=
  match l with
  | [] => Raise ValueError
  | x :: xs => Ok (fold_left (fun m t => if (m <? t)%float then t else m) xs x)
  end.

(** [float(s)] *)
Definition float (rt : runtime) (s : string) : result PrimFloat.float :=
  match float_of_str rt s with
  | Some f => Ok f
  | None => Raise ValueError
  end.

End Py.

Import Py.

Notation "x <- m ;; k" := (Py.bind m (fun x => k))
  (at level 61, m at next level, right associativity).

(* ================================================================== *)
(** ** [format_si_unit] *)
(* ================================================================== *)

Definition si_prefixes : list (Z * string) :=
  [ (-9, "n"); (-6, "μ"); (-3, "m"); (0, ""); (3, "k"); (6, "M"); (9, "G") ]%string.

(** [format_si_unit(value, unit)].  A number is a float here; an integer
    argument behaves as the float of the same value, which is what
    [math.log10] and the true division make of it. *)
Definition format_si_unit (rt : runtime) (value : value) (unit : string)
  : result string :=
  overload <- (if eq_str value "Overload" then Ok true
               else if is_none value then Ok true
               else math_isnan value) ;;
  if (overload : bool) then Ok "Overload"%string
  else
    match value with
    | VFloat v =>
        exponent <- (if eq_zero value then Ok 0
                     else
                       l <- math_log10 rt (PrimFloat.abs v) ;;
                       exponent <- math_floor l ;;
                       Ok (exponent - exponent mod 3)) ;;
        min_exponent <- min_list (map fst si_prefixes) ;;
        max_exponent <- max_list (map fst si_prefixes) ;;
        let exponent := Z.max (Z.min exponent max_exponent) min_exponent in
        let scaled_value := (v / pow10 exponent)%float in
        prefix <- dict_get si_prefixes exponent ;;
        Ok (format_6g scaled_value ++ " " ++ prefix ++ unit)%string
    | _ => Raise TypeError
    end.

(* ================================================================== *)
(** ** [MeasurementClass]: the sampler thread *)
(* ================================================================== *)

(** What [self.dmm.read()] gives: a line, or an exception of the transport. *)
Inductive read_outcome : Type :=
| RLine (s : string)
| RFail (e : exn).

(** The instrument transactions the sampler performs. *)
Inductive event : Type :=
| EWrite (s : string)
| EClear
| ERead
| EClose.

(** The instrument handle: the answers the instrument will give to the next
    reads, and the transactions made so far (oldest first).  A read with no
    answer left times out.  Writes, [clear] and [close] succeed.  The calls
    of [time.sleep] between transactions leave no trace here. *)
Record device : Type := {
  pending : list read_outcome;
  trace : list event
}.

Definition dev_write (d : device) (s : string) : device :=
  {| pending := pending d; trace := trace d ++ [EWrite s] |}.

Definition dev_clear (d : device) : device :=
  {| pending := pending d; trace := trace d ++ [EClear] |}.

Definition dev_close (d : device) : device :=
  {| pending := pending d; trace := trace d ++ [EClose] |}.

Definition dev_read (d : device) : read_outcome * device :=
  match pending d with
  | [] => (RFail VisaIOError, {| pending := []; trace := trace d ++ [ERead] |})
  | o :: rest => (o, {| pending := rest; trace := trace d ++ [ERead] |})
  end.

(** One entry of [data_list]: [(timestamp, ach_value, bch_value)]. *)
Definition sample : Type := (PrimFloat.float * value * value)%type.

(** The thread's state.  [ticks] counts the readings of [time.time()] taken
    so far (the clock is an argument of [run]: the reading as a function of
    that count); [printed] keeps the exceptions whose message was printed.
    [command_queue] holds the commands enqueued before the loop body starts:
    no producer runs during it. *)
Record sampler : Type := {
  dmm : device;
  command_queue : list string;
  data_list : list sample;
  stop_event : bool;
  is_ready_event : bool;
  ticks : nat;
  printed : list exn
}.

Definition set_dmm (st : sampler) (d : device) : sampler :=
  {| dmm := d; command_queue := command_queue st; data_list := data_list st;
     stop_event := stop_event st; is_ready_event := is_ready_event st;
     ticks := ticks st; printed := printed st |}.

Definition set_queue (st : sampler) (q : list string) : sampler :=
  {| dmm := dmm st; command_queue := q; data_list := data_list st;
     stop_event := stop_event st; is_ready_event := is_ready_event st;
     ticks := ticks st; printed := printed st |}.

Definition set_stop (st : sampler) : sampler :=
  {| dmm := dmm st; command_queue := command_queue st; data_list := data_list st;
     stop_event := true; is_ready_event := is_ready_event st;
     ticks := ticks st; printed := printed st |}.

Definition print_exn (st : sampler) (e : exn) : sampler :=
  {| dmm := dmm st; command_queue := command_queue st; data_list := data_list st;
     stop_event := stop_event st; is_ready_event := is_ready_event st;
     ticks := ticks st; printed := printed st ++ [e] |}.

Definition append_sample (st : sampler) (x : sample) : sampler :=
  {| dmm := dmm st; command_queue := command_queue st;
     data_list := data_list st ++ [x];
     stop_event := stop_event st; is_ready_event := true;
     ticks := S (ticks st); printed := printed st |}.

(** *** [send_command] *)

(** The [while True] loop that waits for the completion token.  Any
    [VisaIOError] of the read is retried; another exception leaves the loop
    and reaches the handler of [send_command].  [None]: the fuel ran out. *)
Fixpoint poll_opc (fuel : nat) (d : device) : option (device * option exn) :=
  match fuel with
  | O => None
  | S k =>
      let (o, d') := dev_read d in
      match o with
      | RLine ready =>
          if String.eqb (strip ready) "1" then Some (d', None) else poll_opc k d'
      | RFail VisaIOError => poll_opc k d'
      | RFail e => Some (d', Some e)
      end
  end.

Definition send_command (fuel : nat) (st : sampler) (command : string)
  : option sampler :=
  let d := dev_write (dmm st) "*CLS" in
  let d := dev_clear d in
  let d := dev_write d command in
  let d := dev_write d "*OPC?" in
  match poll_opc fuel d with
  | None => None
  | Some (d', None) => Some (set_dmm st d')
  | Some (d', Some e) => Some (print_exn (set_dmm st d') e)
  end.

(** *** [check_commands] *)

(** The body of the loop for one dequeued [command], and the loop over the
    queue. *)
Definition dispatch (fuel : nat) (st : sampler) (command : string)
  : option sampler :=
  if String.eqb command "STOP" then Some (set_stop st)
  else if startswith command "SEND " then
    let cmd := slice_from 5 command in
    send_command fuel st cmd
  else if String.eqb command "TRIGGER" then send_command fuel st "*TRG"
  else Some st.

Fixpoint drain (fuel : nat) (queue : list string) (st : sampler)
  : option sampler :=
  match queue with
  | [] => Some st
  | command :: rest =>
      match dispatch fuel (set_queue st rest) command with
      | None => None
      | Some st' => drain fuel rest st'
      end
  end.

Definition check_commands (fuel : nat) (st : sampler) : option sampler :=
  drain fuel (command_queue st) st.

(** *** [read_measurement] *)

(** One turn of the [for part in parts] loop up to the assignment of
    [value]: [None] is a [continue]. *)
Definition read_part (rt : runtime) (part : string) : result (option value) :=
  let part := strip part in
  if is_empty part then Ok None
  else
    let tokens := split_ws part in
    if (List.length tokens <? 2)%nat then Ok None
    else
      prefix <- index tokens 0 ;;
      value_str <- index tokens 1 ;;
      if endswith prefix "_" then
        try_except
          (value <- Py.float rt value_str ;;
           let value := if (value =? -0)%float then 0%float else value in
           Ok (Some (VFloat value)))
          ValueError (Ok None)
      else if endswith prefix "O" then Ok (Some (VStr "Overload"))
      else Ok None.

Fixpoint read_parts (rt : runtime) (parts : list string)
  (ach_value bch_value : value) : result (value * value) :=
  match parts with
  | [] => Ok (ach_value, bch_value)
  | part :: rest =>
      r <- read_part rt part ;;
      match r with
      | None => read_parts rt rest ach_value bch_value
      | Some value =>
          if is_none ach_value then read_parts rt rest value bch_value
          else if is_none bch_value then read_parts rt rest ach_value value
          else read_parts rt rest ach_value bch_value
      end
  end.

Definition read_measurement (rt : runtime) (o : read_outcome)
  : result (value * value) :=
  try_except
    (measurement <- match o with
                    | RLine s => Ok (strip s)
                    | RFail e => Raise e
                    end ;;
     let parts := split_on "," measurement in
     r <- read_parts rt parts VNone VNone ;;
     if is_none (fst r) then Ok (VNone, VNone) else Ok (fst r, snd r))
    VisaIOError (Ok (VNone, VNone)).

(** *** [run] *)

(** The [try] block of the loop body: one read, and the append when a
    channel-A value came out.  [clock (ticks st)] is [time.time()], [start]
    the reading taken before the loop. *)
Definition acquire (rt : runtime) (clock : nat -> PrimFloat.float)
  (start : PrimFloat.float) (st : sampler) : sampler :=
  let (o, d) := dev_read (dmm st) in
  let st := set_dmm st d in
  match read_measurement rt o with
  | Ok (ach_value, bch_value) =>
      if negb (is_none ach_value) then
        let timestamp := (clock (ticks st) - start)%float in
        append_sample st (timestamp, ach_value, bch_value)
      else st
  | Raise e => print_exn st e
  end.

(** The [while not self.stop_event.is_set()] loop and the [close] after it.
    [None]: the fuel ran out. *)
Fixpoint run_loop (fuel : nat) (rt : runtime) (clock : nat -> PrimFloat.float)
  (start : PrimFloat.float) (st : sampler) : option sampler :=
  match fuel with
  | O => None
  | S k =>
      if stop_event st then Some (set_dmm st (dev_close (dmm st)))
      else
        match check_commands fuel st with
        | None => None
        | Some st => run_loop k rt clock start (acquire rt clock start st)
        end
  end.

(** One more reading of the clock taken. *)
Definition tick (st : sampler) : sampler :=
  {| dmm := dmm st; command_queue := command_queue st; data_list := data_list st;
     stop_event := stop_event st; is_ready_event := is_ready_event st;
     ticks := S (ticks st); printed := printed st |}.

(** [run]: [opened] is what [open_resource] gives.  A failure to open is
    printed and ends the thread; otherwise the start time is read and the
    loop runs. *)
Definition run (fuel : nat) (rt : runtime) (clock : nat -> PrimFloat.float)
  (opened : result device) (st : sampler) : option sampler :=
  match opened with
  | Raise e => Some (print_exn st e)
  | Ok d =>
      let st := set_dmm st d in
      run_loop fuel rt clock (clock (ticks st)) (tick st)
  end.

(* ================================================================== *)
(** ** The derived-metric reductions *)
(* ================================================================== *)

(** [ach_value != 0 and not math.isnan(ach_value) and not math.isnan(bch_value)],
    evaluated left to right with short circuit. *)
Definition ratio_guard (ach_value bch_value : value) : result bool :=
  if ne_zero ach_value then
    na <- math_isnan ach_value ;;
    if negb na then
      nb <- math_isnan bch_value ;;
      Ok (negb nb)
    else Ok false
  else Ok false.

(** [not math.isnan(ach_value) and not math.isnan(bch_value)] *)
Definition product_guard (ach_value bch_value : value) : result bool :=
  na <- math_isnan ach_value ;;
  if negb na then
    nb <- math_isnan bch_value ;;
    Ok (negb nb)
  else Ok false.

(** [float('inf')], the marker of a reduction that gave no value. *)
Definition Invalid : value := VFloat infinity.

(** The body of the [for] loop of [DMMApp.update_from_shared_memory] in jig
    mode: the [calculated_value] of one sample. *)
Definition shared_calculated_value (jig_mode_name : string)
  (ach_value bch_value : value) : result value :=
  if String.eqb jig_mode_name "四端子抵抗測定A_V" then
    g <- ratio_guard ach_value bch_value ;;
    if (g : bool) then
      try_except (q <- truediv ach_value bch_value ;; Py.abs q)
                 ZeroDivisionError (Ok Invalid)
    else Ok Invalid
  else if String.eqb jig_mode_name "四端子抵抗測定B_V" then
    g <- ratio_guard ach_value bch_value ;;
    if (g : bool) then
      try_except (q <- truediv ach_value bch_value ;; Py.abs q)
                 ZeroDivisionError (Ok Invalid)
    else Ok Invalid
  else if String.eqb jig_mode_name "hFE測定" then
    g <- ratio_guard ach_value bch_value ;;
    if (g : bool) then
      try_except (truediv bch_value ach_value) ZeroDivisionError (Ok Invalid)
    else Ok Invalid
  else if String.eqb jig_mode_name "電力計測(小電流)" then
    g <- product_guard ach_value bch_value ;;
    if (g : bool) then Py.mul ach_value bch_value else Ok Invalid
  else if String.eqb jig_mode_name "電力計測(大電流)" then
    g <- product_guard ach_value bch_value ;;
    if (g : bool) then Py.mul ach_value bch_value else Ok Invalid
  else Ok Invalid.

(** The same in [GraphDisplayPage.load_data_from_list], which has no handler
    for [ZeroDivisionError]. *)
Definition list_calculated_value (jig_mode_name : string)
  (ach_value bch_value : value) : result value :=
  if String.eqb jig_mode_name "四端子抵抗測定A_V"
     || String.eqb jig_mode_name "四端子抵抗測定B_V" then
    g <- ratio_guard ach_value bch_value ;;
    if (g : bool) then q <- truediv ach_value bch_value ;; Py.abs q
    else Ok Invalid
  else if String.eqb jig_mode_name "hFE測定" then
    g <- ratio_guard ach_value bch_value ;;
    if (g : bool) then truediv bch_value ach_value else Ok Invalid
  else if String.eqb jig_mode_name "電力計測(小電流)" then
    g <- product_guard ach_value bch_value ;;
    if (g : bool) then Py.mul ach_value bch_value else Ok Invalid
  else if String.eqb jig_mode_name "電力計測(大電流)" then
    g <- product_guard ach_value bch_value ;;
    if (g : bool) then Py.mul ach_value bch_value else Ok Invalid
  else Ok Invalid.

(** The lists both functions build from a slice of [data_list]. *)
Record batch : Type := {
  time_values : list PrimFloat.float;
  ach_values : list value;
  bch_values : list value;
  calculated_values : list value
}.

Definition empty_batch : batch :=
  {| time_values := []; ach_values := []; bch_values := [];
     calculated_values := [] |}.

Fixpoint collect (calc : value -> value -> result value)
  (jig_mode measurement_mode_bch : bool) (data : list sample) (acc : batch)
  : result batch :=
  match data with
  | [] => Ok acc
  | (timestamp, ach_value, bch_value) :: rest =>
      if jig_mode then
        calculated_value <- calc ach_value bch_value ;;
        collect calc jig_mode measurement_mode_bch rest
          {| time_values := time_values acc ++ [timestamp];
             ach_values := ach_values acc;
             bch_values := bch_values acc;
             calculated_values := calculated_values acc ++ [calculated_value] |}
      else
        collect calc jig_mode measurement_mode_bch rest
          {| time_values := time_values acc ++ [timestamp];
             ach_values := ach_values acc ++ [ach_value];
             bch_values := if measurement_mode_bch
                           then bch_values acc ++ [bch_value]
                           else bch_values acc;
             calculated_values := calculated_values acc |}
  end.

(* ================================================================== *)
(** ** [GraphDisplayPage]: window and recording buffers *)
(* ================================================================== *)

(** What [set_measurement_mode_descriptions] and the setup page store. *)
Record config : Type := {
  ach_desc : string;
  bch_desc : string;
  ach_unit : string;
  bch_unit : string;
  calculated_unit : string;
  calculated_value_desc : string;
  jig_mode : bool
}.

(** What the page shows or writes outside itself. *)
Inductive effect : Type :=
| MsgInfo (title text : string)
| MsgCritical (title text : string)
| FileWritten (path : string) (rows : list (list value)).

Record page : Type := {
  cfg : config;
  time_input : string;
  ach_data : list value;
  bch_data : list value;
  calculated_data : list value;
  time_data : list PrimFloat.float;
  value_label_ach : string;
  value_label_bch : string;
  value_label_calculated : string;
  recording : bool;
  recording_button : string;
  recorded_data : list (list value);
  effects : list effect
}.

Definition set_time_input (v : string) (pg : page) : page :=
  {| cfg := cfg pg; time_input := v; ach_data := ach_data pg;
     bch_data := bch_data pg; calculated_data := calculated_data pg;
     time_data := time_data pg; value_label_ach := value_label_ach pg;
     value_label_bch := value_label_bch pg;
     value_label_calculated := value_label_calculated pg;
     recording := recording pg; recording_button := recording_button pg;
     recorded_data := recorded_data pg; effects := effects pg |}.

Definition set_ach_data (v : list value) (pg : page) : page :=
  {| cfg := cfg pg; time_input := time_input pg; ach_data := v;
     bch_data := bch_data pg; calculated_data := calculated_data pg;
     time_data := time_data pg; value_label_ach := value_label_ach pg;
     value_label_bch := value_label_bch pg;
     value_label_calculated := value_label_calculated pg;
     recording := recording pg; recording_button := recording_button pg;
     recorded_data := recorded_data pg; effects := effects pg |}.

Definition set_bch_data (v : list value) (pg : page) : page :=
  {| cfg := cfg pg; time_input := time_input pg; ach_data := ach_data pg;
     bch_data := v; calculated_data := calculated_data pg;
     time_data := time_data pg; value_label_ach := value_label_ach pg;
     value_label_bch := value_label_bch pg;
     value_label_calculated := value_label_calculated pg;
     recording := recording pg; recording_button := recording_button pg;
     recorded_data := recorded_data pg; effects := effects pg |}.

Definition set_calculated_data (v : list value) (pg : page) : page :=
  {| cfg := cfg pg; time_input := time_input pg; ach_data := ach_data pg;
     bch_data := bch_data pg; calculated_data := v;
     time_data := time_data pg; value_label_ach := value_label_ach pg;
     value_label_bch := value_label_bch pg;
     value_label_calculated := value_label_calculated pg;
     recording := recording pg; recording_button := recording_button pg;
     recorded_data := recorded_data pg; effects := effects pg |}.

Definition set_time_data (v : list PrimFloat.float) (pg : page) : page :=
  {| cfg := cfg pg; time_input := time_input pg; ach_data := ach_data pg;
     bch_data := bch_data pg; calculated_data := calculated_data pg;
     time_data := v; value_label_ach := value_label_ach pg;
     value_label_bch := value_label_bch pg;
     value_label_calculated := value_label_calculated pg;
     recording := recording pg; recording_button := recording_button pg;
     recorded_data := recorded_data pg; effects := effects pg |}.

Definition set_labels (a b c : string) (pg : page) : page :=
  {| cfg := cfg pg; time_input := time_input pg; ach_data := ach_data pg;
     bch_data := bch_data pg; calculated_data := calculated_data pg;
     time_data := time_data pg; value_label_ach := a;
     value_label_bch := b; value_label_calculated := c;
     recording := recording pg; recording_button := recording_button pg;
     recorded_data := recorded_data pg; effects := effects pg |}.

Definition set_recording (v : bool) (text : string) (pg : page) : page :=
  {| cfg := cfg pg; time_input := time_input pg; ach_data := ach_data pg;
     bch_data := bch_data pg; calculated_data := calculated_data pg;
     time_data := time_data pg; value_label_ach := value_label_ach pg;
     value_label_bch := value_label_bch pg;
     value_label_calculated := value_label_calculated pg;
     recording := v; recording_button := text;
     recorded_data := recorded_data pg; effects := effects pg |}.

Definition set_recorded_data (v : list (list value)) (pg : page) : page :=
  {| cfg := cfg pg; time_input := time_input pg; ach_data := ach_data pg;
     bch_data := bch_data pg; calculated_data := calculated_data pg;
     time_data := time_data pg; value_label_ach := value_label_ach pg;
     value_label_bch := value_label_bch pg;
     value_label_calculated := value_label_calculated pg;
     recording := recording pg; recording_button := recording_button pg;
     recorded_data := v; effects := effects pg |}.

Definition emit (e : effect) (pg : page) : page :=
  {| cfg := cfg pg; time_input := time_input pg; ach_data := ach_data pg;
     bch_data := bch_data pg; calculated_data := calculated_data pg;
     time_data := time_data pg; value_label_ach := value_label_ach pg;
     value_label_bch := value_label_bch pg;
     value_label_calculated := value_label_calculated pg;
     recording := recording pg; recording_button := recording_button pg;
     recorded_data := recorded_data pg; effects := effects pg ++ [e] |}.

(** A method of the page: it may raise, and what it changed before it raised
    stays changed. *)
Definition gui (A : Type) : Type := page -> result A * page.

Definition gret {A : Type} (a : A) : gui A := fun pg => (Ok a, pg).

Definition gbind {A B : Type} (m : gui A) (k : A -> gui B) : gui B :=
  fun pg =>
    match m pg with
    | (Ok a, pg') => k a pg'
    | (Raise e, pg') => (Raise e, pg')
    end.

Definition lift {A : Type} (r : result A) : gui A := fun pg => (r, pg).
Definition get : gui page := fun pg => (Ok pg, pg).
Definition modify (f : page -> page) : gui unit := fun pg => (Ok tt, f pg).

Declare Scope gui_scope.
Delimit Scope gui_scope with gui.
Notation "x <~ m ;; k" := (gbind m (fun x => k))
  (at level 61, m at next level, right associativity) : gui_scope.
Notation "m ;;; k" := (gbind m (fun _ => k))
  (at level 61, right associativity) : gui_scope.

(** [bool(s)] of a string. *)
Definition truthy (s : string) : bool := negb (is_empty s).

(** *** [update_graph] *)

(** The pairs of [zip(time_values, calculated_values)] whose value is not
    infinite. *)
Fixpoint filter_inf (tc : list (PrimFloat.float * value))
  : result (list PrimFloat.float * list value) :=
  match tc with
  | [] => Ok ([], [])
  | (t, c) :: rest =>
      inf <- math_isinf c ;;
      r <- filter_inf rest ;;
      Ok (if (inf : bool) then r else (t :: fst r, c :: snd r))
  end.

(** [min_time <= t <= max_time] *)
Definition in_window (min_time max_time t : PrimFloat.float) : bool :=
  (min_time <=? t)%float && (t <=? max_time)%float.

(** [[i for i, t in enumerate(l) if min_time <= t <= max_time]], counting
    from [i]. *)
Fixpoint indices_from (i : nat) (min_time max_time : PrimFloat.float)
  (l : list PrimFloat.float) : list nat :=
  match l with
  | [] => []
  | t :: rest =>
      if in_window min_time max_time t
      then i :: indices_from (S i) min_time max_time rest
      else indices_from (S i) min_time max_time rest
  end.

(** [float(self.time_input.text())] with its fallback. *)
Definition max_display_time (rt : runtime) (pg : page) : PrimFloat.float :=
  match Py.float rt (time_input pg) with
  | Ok t => t
  | Raise _ => 10%float
  end.

(** The bounds of the displayed window. *)
Definition window_bounds (rt : runtime) (pg : page)
  : result (PrimFloat.float * PrimFloat.float) :=
  let span := max_display_time rt pg in
  if (0 <? span)%float then
    last <- latest (time_data pg) ;;
    Ok (max0 (last - span)%float, last)
  else
    min_time <- float_min (time_data pg) ;;
    max_time <- float_max (time_data pg) ;;
    Ok (min_time, max_time).

Local Open Scope gui_scope.

(** The first branch on [self.jig_mode and calculated_values]: extend the
    value buffers; the result is the rebound [time_values]. *)
Definition extend_values (jig : bool) (ach_values bch_values : list value)
  (time_values : list PrimFloat.float) (calculated_values : list value)
  : gui (list PrimFloat.float) :=
  if jig then
    r <~ lift (filter_inf (combine time_values calculated_values)) ;;
    modify (fun pg => set_calculated_data (calculated_data pg ++ snd r) pg) ;;;
    gret (fst r)
  else
    modify (fun pg => set_ach_data (ach_data pg ++ ach_values) pg) ;;;
    pg <~ get ;;
    (if truthy (bch_desc (cfg pg)) && negb (is_nil bch_values)
     then modify (fun pg => set_bch_data (bch_data pg ++ bch_values) pg)
     else gret tt) ;;;
    gret time_values.

(** The second branch: keep the entries of the window.  Each assignment to
    an attribute takes effect before the next list is built. *)
Definition keep_window (jig : bool) (bch_values : list value)
  (min_time max_time : PrimFloat.float) : gui unit :=
  pg <~ get ;;
  let indices := indices_from 0 min_time max_time (time_data pg) in
  td <~ lift (select (time_data pg) indices) ;;
  modify (set_time_data td) ;;;
  if jig then
    pg <~ get ;;
    cd <~ lift (select (calculated_data pg) indices) ;;
    modify (set_calculated_data cd) ;;;
    pg <~ get ;;
    _ <~ lift (select (time_data pg) indices) ;;
    _ <~ lift (select (calculated_data pg) indices) ;;
    gret tt
  else
    pg <~ get ;;
    ad <~ lift (select (ach_data pg) indices) ;;
    modify (set_ach_data ad) ;;;
    pg <~ get ;;
    let with_b := truthy (bch_desc (cfg pg)) && negb (is_nil bch_values) in
    (if with_b then
       bd <~ lift (select (bch_data pg) indices) ;;
       modify (set_bch_data bd)
     else gret tt) ;;;
    pg <~ get ;;
    _ <~ lift (select (time_data pg) indices) ;;
    _ <~ lift (select (ach_data pg) indices) ;;
    _ <~ (if with_b then lift (select (bch_data pg) indices) else gret []) ;;
    (* the drawing reads the local [bch_data] whenever [bch_desc] is set *)
    if truthy (bch_desc (cfg pg)) && negb with_b then lift (Raise UnboundLocalError)
    else gret tt.

(** The text of the label of a derived value, and of a channel. *)
Definition calculated_text (rt : runtime) (c : config)
  (calculated_values : list value) : result string :=
  latest_value <- latest calculated_values ;;
  bad <- (if eq_str latest_value "Overload" then Ok true
          else if is_none latest_value then Ok true
          else
            n <- math_isnan latest_value ;;
            if (n : bool) then Ok true else math_isinf latest_value) ;;
  if (bad : bool) then Ok (calculated_value_desc c ++ ": Overload")%string
  else
    formatted_value <-
      (if truthy (calculated_unit c)
       then format_si_unit rt latest_value (calculated_unit c)
       else match latest_value with
            | VFloat f => Ok (format_3f f)
            | _ => Raise ValueError
            end) ;;
    Ok (calculated_value_desc c ++ ": " ++ formatted_value)%string.

Definition channel_text (rt : runtime) (desc unit : string)
  (values : list value) : result string :=
  latest_value <- latest values ;;
  bad <- (if eq_str latest_value "Overload" then Ok true
          else math_isnan latest_value) ;;
  if (bad : bool) then Ok (desc ++ ": Overload")%string
  else
    formatted_value <- format_si_unit rt latest_value unit ;;
    Ok (desc ++ ": " ++ formatted_value)%string.

Definition show_labels (rt : runtime) (jig : bool)
  (ach_values bch_values calculated_values : list value) : gui unit :=
  pg <~ get ;;
  if jig then
    text <~ lift (calculated_text rt (cfg pg) calculated_values) ;;
    modify (fun pg => set_labels (value_label_ach pg) (value_label_bch pg) text pg)
  else
    (if negb (is_nil ach_values) then
       text <~ lift (channel_text rt (ach_desc (cfg pg)) (ach_unit (cfg pg)) ach_values) ;;
       modify (fun pg => set_labels text (value_label_bch pg)
                                    (value_label_calculated pg) pg)
     else gret tt) ;;;
    if truthy (bch_desc (cfg pg)) && negb (is_nil bch_values) then
      text <~ lift (channel_text rt (bch_desc (cfg pg)) (bch_unit (cfg pg)) bch_values) ;;
      modify (fun pg => set_labels (value_label_ach pg) text
                                   (value_label_calculated pg) pg)
    else gret tt.

(** The rows appended while recording. *)
Fixpoint record_calculated (tc : list (PrimFloat.float * value)) : gui unit :=
  match tc with
  | [] => gret tt
  | (t, c_val) :: rest =>
      inf <~ lift (math_isinf c_val) ;;
      (if (inf : bool) then gret tt
       else modify (fun pg => set_recorded_data
                                (recorded_data pg ++ [[VFloat t; c_val]]) pg)) ;;;
      record_calculated rest
  end.

Fixpoint record_channels (with_b : bool)
  (tab : list (PrimFloat.float * value * value)) : gui unit :=
  match tab with
  | [] => gret tt
  | (t, a_val, b_val) :: rest =>
      modify (fun pg => set_recorded_data
                (recorded_data pg
                   ++ [if with_b then [VFloat t; a_val; b_val] else [VFloat t; a_val]])
                pg) ;;;
      record_channels with_b rest
  end.

Definition record (jig : bool) (ach_values bch_values : list value)
  (time_values : list PrimFloat.float) (calculated_values : list value)
  : gui unit :=
  pg <~ get ;;
  if recording pg then
    if jig then record_calculated (combine time_values calculated_values)
    else
      let combined_b := if negb (is_nil bch_values) then bch_values
                        else repeat VNone (List.length ach_values) in
      record_channels (truthy (bch_desc (cfg pg)))
        (combine (combine time_values ach_values) combined_b)
  else gret tt.

(** [update_graph(ach_values, bch_values, time_values, calculated_values)];
    an argument that is [None] is the empty list here, as the method only
    tests it for truth.  Drawing on the canvas is taken to succeed. *)
Definition update_graph (rt : runtime) (ach_values bch_values : list value)
  (time_values : list PrimFloat.float) (calculated_values : list value)
  : gui unit :=
  modify (fun pg => set_time_data (time_data pg ++ time_values) pg) ;;;
  pg <~ get ;;
  if is_nil (time_data pg) then gret tt
  else
    let jig := jig_mode (cfg pg) && negb (is_nil calculated_values) in
    time_values <~ extend_values jig ach_values bch_values time_values
                                 calculated_values ;;
    pg <~ get ;;
    bounds <~ lift (window_bounds rt pg) ;;
    keep_window jig bch_values (fst bounds) (snd bounds) ;;;
    show_labels rt jig ach_values bch_values calculated_values ;;;
    record jig ach_values bch_values time_values calculated_values.

(** *** [toggle_recording], [save_recorded_data], [reset_graph] *)

(** The header row of the exported file. *)
Definition header (c : config) : list value :=
  if jig_mode c then
    [VStr "時間 (秒)";
     VStr (calculated_value_desc c ++ " (" ++ calculated_unit c ++ ")")]
  else if truthy (bch_desc c) then
    [VStr "時間 (秒)";
     VStr (ach_desc c ++ " (" ++ ach_unit c ++ ")");
     VStr (bch_desc c ++ " (" ++ bch_unit c ++ ")")]
  else
    [VStr "時間 (秒)"; VStr (ach_desc c ++ " (" ++ ach_unit c ++ ")")].

(** [file_path] is what the save dialog returns (empty when cancelled);
    [io_ok] tells whether opening and writing the file succeed. *)
Definition save_recorded_data (file_path : string) (io_ok : bool) (pg : page)
  : page :=
  if is_nil (recorded_data pg) then
    emit (MsgInfo "情報" "記録されたデータがありません。") pg
  else if truthy file_path then
    if io_ok then
      emit (MsgInfo "成功" ("データを" ++ file_path ++ "に保存しました。"))
        (emit (FileWritten file_path (header (cfg pg) :: recorded_data pg)) pg)
    else
      emit (MsgCritical "エラー" "データの保存に失敗しました。") pg
  else pg.

Definition toggle_recording (file_path : string) (io_ok : bool) (pg : page)
  : page :=
  if negb (recording pg) then
    set_recording true "記録停止" (set_recorded_data [] pg)
  else
    save_recorded_data file_path io_ok (set_recording false "記録開始" pg).

Definition reset_graph (pg : page) : page :=
  let pg := set_time_input "10" pg in
  let pg := set_ach_data [] pg in
  let pg := set_bch_data [] pg in
  let pg := set_calculated_data [] pg in
  let pg := set_time_data [] pg in
  set_recorded_data [] pg.

Local Close Scope gui_scope.

(* ================================================================== *)
(** ** [DMMApp.update_from_shared_memory] *)
(* ================================================================== *)

(** The attributes of the application the timer tick uses ([app_data_list] and
    [app_jig_mode] are its [data_list] and [jig_mode]). *)
Record DMMApp : Type := {
  app_data_list : list sample;
  last_read_index : nat;
  app_jig_mode : bool;
  jig_mode_name : string;
  measurement_mode_bch : bool;
  graph_display_page : page
}.

Definition set_page (a : DMMApp) (index : nat) (pg : page) : DMMApp :=
  {| app_data_list := app_data_list a; last_read_index := index;
     app_jig_mode := app_jig_mode a; jig_mode_name := jig_mode_name a;
     measurement_mode_bch := measurement_mode_bch a;
     graph_display_page := pg |}.

(** One tick of the timer while the graph page is the current widget.  The
    cursor is moved before the new samples are reduced and stays moved when
    the reduction or the page raises. *)
Definition update_from_shared_memory (rt : runtime) (a : DMMApp)
  : result unit * DMMApp :=
  if (List.length (app_data_list a) <=? last_read_index a)%nat then (Ok tt, a)
  else
    let new_data_count :=
      (List.length (app_data_list a) - last_read_index a)%nat in
    let data_slice := skipn (last_read_index a) (app_data_list a) in
    let index := (last_read_index a + new_data_count)%nat in
    let pg := graph_display_page a in
    match collect (shared_calculated_value (jig_mode_name a))
                  (app_jig_mode a) (measurement_mode_bch a)
                  data_slice empty_batch with
    | Raise e => (Raise e, set_page a index pg)
    | Ok b =>
        if app_jig_mode a && negb (is_nil (calculated_values b)) then
          let r := update_graph rt [] [] (time_values b) (calculated_values b) pg in
          (fst r, set_page a index (snd r))
        else if negb (is_nil (ach_values b)) then
          let r := update_graph rt (ach_values b) (bch_values b) (time_values b) [] pg in
          (fst r, set_page a index (snd r))
        else (Ok tt, set_page a index pg)
    end.

(** *** The two reads of the shared list

    [self.data_list] is a list kept by the manager, to which the sampler
    thread appends while the timer tick runs.  The tick reads it twice: its
    length first, then its tail from the cursor on.  Below [app_data_list a]
    is the list as the first read finds it and [late] the samples appended
    before the second read; the application is left with the list as the
    second read found it. *)

Definition set_data_list (a : DMMApp) (data_list : list sample) : DMMApp :=
  {| app_data_list := data_list; last_read_index := last_read_index a;
     app_jig_mode := app_jig_mode a; jig_mode_name := jig_mode_name a;
     measurement_mode_bch := measurement_mode_bch a;
     graph_display_page := graph_display_page a |}.

(** What follows the two reads while the graph page is shown: the
    reduction of [data_slice] and the update of the page, with the cursor
    moved to [index]. *)
Definition deliver (rt : runtime) (a : DMMApp) (data_slice : list sample)
  (index : nat) : result unit * DMMApp :=
  let pg := graph_display_page a in
  match collect (shared_calculated_value (jig_mode_name a))
                (app_jig_mode a) (measurement_mode_bch a)
                data_slice empty_batch with
  | Raise e => (Raise e, set_page a index pg)
  | Ok b =>
      if app_jig_mode a && negb (is_nil (calculated_values b)) then
        let r := update_graph rt [] [] (time_values b) (calculated_values b) pg in
        (fst r, set_page a index (snd r))
      else if negb (is_nil (ach_values b)) then
        let r := update_graph rt (ach_values b) (bch_values b) (time_values b) [] pg in
        (fst r, set_page a index (snd r))
      else (Ok tt, set_page a index pg)
  end.

(** The tick with its two reads told apart. *)
Definition update_from_shared_memory_two_reads (rt : runtime) (a : DMMApp)
  (late : list sample) : result unit * DMMApp :=
  if (List.length (app_data_list a) <=? last_read_index a)%nat then (Ok tt, a)
  else
    let new_data_count :=
      (List.length (app_data_list a) - last_read_index a)%nat in
    let data_slice := skipn (last_read_index a) (app_data_list a ++ late) in
    let index := (last_read_index a + new_data_count)%nat in
    deliver rt (set_data_list a (app_data_list a ++ late)) data_slice index.

(* ================================================================== *)
(** ** [DMMApp]: starting a session, opening the graph page *)
(* ================================================================== *)

(** [start_measurement(setup_commands)], as far as the command queue goes:
    a reset is put first, then every setup command, each as a Configure
    request. *)
Definition start_measurement (setup_commands : list string)
  (queue : list string) : list string :=
  queue ++ "SEND *RST"%string
        :: map (fun cmd => ("SEND " ++ cmd)%string) setup_commands.

(** [GraphDisplayPage.load_data_from_list], which [go_to_graph_display] calls
    with the whole of [data_list]. *)
Definition load_data_from_list (rt : runtime) (data_list : list sample)
  (jig_mode : bool) (jig_mode_name : string) (measurement_mode_bch : bool)
  : gui unit :=
  fun pg =>
    match collect (list_calculated_value jig_mode_name)
                  jig_mode measurement_mode_bch data_list empty_batch with
    | Raise e => (Raise e, pg)
    | Ok b =>
        if jig_mode && negb (is_nil (calculated_values b)) then
          update_graph rt [] [] (time_values b) (calculated_values b) pg
        else if negb (is_nil (ach_values b)) then
          update_graph rt (ach_values b) (bch_values b) (time_values b) [] pg
        else (Ok tt, pg)
    end.

(* ================================================================== *)
(** ** [GraphDisplayPage]: construction and the mode descriptions *)
(* ================================================================== *)

(** [GraphDisplayPage.set_measurement_mode_descriptions], as far as the
    attributes go (the figure it rebuilds is not part of the model).  The
    units of the two channels are not among its arguments.  A [bch_desc]
    that is [None] is the empty string here: the page only ever tests it for
    truth before it formats it. *)
Definition set_measurement_mode_descriptions
  (ach_desc bch_desc : string) (jig_mode : bool)
  (calculated_value_desc calculated_unit : string) (pg : page) : page :=
  {| cfg := {| ach_desc := ach_desc; bch_desc := bch_desc;
               ach_unit := ach_unit (cfg pg); bch_unit := bch_unit (cfg pg);
               calculated_unit := calculated_unit;
               calculated_value_desc := calculated_value_desc;
               jig_mode := jig_mode |};
     time_input := time_input pg; ach_data := ach_data pg;
     bch_data := bch_data pg; calculated_data := calculated_data pg;
     time_data := time_data pg; value_label_ach := value_label_ach pg;
     value_label_bch := value_label_bch pg;
     value_label_calculated := value_label_calculated pg;
     recording := recording pg; recording_button := recording_button pg;
     recorded_data := recorded_data pg; effects := effects pg |}.

(** What [GraphDisplayPage.__init__] establishes ([ach_desc], which it sets
    to [None], is left open). *)
Definition constructed (pg : page) : Prop :=
  truthy (bch_desc (cfg pg)) = false
  /\ ach_unit (cfg pg) = ""%string /\ bch_unit (cfg pg) = ""%string
  /\ calculated_unit (cfg pg) = ""%string
  /\ calculated_value_desc (cfg pg) = ""%string
  /\ jig_mode (cfg pg) = false
  /\ time_input pg = "10"%string
  /\ ach_data pg = [] /\ bch_data pg = [] /\ calculated_data pg = []
  /\ time_data pg = []
  /\ value_label_ach pg = "---"%string /\ value_label_bch pg = "---"%string
  /\ value_label_calculated pg = "---"%string
  /\ recording pg = false /\ recording_button pg = "記録開始"%string
  /\ recorded_data pg = [].

(** One call of a method of the page, or an edit of the span field. *)
Inductive graph_page_step (rt : runtime) : page -> page -> Prop :=
| StepDescriptions (ach_desc bch_desc : string) (jig_mode : bool)
    (calculated_value_desc calculated_unit : string) (pg : page) :
    graph_page_step rt pg
      (set_measurement_mode_descriptions ach_desc bch_desc jig_mode
         calculated_value_desc calculated_unit pg)
| StepLoad (data_list : list sample) (jig_mode : bool) (jig_mode_name : string)
    (measurement_mode_bch : bool) (pg : page) :
    graph_page_step rt pg
      (snd (load_data_from_list rt data_list jig_mode jig_mode_name
              measurement_mode_bch pg))
| StepUpdate (ach_values bch_values : list value)
    (time_values : list PrimFloat.float) (calculated_values : list value)
    (pg : page) :
    graph_page_step rt pg
      (snd (update_graph rt ach_values bch_values time_values
              calculated_values pg))
| StepToggle (file_path : string) (io_ok : bool) (pg : page) :
    graph_page_step rt pg (toggle_recording file_path io_ok pg)
| StepReset (pg : page) : graph_page_step rt pg (reset_graph pg)
| StepSpan (text : string) (pg : page) :
    graph_page_step rt pg (set_time_input text pg).

Inductive graph_page_reaches (rt : runtime) : page -> page -> Prop :=
| ReachesHere (pg : page) : graph_page_reaches rt pg pg
| ReachesNext (pg pg' pg'' : page) :
    graph_page_reaches rt pg pg' -> graph_page_step rt pg' pg'' ->
    graph_page_reaches rt pg pg''.

(* ================================================================== *)
(** ** [ValueDisplayPage] *)
(* ================================================================== *)

Module ValueDisplayPage.

(** A [QLabel]: its text, and whether [hide()] was called on it and
    [show()] not since. *)
Record label : Type := {
  text : string;
  hidden : bool
}.

Definition setText (s : string) (l : label) : label :=
  {| text := s; hidden := hidden l |}.

Definition hide (l : label) : label := {| text := text l; hidden := true |}.

Definition show (l : label) : label := {| text := text l; hidden := false |}.

(** The attributes of the page.  [bch_desc] holds [None] when the setup
    page found no second function, [calculated_unit] holds [None] until the
    first call of [set_measurement_mode_descriptions]. *)
Record state : Type := {
  ach_desc : string;
  bch_desc : option string;
  calculated_value_desc : string;
  calculated_unit : option string;
  jig_mode : bool;
  value_label_ach : label;
  value_label_bch : label;
  value_label_calculated : label
}.

(** [__init__] *)
Definition init : state :=
  {| ach_desc := ""; bch_desc := Some ""%string; calculated_value_desc := "";
     calculated_unit := None; jig_mode := false;
     value_label_ach := {| text := "---"; hidden := false |};
     value_label_bch := {| text := "---"; hidden := false |};
     value_label_calculated := {| text := "---"; hidden := false |} |}.

(** [bool(d)] of a description that may be [None]. *)
Definition described (d : option string) : bool :=
  match d with
  | Some s => truthy s
  | None => false
  end.

(** [f"{d}"] *)
Definition str (d : option string) : string :=
  match d with
  | Some s => s
  | None => "None"
  end.

Definition set_labels (a b c : label) (vp : state) : state :=
  {| ach_desc := ach_desc vp; bch_desc := bch_desc vp;
     calculated_value_desc := calculated_value_desc vp;
     calculated_unit := calculated_unit vp; jig_mode := jig_mode vp;
     value_label_ach := a; value_label_bch := b; value_label_calculated := c |}.

Definition set_jig_mode (j : bool) (vp : state) : state :=
  {| ach_desc := ach_desc vp; bch_desc := bch_desc vp;
     calculated_value_desc := calculated_value_desc vp;
     calculated_unit := calculated_unit vp; jig_mode := j;
     value_label_ach := value_label_ach vp;
     value_label_bch := value_label_bch vp;
     value_label_calculated := value_label_calculated vp |}.

Definition set_measurement_mode_descriptions
  (ach_desc : string) (bch_desc : option string) (jig_mode : bool)
  (calculated_value_desc calculated_unit : string) (vp : state) : state :=
  {| ach_desc := ach_desc; bch_desc := bch_desc;
     calculated_value_desc := calculated_value_desc;
     calculated_unit := Some calculated_unit; jig_mode := jig_mode;
     value_label_ach :=
       if jig_mode then hide (value_label_ach vp)
       else setText (ach_desc ++ ": ---") (value_label_ach vp);
     value_label_bch :=
       if jig_mode then hide (value_label_bch vp)
       else if described bch_desc
            then show (setText (str bch_desc ++ ": ---") (value_label_bch vp))
            else hide (value_label_bch vp);
     value_label_calculated :=
       if jig_mode
       then show (setText (calculated_value_desc ++ ": --- " ++ calculated_unit)
                          (value_label_calculated vp))
       else hide (value_label_calculated vp) |}.

(** The text of the label of the derived value. *)
Definition calculated_text (rt : runtime) (desc calculated_unit : string)
  (calculated_value : value) : result string :=
  bad <- (if eq_str calculated_value "Overload" then Ok true
          else if is_none calculated_value then Ok true
          else
            n <- math_isnan calculated_value ;;
            if (n : bool) then Ok true else math_isinf calculated_value) ;;
  if (bad : bool) then Ok (desc ++ ": Overload")%string
  else
    formatted_value <-
      (if truthy calculated_unit
       then format_si_unit rt calculated_value calculated_unit
       else match calculated_value with
            | VFloat f => Ok (format_3f f)
            | _ => Raise ValueError
            end) ;;
    Ok (desc ++ ": " ++ formatted_value)%string.

(** The text of the label of a channel. *)
Definition channel_text (rt : runtime) (desc unit : string) (v : value)
  : result string :=
  bad <- (if eq_str v "Overload" then Ok true else math_isnan v) ;;
  if (bad : bool) then Ok (desc ++ ": Overload")%string
  else
    formatted_value <- format_si_unit rt v unit ;;
    Ok (desc ++ ": " ++ formatted_value)%string.

(** [update_values]: what was assigned before an exception stays
    assigned. *)
Definition update_values (rt : runtime)
  (ach_value bch_value calculated_value : value)
  (ach_unit bch_unit calculated_unit : string) (jig_mode : bool) (vp : state)
  : result unit * state :=
  let vp := set_jig_mode jig_mode vp in
  if jig_mode then
    match calculated_text rt (calculated_value_desc vp) calculated_unit
            calculated_value with
    | Raise e => (Raise e, vp)
    | Ok calculated_text =>
        (Ok tt,
         set_labels (value_label_ach vp) (value_label_bch vp)
           (setText calculated_text (value_label_calculated vp)) vp)
    end
  else
    match channel_text rt (ach_desc vp) ach_unit ach_value with
    | Raise e => (Raise e, vp)
    | Ok ach_text =>
        let vp := set_labels (setText ach_text (value_label_ach vp))
                    (value_label_bch vp) (value_label_calculated vp) vp in
        if described (bch_desc vp) then
          match channel_text rt (str (bch_desc vp)) bch_unit bch_value with
          | Raise e => (Raise e, vp)
          | Ok bch_text =>
              (Ok tt,
               set_labels (value_label_ach vp)
                 (show (setText bch_text (value_label_bch vp)))
                 (hide (value_label_calculated vp)) vp)
          end
        else
          (Ok tt,
           set_labels (value_label_ach vp) (hide (value_label_bch vp))
             (hide (value_label_calculated vp)) vp)
    end.

(** One call of a method of the page. *)
Inductive step (rt : runtime) : state -> state -> Prop :=
| StepDescriptions (ach_desc : string) (bch_desc : option string)
    (jig_mode : bool) (calculated_value_desc calculated_unit : string)
    (vp : state) :
    step rt vp
      (set_measurement_mode_descriptions ach_desc bch_desc jig_mode
         calculated_value_desc calculated_unit vp)
| StepValues (ach_value bch_value calculated_value : value)
    (ach_unit bch_unit calculated_unit : string) (jig_mode : bool)
    (vp : state) :
    step rt vp
      (snd (update_values rt ach_value bch_value calculated_value
              ach_unit bch_unit calculated_unit jig_mode vp)).

Inductive reaches (rt : runtime) : state -> state -> Prop :=
| ReachesHere (vp : state) : reaches rt vp vp
| ReachesNext (vp vp' vp'' : state) :
    reaches rt vp vp' -> step rt vp' vp'' -> reaches rt vp vp''.

End ValueDisplayPage.

Module OnValuePage.

(** One tick of the timer while the value page is the current widget:
    [DMMApp.update_from_shared_memory] up to the end of its first [if].  The
    units are the attributes [ach_unit], [bch_unit] and [calculated_unit] of
    the application. *)
Definition update_from_shared_memory (rt : runtime) (a : DMMApp)
  (ach_unit bch_unit calculated_unit : string) (vp : ValueDisplayPage.state)
  : result unit * (DMMApp * ValueDisplayPage.state) :=
  if (List.length (app_data_list a) <=? last_read_index a)%nat
  then (Ok tt, (a, vp))
  else
    let new_data_count :=
      (List.length (app_data_list a) - last_read_index a)%nat in
    let data_slice := skipn (last_read_index a) (app_data_list a) in
    let a' := set_page a (last_read_index a + new_data_count)%nat
                (graph_display_page a) in
    match collect (shared_calculated_value (jig_mode_name a))
                  (app_jig_mode a) (measurement_mode_bch a)
                  data_slice empty_batch with
    | Raise e => (Raise e, (a', vp))
    | Ok b =>
        if app_jig_mode a then
          if negb (is_nil (calculated_values b)) then
            match latest (calculated_values b) with
            | Raise e => (Raise e, (a', vp))
            | Ok latest_calculated =>
                let r := ValueDisplayPage.update_values rt VNone VNone
                           latest_calculated ach_unit bch_unit calculated_unit
                           (app_jig_mode a) vp in
                (fst r, (a', snd r))
            end
          else (Ok tt, (a', vp))
        else
          if negb (is_nil (ach_values b)) then
            match latest (ach_values b) with
            | Raise e => (Raise e, (a', vp))
            | Ok latest_ach =>
                match (if negb (is_nil (bch_values b))
                       then latest (bch_values b) else Ok VNone) with
                | Raise e => (Raise e, (a', vp))
                | Ok latest_bch =>
                    let r := ValueDisplayPage.update_values rt latest_ach
                               latest_bch VNone ach_unit bch_unit ""
                               (app_jig_mode a) vp in
                    (fst r, (a', snd r))
                end
            end
          else (Ok tt, (a', vp))
    end.

End OnValuePage.

(* ================================================================== *)
(** ** [DMMSetupPage] *)
(* ================================================================== *)

(** [l[i]] for an index that may be negative. *)
Definition item {A : Type} (l : list A) (i : Z) : result A :=
  let n := Z.of_nat (List.length l) in
  if (0 <=? i) && (i <? n) then index l (Z.to_nat i)
  else if (- n <=? i) && (i <? 0) then index l (Z.to_nat (i + n))
  else Raise IndexError.

(** [self.measurement_options]: key, description, prefix, unit. *)
Definition measurement_options : list (string * string * string * string) :=
  [ ("F1", "直流電圧測定 (DCV-Ach)", "DCV", "V");
    ("F2", "交流電圧測定 (ACV-Ach)", "ACV", "V");
    ("F3", "抵抗測定 (2WΩ-Ach)", "OHM", "Ω");
    ("F5", "直流電流測定 (DCI-Ach)", "DCI", "A");
    ("F6", "交流電流測定 (ACI-Ach)", "ACI", "A");
    ("F7", "交流電圧測定 (AC+DC結合)", "ACVDCV", "V");
    ("F8", "交流電流測定 (AC+DC結合)", "ACIDCI", "A");
    ("F12", "Bch 直流電圧測定 (DCV-Bch)", "BDV", "V");
    ("F13", "ダイオード測定 (DIODE-Ach)", "DIODE", "V");
    ("F20", "ローパワー2WΩ(LP-2W-Ach)", "LP2W", "Ω");
    ("F22", "導通テスト (CONT-Ach)", "CONT", "Ω");
    ("F35", "Bch 直流電流測定 (DCI-Bch)", "BDI", "A");
    ("F36", "Bch 交流電流測定 (ACI-Bch)", "BAI", "A");
    ("F37", "Bch 交流電流測定 (AC+DC結合)", "BAIDCI", "A");
    ("F40", "温度測定 (TEMP)", "TEMP", "℃");
    ("F50", "周波数測定 (FREQ-Ach)", "FREQ", "Hz");
    ("DE0", "OFF", "", "") ]%string.

(** [self.range_dict], in the order of its keys (which are distinct): for a
    function key, the range keys and their descriptions. *)
Definition range_dict : list (string * list (string * string)) :=
  [ ("F1",
     [("R0", "AUTO"); ("R3", "200 mV"); ("R4", "2 V");
      ("R5", "20 V"); ("R6", "200 V"); ("R7", "1000 V")]);
    ("F2",
     [("R0", "AUTO"); ("R3", "200 mV"); ("R4", "2 V");
      ("R5", "20 V"); ("R6", "200 V"); ("R7", "700 V")]);
    ("F3",
     [("R0", "AUTO"); ("R3", "200 Ω"); ("R4", "2 kΩ");
      ("R5", "20 kΩ"); ("R6", "200 kΩ"); ("R7", "2 MΩ");
      ("R8", "20 MΩ"); ("R9", "200 MΩ")]);
    ("F5",
     [("R0", "AUTO"); ("R1", "2000 nA"); ("R2", "20 μA");
      ("R3", "200 μA"); ("R4", "2 mA"); ("R5", "20 mA");
      ("R6", "200 mA"); ("R7", "2000 mA")]);
    ("F6",
     [("R0", "AUTO"); ("R3", "200 μA"); ("R4", "2 mA");
      ("R5", "20 mA"); ("R6", "200 mA"); ("R7", "2000 mA")]);
    ("F7",
     [("R0", "AUTO"); ("R3", "200 mV"); ("R4", "2 V");
      ("R5", "20 V"); ("R6", "200 V"); ("R7", "700 V")]);
    ("F8",
     [("R0", "AUTO"); ("R3", "200 μA"); ("R4", "2 mA");
      ("R5", "20 mA"); ("R6", "200 mA"); ("R7", "2000 mA")]);
    ("F12",
     [("R0", "AUTO"); ("R3", "200 mV"); ("R4", "2 V");
      ("R5", "20 V"); ("R6", "200 V")]);
    ("F13",
     [("R0", "AUTO"); ("R3", "200 Ω"); ("R4", "2 kΩ");
      ("R5", "20 kΩ"); ("R6", "200 kΩ"); ("R7", "2 MΩ");
      ("R8", "20 MΩ"); ("R9", "200 MΩ")]);
    ("F20",
     [("R0", "AUTO"); ("R3", "200 Ω"); ("R4", "2 kΩ");
      ("R5", "20 kΩ"); ("R6", "200 kΩ"); ("R7", "2 MΩ");
      ("R8", "20 MΩ")]);
    ("F22",
     [("R0", "AUTO"); ("R3", "200 Ω"); ("R4", "2 kΩ");
      ("R5", "20 kΩ"); ("R6", "200 kΩ"); ("R7", "2 MΩ");
      ("R8", "20 MΩ"); ("R9", "200 MΩ")]);
    ("F35",
     [("R8", "10 A")]);
    ("F36",
     [("R8", "10 A")]);
    ("F37",
     [("R8", "10 A")]) ]%string.

(** [DMMApp.jig_modes], which the page receives when it is constructed:
    name, DSP1 key, DSP2 key. *)
Definition jig_modes : list (string * string * string) :=
  [ ("四端子抵抗測定A_V", "F1", "F35");
    ("四端子抵抗測定B_V", "F12", "F5");
    ("hFE測定", "F5", "F35");
    ("電力計測(小電流)", "F5", "F12");
    ("電力計測(大電流)", "F1", "F35") ]%string.

(** The state of the widgets the methods read.  A button group is its
    [checkedId()] ([-1] when no button is checked); a range group is the
    number of its buttons and its [checkedId()]; the combo box is its
    [currentText()]; a radio button is its [isChecked()]. *)
Record DMMSetupPage : Type := {
  setup_jig_modes : list (string * string * string);
  mode_group : Z;
  jig_selection_combo : string;
  dsp1_option_group : Z;
  dsp2_option_group : Z;
  dsp1_range_group : nat * Z;
  dsp2_range_group : nat * Z;
  auto_zero_group : Z;
  trigger_radio1 : bool;
  trigger_radio3 : bool;
  sampling_radio1 : bool;
  sampling_radio2 : bool;
  sampling_radio3 : bool;
  sampling_radio4 : bool
}.

(** The loop over [self.jig_modes] that stops at the first entry named
    [jig_mode_name]: its DSP1 and DSP2 keys. *)
Fixpoint find_jig_mode (modes : list (string * string * string))
  (jig_mode_name : string) : option (string * string) :=
  match modes with
  | [] => None
  | (name, dsp1_key, dsp2_key) :: rest =>
      if String.eqb name jig_mode_name then Some (dsp1_key, dsp2_key)
      else find_jig_mode rest jig_mode_name
  end.

(** [d.get(key)] on [range_dict] *)
Fixpoint lookup_ranges (d : list (string * list (string * string)))
  (key : string) : option (list (string * string)) :=
  match d with
  | [] => None
  | (k, ranges) :: rest =>
      if String.eqb k key then Some ranges else lookup_ranges rest key
  end.

(** [key and key in self.range_dict] *)
Definition has_ranges (key : string) : bool :=
  truthy key
  && match lookup_ranges range_dict key with
     | Some _ => true
     | None => false
     end.

(** The range command of display [dsp] for the function [key] and the
    checked range button [range_idx], if that is an index of the ranges of
    [key]. *)
Definition range_command (dsp key : string) (range_idx : Z)
  : result (list string) :=
  let ranges := match lookup_ranges range_dict key with
                | Some ranges => ranges
                | None => []
                end in
  if (0 <=? range_idx) && (range_idx <? Z.of_nat (List.length ranges)) then
    r <- item ranges range_idx ;;
    Ok [(dsp ++ "," ++ fst r)%string]
  else Ok [].

(** The first branch of [get_setup_commands] ([mode_id == 0]): the commands
    so far, or the error dialog after which the method returns [[]]. *)
Definition normal_mode_commands (s : DMMSetupPage)
  : result (list string + effect) :=
  let idx := dsp1_option_group s in
  if idx =? -1 then
    Ok (inr (MsgCritical "エラー" "DSP1の測定項目が選択されていません。"))
  else
    o <- item measurement_options idx ;;
    let '(dsp1_key, _, _, _) := o in
    let commands := [("DSP1," ++ dsp1_key)%string] in
    r1 <- (if negb (fst (dsp1_range_group s) =? 0)%nat
           then range_command "DSP1" dsp1_key (snd (dsp1_range_group s))
           else Ok []) ;;
    let commands := commands ++ r1 in
    let idx := dsp2_option_group s in
    if idx =? -1 then Ok (inl (commands ++ ["DE0"%string]))
    else
      o <- item measurement_options idx ;;
      let '(dsp2_key, _, _, _) := o in
      if String.eqb dsp2_key "DE0" then Ok (inl (commands ++ ["DE0"%string]))
      else
        let commands := commands ++ [("DSP2," ++ dsp2_key)%string] in
        r2 <- (if negb (fst (dsp2_range_group s) =? 0)%nat
               then range_command "DSP2" dsp2_key (snd (dsp2_range_group s))
               else Ok []) ;;
        Ok (inl (commands ++ r2)).

(** The second branch (any other [mode_id]). *)
Definition jig_mode_commands (s : DMMSetupPage)
  : result (list string + effect) :=
  let jig_mode_name := jig_selection_combo s in
  let keys := find_jig_mode (setup_jig_modes s) jig_mode_name in
  match keys with
  | Some (dsp1_key, dsp2_key) =>
      if has_ranges dsp1_key then
        r1 <- range_command "DSP1" dsp1_key (snd (dsp1_range_group s)) ;;
        let commands := ("DSP1," ++ dsp1_key)%string :: r1 in
        if has_ranges dsp2_key then
          r2 <- range_command "DSP2" dsp2_key (snd (dsp2_range_group s)) ;;
          Ok (inl (commands ++ ("DSP2," ++ dsp2_key)%string :: r2))
        else
          Ok (inr (MsgCritical "エラー"
                     ("ジグ測定モード '" ++ jig_mode_name
                        ++ "' のDSP2設定に誤りがあります。")))
      else
        Ok (inr (MsgCritical "エラー"
                   ("ジグ測定モード '" ++ jig_mode_name
                      ++ "' のDSP1設定に誤りがあります。")))
  | None =>
      Ok (inr (MsgCritical "エラー"
                 ("ジグ測定モード '" ++ jig_mode_name
                    ++ "' のDSP1設定に誤りがあります。")))
  end.

(** The commands every mode ends with: auto zero, trigger, sampling. *)
Definition common_commands (s : DMMSetupPage) : list string :=
  (if auto_zero_group s =? 0 then ["AZ0"%string]
   else if auto_zero_group s =? 1 then ["AZ1"%string]
   else if auto_zero_group s =? 2 then ["AZ2"%string]
   else [])
  ++ (if trigger_radio1 s then ["TRS0"%string]
      else if trigger_radio3 s then ["TRS3"%string]
      else [])
  ++ (if sampling_radio1 s then ["PR1"%string]
      else if sampling_radio2 s then ["PR2"%string]
      else if sampling_radio3 s then ["PR3"%string]
      else if sampling_radio4 s then ["PR4"%string]
      else []).

(** [get_setup_commands]: the commands it returns and the dialogs it
    shows. *)
Definition get_setup_commands (s : DMMSetupPage)
  : result (list string * list effect) :=
  r <- (if mode_group s =? 0 then normal_mode_commands s
        else jig_mode_commands s) ;;
  match r with
  | inl commands => Ok (commands ++ common_commands s, [])
  | inr dialog => Ok ([], [dialog])
  end.

(** [get_trigger_mode]: [None] when neither radio button is checked. *)
Definition get_trigger_mode (s : DMMSetupPage) : option string :=
  if trigger_radio1 s then Some "TRS0"%string
  else if trigger_radio3 s then Some "TRS3"%string
  else None.

(** [get_measurement_option_index] *)
Fixpoint option_index_from (idx : Z)
  (options : list (string * string * string * string)) (key : string) : Z :=
  match options with
  | [] => -1
  | (k, _, _, _) :: rest =>
      if String.eqb k key then idx else option_index_from (idx + 1) rest key
  end.

Definition get_measurement_option_index (key : string) : Z :=
  option_index_from 0 measurement_options key.

(** What [get_measurement_modes] returns for one display: description,
    prefix and unit, each of which may be [None] for the second display. *)
Definition display_mode : Type :=
  (option string * option string * option string)%type.

Definition described_by (o : string * string * string * string)
  : display_mode :=
  let '(_, desc, prefix, unit) := o in (Some desc, Some prefix, Some unit).

Definition no_text : display_mode :=
  (Some ""%string, Some ""%string, Some ""%string).

Definition no_display : display_mode := (None, None, None).

(** [get_measurement_modes]: the two displays, and the dialogs shown. *)
Definition get_measurement_modes (s : DMMSetupPage)
  : result (display_mode * display_mode * list effect) :=
  if mode_group s =? 0 then
    dsp1 <- (if dsp1_option_group s =? -1 then Ok no_text
             else o <- item measurement_options (dsp1_option_group s) ;;
                  Ok (described_by o)) ;;
    dsp2 <- (if dsp2_option_group s =? -1 then Ok no_display
             else o <- item measurement_options (dsp2_option_group s) ;;
                  if String.eqb (fst (fst (fst o))) "DE0" then Ok no_display
                  else Ok (described_by o)) ;;
    Ok (dsp1, dsp2, [])
  else
    let jig_mode_name := jig_selection_combo s in
    match find_jig_mode (setup_jig_modes s) jig_mode_name with
    | None => Ok (no_text, no_text, [])
    | Some (dsp1_key, dsp2_key) =>
        let dsp1_idx := get_measurement_option_index dsp1_key in
        let dsp2_idx := get_measurement_option_index dsp2_key in
        r1 <- (if negb (dsp1_idx =? -1) then
                 o <- item measurement_options dsp1_idx ;;
                 Ok (described_by o, [])
               else
                 Ok (no_text,
                     [MsgCritical "エラー"
                        ("ジグ測定モード '" ++ jig_mode_name
                           ++ "' のDSP1キーが見つかりません。")])) ;;
        r2 <- (if negb (dsp2_idx =? -1) then
                 o <- item measurement_options dsp2_idx ;;
                 Ok (described_by o, [])
               else
                 Ok (no_text,
                     [MsgCritical "エラー"
                        ("ジグ測定モード '" ++ jig_mode_name
                           ++ "' のDSP2キーが見つかりません。")])) ;;
        Ok (fst r1, fst r2, snd r1 ++ snd r2)
    end.

(* ================================================================== *)
(** ** [DMMApp]: from the setup page to a session *)
(* ================================================================== *)

Module MainWindow.

(** The attributes of the application that [go_to_mode_selection] assigns,
    the two pages, the command queue and the dialogs shown so far.  An
    attribute that is [None], or not assigned yet, is [None] here. *)
Record state : Type := {
  trigger_mode : option string;
  measurement_mode_ach_desc : option string;
  measurement_mode_ach : option string;
  ach_unit : option string;
  measurement_mode_bch_desc : option string;
  measurement_mode_bch : option string;
  bch_unit : option string;
  jig_mode : bool;
  jig_mode_name : option string;
  calculated_value_desc : string;
  calculated_unit : string;
  value_display_page : ValueDisplayPage.state;
  graph_display_page : page;
  command_queue : list string;
  dialogs : list effect
}.

(** The description and the unit of the derived value of a jig mode. *)
Definition calculated_labels (jig_mode_name : string) : string * string :=
  if String.eqb jig_mode_name "四端子抵抗測定A_V"
     || String.eqb jig_mode_name "四端子抵抗測定B_V" then ("抵抗値", "Ω")%string
  else if String.eqb jig_mode_name "hFE測定" then ("hFE", "")%string
  else if String.eqb jig_mode_name "電力計測(小電流)"
          || String.eqb jig_mode_name "電力計測(大電流)" then ("電力", "W")%string
  else (""%string, ""%string).

(** [f"{d}"] and [bool(d)] of an attribute that may be [None]; the graph
    page keeps a description that is [None] as the empty string (it tests it
    for truth before any use). *)
Definition str (d : option string) : string :=
  match d with
  | Some s => s
  | None => "None"
  end.

Definition or_empty (d : option string) : string :=
  match d with
  | Some s => s
  | None => ""
  end.

(** [go_to_mode_selection]: nothing but the dialog when the setup page
    returns no command; otherwise the attributes are assigned, both pages are
    told the descriptions, and the session is started. *)
Definition go_to_mode_selection (s : DMMSetupPage) (w : state) : result state :=
  r <- get_setup_commands s ;;
  let '(commands, shown) := r in
  if is_nil commands then
    Ok {| trigger_mode := trigger_mode w;
          measurement_mode_ach_desc := measurement_mode_ach_desc w;
          measurement_mode_ach := measurement_mode_ach w;
          ach_unit := ach_unit w;
          measurement_mode_bch_desc := measurement_mode_bch_desc w;
          measurement_mode_bch := measurement_mode_bch w;
          bch_unit := bch_unit w;
          jig_mode := jig_mode w; jig_mode_name := jig_mode_name w;
          calculated_value_desc := calculated_value_desc w;
          calculated_unit := calculated_unit w;
          value_display_page := value_display_page w;
          graph_display_page := graph_display_page w;
          command_queue := command_queue w;
          dialogs := dialogs w ++ shown |}
  else
    m <- get_measurement_modes s ;;
    let '(dsp1, dsp2, shown') := m in
    let '(ach_desc, ach, a_unit) := dsp1 in
    let '(bch_desc, bch, b_unit) := dsp2 in
    let jig := mode_group s =? 1 in
    let name := if jig then Some (jig_selection_combo s) else None in
    let labels := if jig then calculated_labels (jig_selection_combo s)
                  else (""%string, ""%string) in
    Ok {| trigger_mode := get_trigger_mode s;
          measurement_mode_ach_desc := ach_desc;
          measurement_mode_ach := ach;
          ach_unit := a_unit;
          measurement_mode_bch_desc := bch_desc;
          measurement_mode_bch := bch;
          bch_unit := b_unit;
          jig_mode := jig; jig_mode_name := name;
          calculated_value_desc := fst labels;
          calculated_unit := snd labels;
          value_display_page :=
            ValueDisplayPage.set_measurement_mode_descriptions
              (str ach_desc) bch_desc jig (fst labels) (snd labels)
              (value_display_page w);
          graph_display_page :=
            set_measurement_mode_descriptions
              (str ach_desc) (or_empty bch_desc) jig (fst labels) (snd labels)
              (graph_display_page w);
          command_queue := start_measurement commands (command_queue w);
          dialogs := dialogs w ++ shown ++ shown' |}.

(** [send_trigger] *)
Definition send_trigger (w : state) : state :=
  match trigger_mode w with
  | Some mode =>
      if String.eqb mode "TRS3" then
        {| trigger_mode := trigger_mode w;
           measurement_mode_ach_desc := measurement_mode_ach_desc w;
           measurement_mode_ach := measurement_mode_ach w;
           ach_unit := ach_unit w;
           measurement_mode_bch_desc := measurement_mode_bch_desc w;
           measurement_mode_bch := measurement_mode_bch w;
           bch_unit := bch_unit w;
           jig_mode := jig_mode w; jig_mode_name := jig_mode_name w;
           calculated_value_desc := calculated_value_desc w;
           calculated_unit := calculated_unit w;
           value_display_page := value_display_page w;
           graph_display_page := graph_display_page w;
           command_queue := command_queue w ++ ["TRIGGER"%string];
           dialogs := dialogs w |}
      else w
  | None => w
  end.

End MainWindow.

(** The application as the timer tick reads it, with the log [data_list]
    and the cursor [last_read_index]: a mode name that is [None] equals no
    name, a channel-B prefix counts by its truth. *)
Definition ticking (w : MainWindow.state) (data_list : list sample)
  (last_read_index : nat) : DMMApp :=
  {| app_data_list := data_list; last_read_index := last_read_index;
     app_jig_mode := MainWindow.jig_mode w;
     jig_mode_name := MainWindow.or_empty (MainWindow.jig_mode_name w);
     measurement_mode_bch :=
       ValueDisplayPage.described (MainWindow.measurement_mode_bch w);
     graph_display_page := MainWindow.graph_display_page w |}.

(* ================================================================== *)
(** ** Worked inputs *)
(* ================================================================== *)

(** The interpreter's answers on the strings and numbers of the worked
    inputs below: [float] on a few literals, the C library's [log10] on a few
    doubles (elsewhere the fields are not consulted by those inputs). *)
Definition example_rt : runtime :=
  {| float_of_str := fun s =>
       if String.eqb s "10" then Some 10%float
       else if String.eqb s "1" then Some 1%float
       else if String.eqb s "-0.0" then Some (-0)%float
       else if String.eqb s "+1.5E+00" then Some 1.5%float
       else if String.eqb s "2.0" then Some 2%float
       else None;
     libm_log10 := fun x =>
       if (x =? 1500)%float then 0x1.968a288b60b8p+1%float
       else if (x =? 1e12)%float then 12%float
       else 0%float |}.

(** The settings of a page in jig mode. *)
Definition example_cfg : config :=
  {| ach_desc := "DCV"; bch_desc := "DCI"; ach_unit := "V"; bch_unit := "A";
     calculated_unit := "Ω"; calculated_value_desc := "R"; jig_mode := true |}.

(** An empty page with the span [span] typed in, recording or not, holding
    the captured [rows]. *)
Definition example_page (span : string) (rec : bool)
  (rows : list (list value)) : page :=
  {| cfg := example_cfg; time_input := span; ach_data := []; bch_data := [];
     calculated_data := []; time_data := [];
     value_label_ach := ""; value_label_bch := ""; value_label_calculated := "";
     recording := rec; recording_button := if rec then "記録停止" else "記録開始";
     recorded_data := rows; effects := [] |}.

(** The application in the ratio mode, about to read [samples] for the
    first time. *)
Definition example_app (span : string) (rec : bool) (samples : list sample)
  : DMMApp :=
  {| app_data_list := samples; last_read_index := 0; app_jig_mode := true;
     jig_mode_name := "四端子抵抗測定A_V"; measurement_mode_bch := true;
     graph_display_page := example_page span rec [] |}.

(** A sampler with [queue] pending, on an instrument that will give
    [answers]. *)
Definition example_sampler (queue : list string) (answers : list read_outcome)
  : sampler :=
  {| dmm := {| pending := answers; trace := [] |};
     command_queue := queue; data_list := []; stop_event := false;
     is_ready_event := false; ticks := 1; printed := [] |}.

(** A page as [GraphDisplayPage.__init__] leaves it. *)
Definition fresh_page : page :=
  {| cfg := {| ach_desc := ""; bch_desc := ""; ach_unit := ""; bch_unit := "";
               calculated_unit := ""; calculated_value_desc := "";
               jig_mode := false |};
     time_input := "10"; ach_data := []; bch_data := [];
     calculated_data := []; time_data := [];
     value_label_ach := "---"; value_label_bch := "---";
     value_label_calculated := "---";
     recording := false; recording_button := "記録開始";
     recorded_data := []; effects := [] |}.

(** The setup page with the mode [mode], the jig mode [name] in the combo
    box, the functions [dsp1] and [dsp2] checked, the first range of the
    first function checked, the bus trigger or the immediate one, and the
    other groups as the constructor leaves them. *)
Definition example_setup (mode : Z) (name : string) (dsp1 dsp2 : Z)
  (bus : bool) : DMMSetupPage :=
  {| setup_jig_modes := jig_modes; mode_group := mode;
     jig_selection_combo := name;
     dsp1_option_group := dsp1; dsp2_option_group := dsp2;
     dsp1_range_group := (1%nat, 0); dsp2_range_group := (0%nat, -1);
     auto_zero_group := 0;
     trigger_radio1 := negb bus; trigger_radio3 := bus;
     sampling_radio1 := true; sampling_radio2 := false;
     sampling_radio3 := false; sampling_radio4 := false |}.

(** The application before the first session. *)
Definition fresh_window : MainWindow.state :=
  {| MainWindow.trigger_mode := None;
     MainWindow.measurement_mode_ach_desc := None;
     MainWindow.measurement_mode_ach := None;
     MainWindow.ach_unit := Some ""%string;
     MainWindow.measurement_mode_bch_desc := None;
     MainWindow.measurement_mode_bch := None;
     MainWindow.bch_unit := Some ""%string;
     MainWindow.jig_mode := false;
     MainWindow.jig_mode_name := None;
     MainWindow.calculated_value_desc := "";
     MainWindow.calculated_unit := "";
     MainWindow.value_display_page := ValueDisplayPage.init;
     MainWindow.graph_display_page := fresh_page;
     MainWindow.command_queue := [];
     MainWindow.dialogs := [] |}.

(* ================================================================== *)
(** ** The rules of the specification *)
(* ================================================================== *)

(** *** The formatter *)

(** The formatter's rule in the words of the specification, for a value whose
    decimal logarithm has floor [e]: round down to a multiple of three, clamp
    to [[-9, 9]], scale, and render with the prefix of the table. *)
Definition spec_exponent (e : Z) : Z := Z.max (-9) (Z.min 9 (3 * (e / 3))).

Definition spec_prefix (x : Z) : string :=
  match x with
  | -9 => "n"
  | -6 => "μ"
  | -3 => "m"
  | 0 => ""
  | 3 => "k"
  | 6 => "M"
  | 9 => "G"
  | _ => "?"
  end.

Definition spec_format (e : Z) (v : PrimFloat.float) (unit : string) : string :=
  (format_6g (v / pow10 (spec_exponent e))%float ++ " "
     ++ spec_prefix (spec_exponent e) ++ unit)%string.

(** *** The derived-metric table *)

(** The families of the specification's table, and the family of each jig
    mode name the code knows. *)
Inductive family : Type :=
| Ratio
| Gain
| Product
| Unrecognized.

Definition family_of (jig_mode_name : string) : family :=
  if String.eqb jig_mode_name "四端子抵抗測定A_V" then Ratio
  else if String.eqb jig_mode_name "四端子抵抗測定B_V" then Ratio
  else if String.eqb jig_mode_name "hFE測定" then Gain
  else if String.eqb jig_mode_name "電力計測(小電流)" then Product
  else if String.eqb jig_mode_name "電力計測(大電流)" then Product
  else Unrecognized.

(** The table in its own words: "non-finite" is not-a-number or infinite,
    and the Overload sentinel (like an absent channel) counts as
    non-finite. *)
Definition non_finite (v : value) : bool :=
  match v with
  | VFloat f => is_nan f || is_infinity f
  | _ => true
  end.

(** The number a channel carries (not consulted when the channel is
    non-finite). *)
Definition number_of (v : value) : PrimFloat.float :=
  match v with
  | VFloat f => f
  | _ => nan
  end.

Definition spec_reduce (fam : family) (channelA channelB : value) : value :=
  let a := number_of channelA in
  let b := number_of channelB in
  match fam with
  | Ratio =>
      if eq_zero channelA || non_finite channelA || non_finite channelB
      then Invalid else VFloat (PrimFloat.abs (a / b))
  | Gain =>
      if eq_zero channelA || non_finite channelA || non_finite channelB
      then Invalid else VFloat (b / a)
  | Product =>
      if non_finite channelA || non_finite channelB
      then Invalid else VFloat (a * b)
  | Unrecognized => Invalid
  end.

(** What the code computes on two numbers: the table with "non-finite"
    narrowed to not-a-number, and a zero on channel B added to the ratio's
    Invalid cases. *)
Definition numeric_reduce (fam : family) (a b : PrimFloat.float) : value :=
  match fam with
  | Ratio =>
      if (a =? 0)%float || is_nan a || is_nan b || (b =? 0)%float
      then Invalid else VFloat (PrimFloat.abs (a / b))
  | Gain =>
      if (a =? 0)%float || is_nan a || is_nan b
      then Invalid else VFloat (b / a)
  | Product =>
      if is_nan a || is_nan b then Invalid else VFloat (a * b)
  | Unrecognized => Invalid
  end.

(** *** The parsing algorithm *)

(** The zero whose sign is set. *)
Definition negative_zero (f : PrimFloat.float) : bool :=
  (f =? 0)%float && get_sign f.

(** The reading of a part, from its white-space separated tokens. *)
Definition spec_reading (rt : runtime) (part : string) : option value :=
  match split_ws part with
  | prefix :: value_str :: _ =>
      if endswith prefix "_" then
        match float_of_str rt value_str with
        | Some f => Some (VFloat (if negative_zero f then 0%float else f))
        | None => None
        end
      else if endswith prefix "O" then Some Overload
      else None
  | _ => None
  end.

(** The readings of the parts, in order. *)
Fixpoint spec_readings (rt : runtime) (parts : list string) : list value :=
  match parts with
  | [] => []
  | part :: rest =>
      match spec_reading rt part with
      | Some v => v :: spec_readings rt rest
      | None => spec_readings rt rest
      end
  end.

(** Channel A is the first reading, channel B the second; [None] stands for
    an absent channel. *)
Definition spec_parse (rt : runtime) (line : string) : value * value :=
  let readings := spec_readings rt (split_on "," line) in
  (nth 0 readings VNone, nth 1 readings VNone).

(** The two assignments of the loop, on the list of readings. *)
Fixpoint assign (readings : list value) (ach_value bch_value : value)
  : value * value :=
  match readings with
  | [] => (ach_value, bch_value)
  | v :: rest =>
      if is_none ach_value then assign rest v bch_value
      else if is_none bch_value then assign rest ach_value v
      else assign rest ach_value bch_value
  end.

(** Strings of white space, and the parts of a line with white space added
    to the last one. *)
Fixpoint all_space (s : string) : bool :=
  match s with
  | EmptyString => true
  | String c s' => is_space c && all_space s'
  end.

(** The last part with [w] appended. *)
Fixpoint app_last (parts : list string) (w : string) : list string :=
  match parts with
  | [] => []
  | [p] => [(p ++ w)%string]
  | p :: ps => p :: app_last ps w
  end.

(** *** The completion handshake *)

(** A read that keeps the completion handshake waiting: an error of the
    transport, or a line that is not the completion token. *)
Definition retried (o : read_outcome) : bool :=
  match o with
  | RLine s => negb (String.eqb (strip s) "1")
  | RFail VisaIOError => true
  | RFail _ => false
  end.

(** The transactions of one completion handshake that took [reads] reads. *)
Definition handshake (command : string) (reads : nat) : list event :=
  [EWrite "*CLS"; EClear; EWrite command; EWrite "*OPC?"] ++ repeat ERead reads.

(** *** The window and the recording *)

(** The test [update_graph] applies to a derived value before it accepts
    it. *)
Definition not_infinite (v : value) : bool :=
  match v with
  | VFloat f => negb (is_infinity f)
  | _ => true
  end.

(** The window of the specification, from scratch: of the entries whose
    value is not Invalid, those whose timestamp lies in
    [[latest - span, latest]], where [latest] is the timestamp of the last of
    them; all of them when the span is not positive. *)
Definition spec_window (span : PrimFloat.float)
  (entries : list (PrimFloat.float * value)) : list (PrimFloat.float * value) :=
  let accepted := filter (fun e => not_infinite (snd e)) entries in
  if (0 <? span)%float then
    match List.last (map (fun e => Some (fst e)) accepted) None with
    | Some latest =>
        filter (fun e => ((latest - span <=? fst e) && (fst e <=? latest))%float)
               accepted
    | None => []
    end
  else accepted.

(** The rows the specification expects of a recording: one per accepted
    entry, in order. *)
Definition spec_rows (entries : list (PrimFloat.float * value))
  : list (list value) :=
  map (fun e => [VFloat (fst e); snd e])
      (filter (fun e => not_infinite (snd e)) entries).

(** What follows the two assignments of the window leaves the buffers
    alone, whether it raises or not. *)
Definition frames {A : Type} (m : gui A) : Prop :=
  forall pg, time_data (snd (m pg)) = time_data pg
             /\ calculated_data (snd (m pg)) = calculated_data pg.

(** The messages of [save_recorded_data]. *)
Definition nothing_to_save : effect :=
  MsgInfo "情報" "記録されたデータがありません。".

Definition saved_to (file_path : string) : effect :=
  MsgInfo "成功" ("データを" ++ file_path ++ "に保存しました。").

Definition save_failed : effect :=
  MsgCritical "エラー" "データの保存に失敗しました。".

(** *** What the sampler puts in the log *)

(** A reading the parser can produce: a number that is not the negative
    zero, or the Overload sentinel. *)
Definition parsed_reading (v : value) : bool :=
  match v with
  | VFloat f => negb (negative_zero f)
  | VStr s => String.eqb s "Overload"
  | VNone => false
  end.

(** A sample the sampler can append: channel A is a reading, channel B a
    reading or [None]. *)
Definition parsed_sample (x : sample) : bool :=
  let '(_, ach_value, bch_value) := x in
  parsed_reading ach_value && (is_none bch_value || parsed_reading bch_value).

(** A command of the queue that is none of the three the sampler knows. *)
Definition ignored (command : string) : bool :=
  negb (String.eqb command "STOP") && negb (startswith command "SEND ")
  && negb (String.eqb command "TRIGGER").

(** The answers of the instrument to one completion handshake: reads that
    are retried, then a line that is the completion token. *)
Definition completes (answer : list read_outcome * string) : bool :=
  forallb retried (fst answer) && String.eqb (strip (snd answer)) "1".

Definition answer_reads (answer : list read_outcome * string)
  : list read_outcome :=
  fst answer ++ [RLine (snd answer)].

(** The transactions of the handshakes of [commands], answered by
    [answers] in turn. *)
Fixpoint handshakes (commands : list string)
  (answers : list (list read_outcome * string)) : list event :=
  match commands, answers with
  | command :: commands', answer :: answers' =>
      handshake command (S (List.length (fst answer)))
        ++ handshakes commands' answers'
  | _, _ => []
  end.

(** A sample with a number on both channels. *)
Definition numeric_sample (x : sample) : bool :=
  match x with
  | (_, VFloat _, VFloat _) => true
  | _ => false
  end.

(** *** Invariants of the graph page *)

(** A method of the page that leaves [f] of the page as it was, whether it
    raises or not. *)
Definition preserves {X A : Type} (f : page -> X) (m : gui A) : Prop :=
  forall pg, f (snd (m pg)) = f pg.

(** Every captured row has as many cells as the header row the export
    writes above it. *)
Definition rectangular (pg : page) : Prop :=
  Forall (fun row => List.length row = List.length (header (cfg pg)))
         (recorded_data pg).

(** What the export depends on: the configuration, the flag, the rows. *)
Definition capture (pg : page) : config * bool * list (list value) :=
  (cfg pg, recording pg, recorded_data pg).

(** From [pg] to [pg'] the configuration and the flag are the same and
    rows of [w] cells were appended to the capture. *)
Definition grows (w : nat) (pg pg' : page) : Prop :=
  cfg pg' = cfg pg
  /\ recording pg' = recording pg
  /\ exists rows, recorded_data pg' = recorded_data pg ++ rows
                  /\ Forall (fun row => List.length row = w) rows.

(** The number of cells of the rows a call of [update_graph] appends. *)
Definition row_width (c : config) (calculated_values : list value) : nat :=
  if jig_mode c && negb (is_nil calculated_values) then 2
  else if truthy (bch_desc c) then 3 else 2.

(** *** The C library *)

(** A C library whose [log10] is finite on the finite positive doubles. *)
Definition finite_log10 (rt : runtime) : Prop :=
  forall x, is_nan x = false -> is_infinity x = false ->
            (0 <? x)%float = true ->
            is_nan (libm_log10 rt x) || is_infinity (libm_log10 rt x) = false.

(** *** What the pages display *)

(** The values whose label reads "Overload": the sentinel, [None], a
    not-a-number and the infinities (Invalid among them). *)
Definition reads_overload (v : value) : bool :=
  match v with
  | VFloat f => is_nan f || is_infinity f
  | VStr s => String.eqb s "Overload"
  | VNone => true
  end.

Definition is_float (v : value) : bool :=
  match v with
  | VFloat _ => true
  | _ => false
  end.

(** *** The setup page *)

(** The commands of a mode: the first selects the function of display 1,
    and every one of them starts with a ["D"]. *)
Definition mode_commands_shape (commands : list string) : Prop :=
  (exists key rest, commands = ("DSP1," ++ key)%string :: rest)
  /\ Forall (fun c => exists t, c = String "D" t) commands.

(** *** Replaying the log *)

(** The derived value the replay computes for a sample of two numbers. *)
Definition derived (name : string) (x : sample) : value :=
  match x with
  | (_, VFloat a, VFloat b) => numeric_reduce (family_of name) a b
  | _ => Invalid
  end.

(** A sample the replay plots: two numbers, channel B not zero, and a
    derived value that is not infinite. *)
Definition plottable (name : string) (x : sample) : bool :=
  match x with
  | (_, VFloat a, VFloat b) =>
      negb (b =? 0)%float
      && not_infinite (numeric_reduce (family_of name) a b)
  | _ => false
  end.

(** The queue without its STOP requests, and what the instrument and the
    console see of the sampler. *)
Definition without_stop (queue : list string) : list string :=
  filter (fun command => negb (String.eqb command "STOP")) queue.

Definition outside (st : sampler) : device * list exn := (dmm st, printed st).

(** What a dispatch leaves alone, and how it extends the trace. *)
Definition same_but_device (st st' : sampler) : Prop :=
  data_list st' = data_list st
  /\ ticks st' = ticks st
  /\ is_ready_event st' = is_ready_event st
  /\ exists tr, trace (dmm st') = trace (dmm st) ++ tr
                /\ Forall (fun ev => ev <> EClose) tr.

(* ================================================================== *)
(** ** Properties of [format_si_unit] *)
(* ================================================================== *)

Lemma spec_exponent_cases (e : Z) :
  let x := spec_exponent e in
  x = -9 \/ x = -6 \/ x = -3 \/ x = 0 \/ x = 3 \/ x = 6 \/ x = 9.
Proof.
  unfold spec_exponent; cbv zeta.
  assert (H : e / 3 <= -3 \/ e / 3 = -2 \/ e / 3 = -1 \/ e / 3 = 0
              \/ e / 3 = 1 \/ e / 3 = 2 \/ 3 <= e / 3) by lia.
  lia.
Qed.

Lemma round_down_to_three (e : Z) : e - e mod 3 = 3 * (e / 3).
Proof. pose proof (Z.div_mod e 3 ltac:(lia)); lia. Qed.

Lemma prefix_lookup (e : Z) :
  dict_get si_prefixes (spec_exponent e) = Ok (spec_prefix (spec_exponent e)).
Proof.
  destruct (spec_exponent_cases e) as [H|[H|[H|[H|[H|[H|H]]]]]];
    rewrite H; reflexivity.
Qed.

(** The sentinel, [None] and not-a-number all read "Overload". *)
Lemma format_si_unit_overload (rt : runtime) (unit : string) :
  format_si_unit rt Overload unit = Ok "Overload"%string
  /\ format_si_unit rt VNone unit = Ok "Overload"%string
  /\ forall f, is_nan f = true ->
       format_si_unit rt (VFloat f) unit = Ok "Overload"%string.
Proof.
  repeat split.
  intros f Hf. unfold format_si_unit; simpl. rewrite Hf. reflexivity.
Qed.

(** An infinite value makes [math.floor] raise, whatever the runtime. *)
Lemma format_si_unit_infinite (rt : runtime) (unit : string) :
  format_si_unit rt (VFloat infinity) unit = Raise OverflowError
  /\ format_si_unit rt (VFloat neg_infinity) unit = Raise OverflowError.
Proof. split; reflexivity. Qed.

Lemma floor_ok_finite (r : PrimFloat.float) (e : Z) :
  math_floor r = Ok e -> is_nan r || is_infinity r = false.
Proof.
  unfold math_floor, Prim2SF.
  destruct (is_nan r); [discriminate|].
  destruct (is_zero r) eqn:Ez.
  - intros _. cbn [orb]. unfold is_infinity. unfold is_zero in Ez.
    rewrite eqb_spec in Ez. rewrite eqb_spec, abs_spec.
    change (Prim2SF zero) with (S754_zero false) in Ez.
    change (Prim2SF infinity) with (S754_infinity false).
    destruct (Prim2SF r) as [[|]|[|]| |[|] m x];
      cbv in Ez |- *; congruence.
  - destruct (is_infinity r); [discriminate | reflexivity].
Qed.

(** When the C library's logarithm of a finite positive number has a floor,
    [math.log10] returns it. *)
Lemma math_log10_finite (rt : runtime) (x : PrimFloat.float) (e : Z) :
  is_nan x = false -> is_infinity x = false -> (0 <? x)%float = true ->
  math_floor (libm_log10 rt x) = Ok e ->
  math_log10 rt x = Ok (libm_log10 rt x).
Proof.
  intros Hn Hi Hp He. unfold math_log10.
  rewrite Hn, Hi, Hp, (floor_ok_finite _ _ He). reflexivity.
Qed.

Lemma format_si_unit_zero (rt : runtime) (unit : string) (f : PrimFloat.float) :
  is_nan f = false -> (f =? 0)%float = true ->
  format_si_unit rt (VFloat f) unit = Ok (spec_format 0 f unit).
Proof.
  intros Hn Hz. unfold format_si_unit.
  cbn [eq_str is_none math_isnan bind eq_zero].
  rewrite Hn. cbn [bind]. rewrite Hz. reflexivity.
Qed.

Lemma format_si_unit_number (rt : runtime) (unit : string)
  (f l : PrimFloat.float) (e : Z) :
  is_nan f = false -> (f =? 0)%float = false ->
  math_log10 rt (PrimFloat.abs f) = Ok l -> math_floor l = Ok e ->
  format_si_unit rt (VFloat f) unit = Ok (spec_format e f unit).
Proof.
  intros Hn Hz Hl He. unfold format_si_unit.
  cbn [eq_str is_none math_isnan bind eq_zero].
  rewrite Hn. cbn [bind]. rewrite Hz, Hl. cbn [bind]. rewrite He. cbn [bind].
  change (min_list (map fst si_prefixes)) with (@Ok Z (-9)).
  change (max_list (map fst si_prefixes)) with (@Ok Z 9).
  cbn [bind]. rewrite round_down_to_three.
  replace (Z.max (Z.min (3 * (e / 3)) 9) (-9)) with (spec_exponent e)
    by (unfold spec_exponent; lia).
  rewrite prefix_lookup. reflexivity.
Qed.

(** C7 (as amended): [format_si_unit] returns "Overload" for the sentinel,
    for [None] and for not-a-number; a zero is rendered with exponent 0; a
    non-zero number whose decimal logarithm [math.log10] computes with floor
    [e] is scaled by ten to the minus [x] and rendered with the prefix of
    [x], where [x] is [e] rounded down to a multiple of three and clamped to
    [[-9, 9]], so that a magnitude beyond the range takes the boundary prefix
    and the table lookup never fails.  With [log10 1500] and [log10 1e12] as
    the C library computes them, 0, 1500, not-a-number and 1e12 read
    "0 Ω", "1.5 kΩ", "Overload" and "1000 GV". *)
Theorem format_si_unit_rule (rt : runtime) (unit : string) :
  format_si_unit rt Overload unit = Ok "Overload"%string
  /\ format_si_unit rt VNone unit = Ok "Overload"%string
  /\ (forall f, is_nan f = true ->
        format_si_unit rt (VFloat f) unit = Ok "Overload"%string)
  /\ (forall f, is_nan f = false -> (f =? 0)%float = true ->
        format_si_unit rt (VFloat f) unit = Ok (spec_format 0 f unit))
  /\ (forall f l e,
        is_nan f = false -> (f =? 0)%float = false ->
        math_log10 rt (PrimFloat.abs f) = Ok l -> math_floor l = Ok e ->
        format_si_unit rt (VFloat f) unit = Ok (spec_format e f unit))
  /\ (forall e, 9 <= e -> spec_prefix (spec_exponent e) = "G"%string)
  /\ (forall e, e < -6 -> spec_prefix (spec_exponent e) = "n"%string)
  /\ format_si_unit rt (VFloat 0) "Ω" = Ok "0 Ω"%string
  /\ format_si_unit rt (VFloat nan) "Ω" = Ok "Overload"%string
  /\ (math_floor (libm_log10 rt 1500) = Ok 3 ->
      format_si_unit rt (VFloat 1500) "Ω" = Ok "1.5 kΩ"%string)
  /\ (math_floor (libm_log10 rt 1e12) = Ok 12 ->
      format_si_unit rt (VFloat 1e12) "V" = Ok "1000 GV"%string).
Proof.
  pose proof (format_si_unit_overload rt unit) as (HO & HN & Hnan).
  assert (Hnum : forall u f l e,
            is_nan f = false -> (f =? 0)%float = false ->
            math_log10 rt (PrimFloat.abs f) = Ok l -> math_floor l = Ok e ->
            format_si_unit rt (VFloat f) u = Ok (spec_format e f u)).
  { intros u f l e Hn Hz Hl He. apply format_si_unit_number with (l := l); assumption. }
  repeat match goal with |- _ /\ _ => split end; try assumption.
  - intros f Hn Hz. apply format_si_unit_zero; assumption.
  - apply Hnum.
  - intros e He. unfold spec_exponent.
    pose proof (Z.div_mod e 3 ltac:(lia)) as Hd.
    pose proof (Z.mod_pos_bound e 3 ltac:(lia)) as Hm.
    replace (Z.max (-9) (Z.min 9 (3 * (e / 3)))) with 9 by lia. reflexivity.
  - intros e He. unfold spec_exponent.
    pose proof (Z.div_mod e 3 ltac:(lia)) as Hd.
    pose proof (Z.mod_pos_bound e 3 ltac:(lia)) as Hm.
    replace (Z.max (-9) (Z.min 9 (3 * (e / 3)))) with (-9) by lia. reflexivity.
  - rewrite format_si_unit_zero by reflexivity. vm_compute. reflexivity.
  - intros H.
    rewrite (Hnum "Ω"%string 1500%float _ 3 eq_refl eq_refl
               (math_log10_finite rt 1500 3 eq_refl eq_refl eq_refl H) H).
    vm_compute. reflexivity.
  - intros H.
    rewrite (Hnum "V"%string 1e12%float _ 12 eq_refl eq_refl
               (math_log10_finite rt 1e12 12 eq_refl eq_refl eq_refl H) H).
    vm_compute. reflexivity.
Qed.

Lemma format_si_unit_rule_witness :
  format_si_unit example_rt (VFloat 1500) "Ω" = Ok "1.5 kΩ"%string
  /\ format_si_unit example_rt (VFloat 1e12) "V" = Ok "1000 GV"%string.
Proof.
  split.
  - apply (format_si_unit_rule example_rt "Ω"). reflexivity.
  - apply (format_si_unit_rule example_rt "V"). reflexivity.
Defined.

(** C7 (as stated) fails on an infinite value: [math.floor] raises
    [OverflowError], nothing is displayed with the boundary prefix. *)
Lemma format_si_unit_infinity_raises :
  format_si_unit example_rt (VFloat infinity) "V" = Raise OverflowError
  /\ format_si_unit example_rt (VFloat infinity) "V" <> Ok "inf GV"%string.
Proof. split; [reflexivity | discriminate]. Qed.

(* ================================================================== *)
(** ** Recording: start, stop, reset *)
(* ================================================================== *)

(** C10: [reset_graph] empties [recorded_data] whatever the recording flag
    is and leaves the flag as it was; when the page was recording, the rows
    captured before the reset are gone and stopping right after the reset
    reports that there is nothing to save and writes no file. *)
Theorem reset_graph_discards_recording
  (pg : page) (file_path : string) (io_ok : bool) :
  recording pg = true ->
  recorded_data (reset_graph pg) = []
  /\ recording (reset_graph pg) = true
  /\ recording (toggle_recording file_path io_ok (reset_graph pg)) = false
  /\ effects (toggle_recording file_path io_ok (reset_graph pg))
     = effects pg ++ [nothing_to_save].
Proof.
  intros Hrec. unfold toggle_recording, reset_graph; simpl.
  rewrite Hrec; simpl. repeat split.
Qed.

Lemma reset_graph_discards_recording_witness :
  recording (example_page "10" true [[VFloat 0; VFloat 1]; [VFloat 1; VFloat 2]]) = true
  /\ recorded_data
       (reset_graph (example_page "10" true [[VFloat 0; VFloat 1]; [VFloat 1; VFloat 2]]))
     = []
  /\ effects
       (toggle_recording "out.csv" true
          (reset_graph (example_page "10" true [[VFloat 0; VFloat 1]; [VFloat 1; VFloat 2]])))
     = [nothing_to_save].
Proof.
  split; [reflexivity|].
  pose proof (reset_graph_discards_recording
                (example_page "10" true [[VFloat 0; VFloat 1]; [VFloat 1; VFloat 2]])
                "out.csv" true eq_refl) as (H1 & _ & _ & H4).
  split; [exact H1 | exact H4].
Defined.

(* ================================================================== *)
(** ** The derived-metric engine *)
(* ================================================================== *)

Lemma family_of_cases (name : string) :
  (name = "四端子抵抗測定A_V" \/ name = "四端子抵抗測定B_V"
   \/ name = "hFE測定" \/ name = "電力計測(小電流)" \/ name = "電力計測(大電流)")%string
  \/ (String.eqb name "四端子抵抗測定A_V" = false
      /\ String.eqb name "四端子抵抗測定B_V" = false
      /\ String.eqb name "hFE測定" = false
      /\ String.eqb name "電力計測(小電流)" = false
      /\ String.eqb name "電力計測(大電流)" = false).
Proof.
  destruct (String.eqb_spec name "四端子抵抗測定A_V"); [tauto|].
  destruct (String.eqb_spec name "四端子抵抗測定B_V"); [tauto|].
  destruct (String.eqb_spec name "hFE測定"); [tauto|].
  destruct (String.eqb_spec name "電力計測(小電流)"); [tauto|].
  destruct (String.eqb_spec name "電力計測(大電流)"); [tauto|].
  right. repeat split.
Qed.

Ltac split_floats a b :=
  destruct (a =? 0)%float, (is_nan a), (is_nan b), (b =? 0)%float;
  try reflexivity.

Lemma shared_numeric (name : string) (a b : PrimFloat.float) :
  shared_calculated_value name (VFloat a) (VFloat b)
  = Ok (numeric_reduce (family_of name) a b).
Proof.
  destruct (family_of_cases name) as [[H|[H|[H|[H|H]]]]|(H1 & H2 & H3 & H4 & H5)].
  1-5: subst name; unfold shared_calculated_value, family_of;
       cbn [String.eqb Ascii.eqb Bool.eqb andb];
       unfold ratio_guard, product_guard, ne_zero, eq_zero, math_isnan,
         truediv, Py.abs, Py.mul, numeric_reduce, try_except, bind;
       split_floats a b.
  unfold shared_calculated_value, family_of.
  rewrite H1, H2, H3, H4, H5. reflexivity.
Qed.

Lemma shared_unrecognized (name : string) (ach_value bch_value : value) :
  family_of name = Unrecognized ->
  shared_calculated_value name ach_value bch_value = Ok Invalid
  /\ list_calculated_value name ach_value bch_value = Ok Invalid.
Proof.
  intros Hf.
  destruct (family_of_cases name) as [[H|[H|[H|[H|H]]]]|(H1 & H2 & H3 & H4 & H5)].
  1-5: subst name; discriminate Hf.
  unfold shared_calculated_value, list_calculated_value.
  rewrite H1, H2, H3, H4, H5. split; reflexivity.
Qed.

Lemma list_numeric (name : string) (a b : PrimFloat.float) :
  (b =? 0)%float = false ->
  list_calculated_value name (VFloat a) (VFloat b)
  = Ok (numeric_reduce (family_of name) a b).
Proof.
  intros Hb.
  destruct (family_of_cases name) as [[H|[H|[H|[H|H]]]]|(H1 & H2 & H3 & H4 & H5)].
  1-5: subst name; unfold list_calculated_value, family_of;
       cbn [String.eqb Ascii.eqb Bool.eqb andb orb];
       unfold ratio_guard, product_guard, ne_zero, eq_zero, math_isnan,
         truediv, Py.abs, Py.mul, numeric_reduce, bind;
       rewrite ?Hb;
       destruct (a =? 0)%float, (is_nan a), (is_nan b); try reflexivity.
  unfold list_calculated_value, family_of.
  rewrite H1, H2, H3, H4, H5. reflexivity.
Qed.

Lemma numeric_meets_table (fam : family) (a b : PrimFloat.float) :
  is_infinity a = false -> is_infinity b = false -> (b =? 0)%float = false ->
  numeric_reduce fam a b = spec_reduce fam (VFloat a) (VFloat b).
Proof.
  intros Ha Hb Hz. unfold numeric_reduce, spec_reduce, non_finite, eq_zero, number_of.
  rewrite Ha, Hb, Hz, !orb_false_r. destruct fam; reflexivity.
Qed.

(** C1 (as amended): on two numbers the reduction of the live path never
    raises and returns: for the ratio modes [abs (A / B)], Invalid when [A]
    is zero, when either channel is not-a-number or when [B] is zero (the
    caught division error); for the gain mode [B / A], Invalid when [A] is
    zero or either channel is not-a-number; for the product modes [A * B],
    Invalid when either channel is not-a-number.  An infinite channel is not
    rejected: the IEEE result of the formula is returned.  The reduction of
    [load_data_from_list] agrees whenever [B] is not zero, and both agree
    with the specification's table on finite channels with [B] not zero.
    An unrecognized mode name gives Invalid on any two values, the sentinel
    and [None] included.  Ratio gives Invalid on (0, 5) and 5 on (10, 2). *)
Theorem reduction_on_numbers (name : string) (a b : PrimFloat.float) :
  shared_calculated_value name (VFloat a) (VFloat b)
  = Ok (numeric_reduce (family_of name) a b)
  /\ ((b =? 0)%float = false ->
      list_calculated_value name (VFloat a) (VFloat b)
      = Ok (numeric_reduce (family_of name) a b))
  /\ (is_infinity a = false -> is_infinity b = false -> (b =? 0)%float = false ->
      shared_calculated_value name (VFloat a) (VFloat b)
      = Ok (spec_reduce (family_of name) (VFloat a) (VFloat b)))
  /\ (family_of name = Unrecognized ->
      forall ach_value bch_value,
        shared_calculated_value name ach_value bch_value = Ok Invalid
        /\ list_calculated_value name ach_value bch_value = Ok Invalid)
  /\ shared_calculated_value "四端子抵抗測定A_V" (VFloat 0) (VFloat 5) = Ok Invalid
  /\ shared_calculated_value "四端子抵抗測定A_V" (VFloat 10) (VFloat 2)
     = Ok (VFloat 5).
Proof.
  split; [apply shared_numeric|].
  split; [apply list_numeric|].
  split.
  { intros Ha Hb Hz. rewrite shared_numeric.
    f_equal. apply numeric_meets_table; assumption. }
  split.
  { intros Hf x y. apply shared_unrecognized, Hf. }
  split; reflexivity.
Qed.

Lemma reduction_on_numbers_witness :
  list_calculated_value "hFE測定" (VFloat 2) (VFloat 3) = Ok (VFloat 1.5)
  /\ shared_calculated_value "電力計測(小電流)" (VFloat 2) (VFloat 3)
     = Ok (spec_reduce Product (VFloat 2) (VFloat 3))
  /\ shared_calculated_value "DCV" Overload VNone = Ok Invalid.
Proof.
  split; [|split].
  - exact (proj1 (proj2 (reduction_on_numbers "hFE測定" 2 3)) eq_refl).
  - exact (proj1 (proj2 (proj2 (reduction_on_numbers "電力計測(小電流)" 2 3)))
             eq_refl eq_refl eq_refl).
  - exact (proj1 (proj1 (proj2 (proj2 (proj2 (reduction_on_numbers "DCV" 0 0))))
                    eq_refl Overload VNone)).
Defined.

(** C1 (as stated) fails: with an infinite channel B the ratio is 0, not
    Invalid, although the table calls for Invalid; and on the Overload
    sentinel or an absent channel [math.isnan] raises [TypeError]. *)
Lemma reduction_departs_from_table :
  shared_calculated_value "四端子抵抗測定A_V" (VFloat 1) (VFloat infinity)
  = Ok (VFloat 0)
  /\ spec_reduce Ratio (VFloat 1) (VFloat infinity) = Invalid
  /\ shared_calculated_value "四端子抵抗測定A_V" Overload (VFloat 1)
     = Raise TypeError
  /\ shared_calculated_value "電力計測(小電流)" (VFloat 1) VNone
     = Raise TypeError.
Proof. repeat split. Qed.

(* ================================================================== *)
(** ** Response parsing *)
(* ================================================================== *)

Lemma append_empty_r (s : string) : (s ++ "")%string = s.
Proof. induction s as [|c s IH]; simpl; [reflexivity | now rewrite IH]. Qed.

Lemma append_assoc (s t u : string) :
  ((s ++ t) ++ u)%string = (s ++ (t ++ u))%string.
Proof. induction s as [|c s IH]; simpl; [reflexivity | now rewrite IH]. Qed.

Lemma split_ws_all_space (w : string) :
  all_space w = true -> split_ws w = [].
Proof.
  induction w as [|c w IH]; simpl; [reflexivity|].
  intros H. apply andb_prop in H as [Hc Hw]. rewrite Hc. auto.
Qed.

Lemma split_ws_space_prefix (w s : string) :
  all_space w = true -> split_ws (w ++ s) = split_ws s.
Proof.
  induction w as [|c w IH]; simpl; [reflexivity|].
  intros H. apply andb_prop in H as [Hc Hw]. rewrite Hc. auto.
Qed.

Lemma split_ws_space_suffix (s w : string) :
  all_space w = true -> split_ws (s ++ w) = split_ws s.
Proof.
  intros Hw. induction s as [|c s IH].
  - simpl. apply split_ws_all_space, Hw.
  - change (String c s ++ w)%string with (String c (s ++ w)).
    cbn [split_ws]. rewrite IH.
    destruct (is_space c); [reflexivity|].
    destruct s as [|d s].
    + simpl. destruct w as [|d w]; [reflexivity|].
      simpl in Hw. apply andb_prop in Hw as [Hd Hw']. rewrite Hd.
      reflexivity.
    + reflexivity.
Qed.

Lemma lstrip_decomp (s : string) :
  exists w, all_space w = true /\ s = (w ++ lstrip s)%string.
Proof.
  induction s as [|c s (w & Hw & Hs)]; simpl.
  - exists ""%string. split; reflexivity.
  - destruct (is_space c) eqn:Hc.
    + exists (String c w). simpl. rewrite Hc, Hw. split; [reflexivity | congruence].
    + exists ""%string. split; reflexivity.
Qed.

Lemma rstrip_decomp (s : string) :
  exists w, all_space w = true /\ s = (rstrip s ++ w)%string.
Proof.
  induction s as [|c s (w & Hw & Hs)]; simpl.
  - exists ""%string. split; reflexivity.
  - destruct (rstrip s) as [|d r] eqn:Hr.
    + destruct (is_space c) eqn:Hc.
      * exists (String c w). simpl in *. rewrite Hc, Hw. split; [reflexivity | congruence].
      * exists w. simpl in *. split; [assumption | congruence].
    + exists w. split; [assumption|]. simpl in *. congruence.
Qed.

Lemma split_ws_strip (s : string) : split_ws (strip s) = split_ws s.
Proof.
  unfold strip.
  destruct (lstrip_decomp s) as (w1 & Hw1 & H1).
  destruct (rstrip_decomp (lstrip s)) as (w2 & Hw2 & H2).
  rewrite H1 at 2. rewrite split_ws_space_prefix by assumption.
  rewrite H2 at 2. rewrite split_ws_space_suffix by assumption.
  reflexivity.
Qed.

Lemma split_on_not_nil (sep : ascii) (s : string) : split_on sep s <> [].
Proof.
  induction s as [|c s IH]; simpl; [discriminate|].
  destruct (Ascii.eqb c sep); [discriminate|].
  destruct (split_on sep s); discriminate.
Qed.

Lemma space_not_comma (c : ascii) : is_space c = true -> Ascii.eqb c "," = false.
Proof.
  destruct (Ascii.eqb_spec c ","); [subst; discriminate | reflexivity].
Qed.

Lemma split_on_space_prefix (w s : string) :
  all_space w = true ->
  split_on "," (w ++ s)
  = match split_on "," s with
    | p :: ps => (w ++ p)%string :: ps
    | [] => []
    end.
Proof.
  induction w as [|c w IH]; simpl.
  - intros _. destruct (split_on "," s); reflexivity.
  - intros H. apply andb_prop in H as [Hc Hw].
    rewrite (space_not_comma c Hc), (IH Hw).
    pose proof (split_on_not_nil "," s) as Hne.
    destruct (split_on "," s); [congruence | reflexivity].
Qed.

Lemma split_on_space_suffix (s w : string) :
  all_space w = true ->
  split_on "," (s ++ w) = app_last (split_on "," s) w.
Proof.
  intros Hw. induction s as [|c s IH].
  - simpl. pose proof (split_on_space_prefix w "" Hw) as H.
    rewrite append_empty_r in H. simpl in H. rewrite append_empty_r in H. exact H.
  - change (String c s ++ w)%string with (String c (s ++ w)).
    cbn [split_on]. rewrite IH.
    pose proof (split_on_not_nil "," s) as Hne.
    destruct (Ascii.eqb c ",").
    + destruct (split_on "," s) as [|p ps]; [congruence | reflexivity].
    + destruct (split_on "," s) as [|p [|q ps]]; [congruence | reflexivity | reflexivity].
Qed.

Lemma readings_app_last (rt : runtime) (parts : list string) (w : string) :
  all_space w = true ->
  spec_readings rt (app_last parts w) = spec_readings rt parts.
Proof.
  intros Hw. induction parts as [|p [|q ps] IH]; [reflexivity | |].
  - simpl. unfold spec_reading. rewrite split_ws_space_suffix by assumption.
    reflexivity.
  - change (app_last (p :: q :: ps) w) with (p :: app_last (q :: ps) w).
    cbn [spec_readings]. rewrite IH. reflexivity.
Qed.

Lemma readings_strip (rt : runtime) (line : string) :
  spec_readings rt (split_on "," (strip line))
  = spec_readings rt (split_on "," line).
Proof.
  unfold strip.
  destruct (lstrip_decomp line) as (w1 & Hw1 & H1).
  destruct (rstrip_decomp (lstrip line)) as (w2 & Hw2 & H2).
  rewrite H1 at 2. rewrite split_on_space_prefix by assumption.
  rewrite H2 at 2. rewrite split_on_space_suffix by assumption.
  rewrite <- (readings_app_last rt (split_on "," (rstrip (lstrip line))) w2 Hw2).
  destruct (app_last (split_on "," (rstrip (lstrip line))) w2) as [|p ps];
    [reflexivity|].
  simpl. unfold spec_reading. rewrite split_ws_space_prefix by assumption.
  reflexivity.
Qed.

(** A zero of either sign compares equal to zero; only the negative one has
    its sign set. *)
Lemma eqb_zero_cases (f : PrimFloat.float) :
  (f =? 0)%float = true -> f = 0%float \/ f = (-0)%float.
Proof.
  rewrite eqb_spec. intros H.
  rewrite <- (SF2Prim_Prim2SF f).
  change (Prim2SF 0) with (S754_zero false) in H.
  destruct (Prim2SF f) as [[|]|[|]| |[|] m e]; try discriminate H.
  - right; reflexivity.
  - left; reflexivity.
Qed.

Lemma eqb_neg_zero (f : PrimFloat.float) : (f =? -0)%float = (f =? 0)%float.
Proof.
  rewrite !eqb_spec.
  change (Prim2SF (-0)) with (S754_zero true).
  change (Prim2SF 0) with (S754_zero false).
  destruct (Prim2SF f) as [[|]|[|]| |[|] m e]; reflexivity.
Qed.

Lemma zero_normalized (f : PrimFloat.float) :
  (if (f =? -0)%float then 0%float else f)
  = (if negative_zero f then 0%float else f).
Proof.
  rewrite eqb_neg_zero. unfold negative_zero.
  destruct (f =? 0)%float eqn:E; [|reflexivity].
  destruct (eqb_zero_cases f E) as [-> | ->]; reflexivity.
Qed.

Lemma read_part_spec (rt : runtime) (part : string) :
  read_part rt part = Ok (spec_reading rt part).
Proof.
  unfold read_part, spec_reading. rewrite split_ws_strip.
  destruct (is_empty (strip part)) eqn:He.
  - rewrite <- (split_ws_strip part).
    destruct (strip part); [reflexivity | discriminate He].
  - destruct (split_ws part) as [|prefix [|value_str rest]]; try reflexivity.
    cbn [List.length Nat.ltb Nat.leb index nth_error bind].
    destruct (endswith prefix "_").
    + unfold Py.float. destruct (float_of_str rt value_str) as [f|];
        [|reflexivity].
      cbn [bind try_except]. rewrite zero_normalized. reflexivity.
    + destruct (endswith prefix "O"); reflexivity.
Qed.

Lemma read_parts_spec (rt : runtime) (parts : list string) :
  forall ach_value bch_value,
    read_parts rt parts ach_value bch_value
    = Ok (assign (spec_readings rt parts) ach_value bch_value).
Proof.
  induction parts as [|part rest IH]; intros a b; [reflexivity|].
  cbn [read_parts spec_readings]. rewrite read_part_spec. cbn [bind].
  destruct (spec_reading rt part) as [v|]; [|apply IH].
  cbn [assign]. destruct (is_none a); [apply IH|].
  destruct (is_none b); apply IH.
Qed.

Lemma spec_reading_not_none (rt : runtime) (part : string) (v : value) :
  spec_reading rt part = Some v -> is_none v = false.
Proof.
  unfold spec_reading.
  destruct (split_ws part) as [|prefix [|value_str rest]]; try discriminate.
  destruct (endswith prefix "_").
  - destruct (float_of_str rt value_str); [|discriminate].
    intros H; injection H as <-; reflexivity.
  - destruct (endswith prefix "O"); [|discriminate].
    intros H; injection H as <-; reflexivity.
Qed.

Lemma spec_readings_not_none (rt : runtime) (parts : list string) :
  Forall (fun v => is_none v = false) (spec_readings rt parts).
Proof.
  induction parts as [|part rest IH]; simpl; [constructor|].
  destruct (spec_reading rt part) as [v|] eqn:E; [|exact IH].
  constructor; [eapply spec_reading_not_none; eassumption | exact IH].
Qed.

Lemma assign_full (readings : list value) (a b : value) :
  is_none a = false -> is_none b = false -> assign readings a b = (a, b).
Proof.
  intros Ha Hb. induction readings as [|v rest IH]; simpl; [reflexivity|].
  rewrite Ha, Hb. exact IH.
Qed.

Lemma assign_first_two (readings : list value) :
  Forall (fun v => is_none v = false) readings ->
  assign readings VNone VNone = (nth 0 readings VNone, nth 1 readings VNone).
Proof.
  intros H. destruct H as [|a rest Ha Hrest]; [reflexivity|].
  change (assign (a :: rest) VNone VNone) with (assign rest a VNone).
  destruct Hrest as [|b rest Hb Hrest]; [reflexivity|].
  simpl. rewrite Ha. apply assign_full; assumption.
Qed.

Lemma read_measurement_assign (rt : runtime) (line : string) :
  read_measurement rt (RLine line)
  = Ok (let r := assign (spec_readings rt (split_on "," line)) VNone VNone in
        if is_none (fst r) then (VNone, VNone) else r).
Proof.
  unfold read_measurement. cbn [bind].
  rewrite read_parts_spec. cbn [bind try_except].
  rewrite readings_strip.
  destruct (assign (spec_readings rt (split_on "," line)) VNone VNone)
    as [a b].
  cbn [fst snd]. destruct (is_none a); reflexivity.
Qed.

(** C2: on every response line [read_measurement] returns what the
    algorithm of the specification returns: the line is split on commas; a
    part with fewer than two white-space separated tokens gives nothing; a
    part whose first token ends in ["_"] gives its second token parsed as a
    float, a negative zero turned into the positive one, and nothing when the
    parse fails; a part whose first token ends in ["O"] gives the Overload
    sentinel; any other part gives nothing; channel A is the first reading,
    channel B the second, [None] when there is none. *)
Theorem read_measurement_follows_spec (rt : runtime) (line : string) :
  read_measurement rt (RLine line) = Ok (spec_parse rt line).
Proof.
  rewrite read_measurement_assign. unfold spec_parse.
  pose proof (spec_readings_not_none rt (split_on "," line)) as Hnn.
  rewrite (assign_first_two _ Hnn). cbn [fst].
  destruct Hnn as [|a rest Ha _]; [reflexivity|].
  cbn [nth]. rewrite Ha. reflexivity.
Qed.

(* ================================================================== *)
(** ** The sampler: dispatch and the acquisition loop *)
(* ================================================================== *)

Lemma poll_opc_completes (retries : list read_outcome) :
  forall (fuel : nat) (d : device) (tok : string) (rest : list read_outcome),
    forallb retried retries = true ->
    strip tok = "1"%string ->
    pending d = retries ++ RLine tok :: rest ->
    (List.length retries < fuel)%nat ->
    poll_opc fuel d
    = Some ({| pending := rest;
               trace := trace d ++ repeat ERead (S (List.length retries)) |},
            None).
Proof.
  induction retries as [|o retries IH]; intros fuel d tok rest Hr Htok Hp Hfuel.
  - destruct fuel as [|k]; [inversion Hfuel|].
    simpl in Hp. cbn [poll_opc]. unfold dev_read. rewrite Hp, Htok. reflexivity.
  - destruct fuel as [|k]; [inversion Hfuel|].
    simpl in Hp, Hr. apply andb_prop in Hr as [Ho Hr].
    cbn [poll_opc]. unfold dev_read. rewrite Hp.
    assert (Hnext :
      poll_opc k {| pending := retries ++ RLine tok :: rest;
                    trace := trace d ++ [ERead] |}
      = Some ({| pending := rest;
                 trace := trace d ++ repeat ERead (S (S (List.length retries))) |},
              None)).
    { rewrite (IH k {| pending := retries ++ RLine tok :: rest;
                       trace := trace d ++ [ERead] |} tok rest Hr Htok eq_refl)
        by (simpl in Hfuel; lia).
      cbn [trace]. rewrite <- app_assoc. reflexivity. }
    destruct o as [s|e].
    + simpl in Ho. destruct (String.eqb (strip s) "1"); [discriminate Ho|].
      exact Hnext.
    + destruct e; try discriminate Ho. exact Hnext.
Qed.

Lemma send_command_completes
  (fuel : nat) (st : sampler) (command tok : string)
  (retries rest : list read_outcome) :
  forallb retried retries = true ->
  strip tok = "1"%string ->
  pending (dmm st) = retries ++ RLine tok :: rest ->
  (List.length retries < fuel)%nat ->
  send_command fuel st command
  = Some (set_dmm st
            {| pending := rest;
               trace := trace (dmm st)
                          ++ handshake command (S (List.length retries)) |}).
Proof.
  intros Hr Htok Hp Hfuel. unfold send_command.
  rewrite (poll_opc_completes retries fuel
             (dev_write (dev_write (dev_clear (dev_write (dmm st) "*CLS")) command)
                        "*OPC?")
             tok rest Hr Htok Hp Hfuel).
  unfold handshake, dev_write, dev_clear; cbn [trace pending].
  rewrite <- !app_assoc. reflexivity.
Qed.

(** An instrument that never answers keeps the handshake waiting for ever. *)
Lemma poll_opc_silent (fuel : nat) :
  forall d, pending d = [] -> poll_opc fuel d = None.
Proof.
  induction fuel as [|k IH]; intros d Hp; [reflexivity|].
  cbn [poll_opc]. unfold dev_read. rewrite Hp. apply IH. reflexivity.
Qed.

(** C8 (as amended): a dequeued TRIGGER runs the same completion handshake
    as a Configure request whose text is ["*TRG"]: it writes the clear-status
    instruction, clears the transport, writes ["*TRG"] once, writes the
    completion query and reads until the instrument answers the completion
    token; when the token comes after [n] reads that are retried and the fuel
    exceeds [n], these are its only transactions.  A dequeued STOP sets the
    termination flag and makes no transaction. *)
Theorem trigger_and_stop_dispatch
  (fuel : nat) (st : sampler) (tok : string)
  (retries rest : list read_outcome) :
  forallb retried retries = true ->
  strip tok = "1"%string ->
  pending (dmm st) = retries ++ RLine tok :: rest ->
  (List.length retries < fuel)%nat ->
  dispatch fuel st "TRIGGER" = dispatch fuel st "SEND *TRG"
  /\ dispatch fuel st "TRIGGER"
     = Some (set_dmm st
               {| pending := rest;
                  trace := trace (dmm st)
                             ++ handshake "*TRG" (S (List.length retries)) |})
  /\ dispatch fuel st "STOP" = Some (set_stop st)
  /\ stop_event (set_stop st) = true
  /\ dmm (set_stop st) = dmm st.
Proof.
  intros Hr Htok Hp Hfuel. split; [reflexivity|]. split; [|repeat split].
  change (dispatch fuel st "TRIGGER") with (send_command fuel st "*TRG").
  apply send_command_completes with (tok := tok); assumption.
Qed.

Lemma trigger_and_stop_dispatch_witness :
  dispatch 3 (example_sampler [] [RFail VisaIOError; RLine " 1 "; RLine "x"])
           "TRIGGER"
  = Some (set_dmm (example_sampler [] [])
            {| pending := [RLine "x"];
               trace := [EWrite "*CLS"; EClear; EWrite "*TRG"; EWrite "*OPC?";
                         ERead; ERead] |}).
Proof.
  apply (trigger_and_stop_dispatch 3
           (example_sampler [] [RFail VisaIOError; RLine " 1 "; RLine "x"])
           " 1 " [RFail VisaIOError] [RLine "x"]);
    [reflexivity | reflexivity | reflexivity | simpl; lia].
Defined.

(** C8 (as stated) fails: a TRIGGER is not one write; with an instrument
    that answers the token at once it makes five transactions. *)
Lemma trigger_is_a_handshake :
  option_map (fun st => trace (dmm st))
    (check_commands 5 (example_sampler ["TRIGGER"%string] [RLine "1"]))
  = Some [EWrite "*CLS"; EClear; EWrite "*TRG"; EWrite "*OPC?"; ERead]
  /\ option_map (fun st => trace (dmm st))
       (check_commands 5 (example_sampler ["TRIGGER"%string] [RLine "1"]))
     <> Some [EWrite "*TRG"].
Proof. split; [reflexivity | discriminate]. Qed.

Lemma send_command_data_list (fuel : nat) (st st' : sampler) (command : string) :
  send_command fuel st command = Some st' ->
  data_list st' = data_list st /\ ticks st' = ticks st.
Proof.
  unfold send_command.
  destruct (poll_opc fuel _) as [[d [e|]]|]; intros H; inversion H; subst;
    split; reflexivity.
Qed.

Lemma dispatch_data_list (fuel : nat) (st st' : sampler) (command : string) :
  dispatch fuel st command = Some st' ->
  data_list st' = data_list st /\ ticks st' = ticks st.
Proof.
  unfold dispatch.
  destruct (String.eqb command "STOP").
  { intros H; inversion H; subst; split; reflexivity. }
  destruct (startswith command "SEND "); [apply send_command_data_list|].
  destruct (String.eqb command "TRIGGER"); [apply send_command_data_list|].
  intros H; inversion H; subst; split; reflexivity.
Qed.

Lemma drain_data_list (fuel : nat) (queue : list string) :
  forall st st', drain fuel queue st = Some st' ->
                 data_list st' = data_list st /\ ticks st' = ticks st.
Proof.
  induction queue as [|command rest IH]; intros st st' H.
  - inversion H; subst; split; reflexivity.
  - cbn [drain] in H.
    destruct (dispatch fuel (set_queue st rest) command) as [st1|] eqn:E;
      [|discriminate H].
    apply dispatch_data_list in E as [E1 E2]. apply IH in H as [H1 H2].
    split; [rewrite H1, E1 | rewrite H2, E2]; reflexivity.
Qed.

(** C3: no response line makes the parser raise.  In an iteration of the
    sampler whose read returns [line], after the queued commands were
    executed: when no reading is recognized nothing is appended to the log;
    when one reading is recognized the sample is appended with channel B
    [None]; otherwise the sample carries the first two readings.  No
    exception is reported in any of these cases. *)
Theorem malformed_lines_degrade
  (rt : runtime) (clock : nat -> PrimFloat.float) (start : PrimFloat.float)
  (fuel : nat) (st0 st : sampler) (line : string) (rest : list read_outcome) :
  check_commands fuel st0 = Some st ->
  pending (dmm st) = RLine line :: rest ->
  (exists r, read_measurement rt (RLine line) = Ok r)
  /\ printed (acquire rt clock start st) = printed st
  /\ (spec_readings rt (split_on "," line) = [] ->
      data_list (acquire rt clock start st) = data_list st0)
  /\ (forall a, spec_readings rt (split_on "," line) = [a] ->
      data_list (acquire rt clock start st)
      = data_list st0 ++ [((clock (ticks st0) - start)%float, a, VNone)])
  /\ (forall a b others, spec_readings rt (split_on "," line) = a :: b :: others ->
      data_list (acquire rt clock start st)
      = data_list st0 ++ [((clock (ticks st0) - start)%float, a, b)]).
Proof.
  intros Hc Hp.
  apply drain_data_list in Hc as [Hd Ht].
  split; [eexists; apply read_measurement_assign|].
  unfold acquire, dev_read. rewrite Hp, read_measurement_assign.
  pose proof (spec_readings_not_none rt (split_on "," line)) as Hnn.
  destruct Hnn as [|a [|b others] Ha Hrest].
  - cbn [assign fst is_none negb].
    split; [reflexivity|]. split; [intros _; exact Hd|].
    split; intros; discriminate.
  - cbn [assign fst is_none]. rewrite Ha. cbv iota. rewrite Ha. cbn [negb].
    split; [reflexivity|]. split; [discriminate|].
    split; [|intros; discriminate].
    intros a' H; injection H as <-.
    cbn [append_sample set_dmm data_list ticks]. rewrite Hd, Ht. reflexivity.
  - inversion Hrest as [|? ? Hb Hothers]; subst.
    change (assign (a :: b :: others) VNone VNone) with (assign (b :: others) a VNone).
    cbn [assign is_none]. rewrite Ha. rewrite (assign_full others a b Ha Hb).
    cbn [fst]. rewrite Ha. cbv iota. rewrite Ha. cbn [negb].
    split; [reflexivity|]. split; [discriminate|].
    split; [intros; discriminate|].
    intros a' b' o' H; injection H as <- <- <-.
    cbn [append_sample set_dmm data_list ticks]. rewrite Hd, Ht. reflexivity.
Qed.

Lemma malformed_lines_degrade_witness :
  data_list (acquire example_rt (fun _ => 3%float) 1
               (example_sampler [] [RLine ",, _ ,DCV"]))
  = []
  /\ data_list (acquire example_rt (fun _ => 3%float) 1
                  (example_sampler [] [RLine "x,DCVO 9.9E+37,DCI_ ?"]))
     = [(2%float, Overload, VNone)].
Proof.
  split.
  - apply (malformed_lines_degrade example_rt (fun _ => 3%float) 1 0
             (example_sampler [] [RLine ",, _ ,DCV"])
             (example_sampler [] [RLine ",, _ ,DCV"]) ",, _ ,DCV" []);
      reflexivity.
  - apply (malformed_lines_degrade example_rt (fun _ => 3%float) 1 0
             (example_sampler [] [RLine "x,DCVO 9.9E+37,DCI_ ?"])
             (example_sampler [] [RLine "x,DCVO 9.9E+37,DCI_ ?"])
             "x,DCVO 9.9E+37,DCI_ ?" []);
      reflexivity.
Defined.

(** C9 (as amended): with the queue ["SEND DSP1,F3"; "TRIGGER"; "STOP"] and
    an instrument that answers both completion queries, the loop runs one
    handshake for ["DSP1,F3"], then one handshake for ["*TRG"], then sets the
    termination flag; the same iteration still makes its read, which appends
    a sample when a channel-A reading comes out; then the loop ends and the
    transport is closed.  At most one sample is appended. *)
Theorem configure_trigger_stop
  (rt : runtime) (clock : nat -> PrimFloat.float) (start : PrimFloat.float)
  (fuel : nat) (st : sampler) (tok1 tok2 : string)
  (retries1 retries2 rest : list read_outcome) :
  command_queue st = ["SEND DSP1,F3"; "TRIGGER"; "STOP"]%string ->
  stop_event st = false ->
  pending (dmm st) = retries1 ++ RLine tok1 :: retries2 ++ RLine tok2 :: rest ->
  forallb retried retries1 = true -> strip tok1 = "1"%string ->
  forallb retried retries2 = true -> strip tok2 = "1"%string ->
  (List.length retries1 < fuel)%nat -> (List.length retries2 < fuel)%nat ->
  (2 <= fuel)%nat ->
  let d := {| pending := rest;
              trace := trace (dmm st)
                         ++ handshake "DSP1,F3" (S (List.length retries1))
                         ++ handshake "*TRG" (S (List.length retries2)) |} in
  let stopped := set_stop (set_dmm (set_queue st []) d) in
  let final := acquire rt clock start stopped in
  check_commands fuel st = Some stopped
  /\ run_loop fuel rt clock start st
     = Some (set_dmm final (dev_close (dmm final)))
  /\ trace (dev_close (dmm final)) = trace d ++ [ERead; EClose]
  /\ (data_list final = data_list st
      \/ exists x, data_list final = data_list st ++ [x]).
Proof.
  intros Hq Hs Hp Hr1 Ht1 Hr2 Ht2 Hf1 Hf2 Hf d stopped final.
  assert (Hcheck : check_commands fuel st = Some stopped).
  { unfold check_commands. rewrite Hq. cbn [drain].
    change (dispatch fuel (set_queue st ["TRIGGER"; "STOP"]%string) "SEND DSP1,F3")
      with (send_command fuel (set_queue st ["TRIGGER"; "STOP"]%string) "DSP1,F3").
    rewrite (send_command_completes fuel
               (set_queue st ["TRIGGER"; "STOP"]%string) "DSP1,F3" tok1 retries1
               (retries2 ++ RLine tok2 :: rest) Hr1 Ht1 Hp Hf1).
    match goal with
    | |- context [dispatch fuel ?s "TRIGGER"] =>
        change (dispatch fuel s "TRIGGER") with (send_command fuel s "*TRG");
        rewrite (send_command_completes fuel s "*TRG" tok2 retries2 rest
                   Hr2 Ht2 eq_refl Hf2)
    end.
    cbn [dispatch String.eqb Ascii.eqb Bool.eqb].
    unfold stopped, d, set_stop, set_dmm, set_queue; cbn.
    rewrite <- !app_assoc. reflexivity. }
  split; [exact Hcheck|].
  split.
  { destruct fuel as [|[|k]]; [lia | lia |].
    cbn [run_loop]. rewrite Hs, Hcheck.
    assert (Hstop : stop_event final = true).
    { unfold final, acquire.
      destruct (dev_read (dmm stopped)) as [o d'].
      destruct (read_measurement rt o) as [[a b]|e]; [|reflexivity].
      destruct (negb (is_none a)); reflexivity. }
    fold final. rewrite Hstop. reflexivity. }
  split.
  { unfold final, acquire, dev_read. cbn [dmm stopped set_stop set_dmm pending d].
    destruct rest as [|o rest'];
      match goal with
      | |- context [read_measurement rt ?o] =>
          destruct (read_measurement rt o) as [[a b]|e]
      end;
      try destruct (negb (is_none a)); cbn; rewrite <- ?app_assoc; reflexivity. }
  { unfold final, acquire.
    destruct (dev_read (dmm stopped)) as [o d'].
    destruct (read_measurement rt o) as [[a b]|e]; [|left; reflexivity].
    destruct (negb (is_none a)); [right | left; reflexivity].
    eexists. reflexivity. }
Qed.

Lemma configure_trigger_stop_witness :
  option_map (fun st => trace (dmm st))
    (run_loop 5 example_rt (fun _ => 3%float) 1
       (example_sampler ["SEND DSP1,F3"; "TRIGGER"; "STOP"]%string
          [RLine "1"; RFail VisaIOError; RLine "1"; RLine "DCVO 9.9E+37"]))
  = Some (handshake "DSP1,F3" 1 ++ handshake "*TRG" 2 ++ [ERead; EClose]).
Proof.
  rewrite (proj1 (proj2 (configure_trigger_stop example_rt (fun _ => 3%float) 1 5
             (example_sampler ["SEND DSP1,F3"; "TRIGGER"; "STOP"]%string
                [RLine "1"; RFail VisaIOError; RLine "1"; RLine "DCVO 9.9E+37"])
             "1" "1" [] [RFail VisaIOError] [RLine "DCVO 9.9E+37"]
             eq_refl eq_refl eq_refl eq_refl eq_refl eq_refl eq_refl
             ltac:(simpl; lia) ltac:(simpl; lia) ltac:(lia)))).
  reflexivity.
Defined.

(** C9 (as stated) fails on its last part: the termination flag is set while
    the queue is drained, and the read of the same iteration then appends a
    sample to the log. *)
Lemma sample_appended_after_stop :
  option_map (fun st => (stop_event st, data_list st))
    (check_commands 5
       (example_sampler ["SEND DSP1,F3"; "TRIGGER"; "STOP"]%string
          [RLine "1"; RLine "1"; RLine "DCVO 9.9E+37"]))
  = Some (true, [])
  /\ option_map data_list
       (run_loop 5 example_rt (fun _ => 3%float) 1
          (example_sampler ["SEND DSP1,F3"; "TRIGGER"; "STOP"]%string
             [RLine "1"; RLine "1"; RLine "DCVO 9.9E+37"]))
     = Some [(2%float, Overload, VNone)].
Proof. split; reflexivity. Qed.

(* ================================================================== *)
(** ** The window and the recording buffers *)
(* ================================================================== *)

(** C4, at two samples read in one tick in a ratio mode, the first with a
    zero on channel A: its derived value is Invalid, yet its timestamp is
    appended to [time_data] while the value is left out of
    [calculated_data]; selecting the window then raises [IndexError] and
    leaves the two buffers misaligned, the value 5 standing against the
    timestamp 0, where the from-scratch filter keeps the entry (1, 5). *)
Lemma window_keeps_invalid_timestamp :
  let r := update_from_shared_memory example_rt
             (example_app "10" false
                [(0%float, VFloat 0, VFloat 5); (1%float, VFloat 10, VFloat 2)]) in
  let pg := graph_display_page (snd r) in
  fst r = Raise IndexError
  /\ time_data pg = [0; 1]%float
  /\ calculated_data pg = [VFloat 5]
  /\ spec_window 10 [(0%float, Invalid); (1%float, VFloat 5)]
     = [(1%float, VFloat 5)]
  /\ combine (time_data pg) (calculated_data pg)
     <> spec_window 10 [(0%float, Invalid); (1%float, VFloat 5)].
Proof.
  vm_compute. repeat split. discriminate.
Qed.

(** C5, at two samples read in one tick while recording, five seconds
    apart, both with a valid derived value: with a span of 10 seconds both
    rows are recorded; with a span of 1 second the first entry is evicted
    from the window, the local lists are then rebuilt from the shortened
    buffers with the old indices, [IndexError] is raised and no row is
    recorded.  A tick with an Invalid value among valid ones loses its
    accepted entries in the same way at any span.  Starting a recording does
    clear the rows of the previous one. *)
Lemma recording_depends_on_span :
  recorded_data (toggle_recording "" true
                   (example_page "10" false [[VFloat 9; VFloat 9]]))
  = []
  /\ (let r := update_from_shared_memory example_rt
                 (example_app "10" true
                    [(0%float, VFloat 10, VFloat 2); (5%float, VFloat 10, VFloat 4)]) in
      fst r = Ok tt
      /\ recorded_data (graph_display_page (snd r))
         = spec_rows [(0%float, VFloat 5); (5%float, VFloat 2.5)])
  /\ (let r := update_from_shared_memory example_rt
                 (example_app "1" true
                    [(0%float, VFloat 10, VFloat 2); (5%float, VFloat 10, VFloat 4)]) in
      fst r = Raise IndexError
      /\ recorded_data (graph_display_page (snd r)) = []
      /\ spec_rows [(0%float, VFloat 5); (5%float, VFloat 2.5)]
         = [[VFloat 0; VFloat 5]; [VFloat 5; VFloat 2.5]])
  /\ (let r := update_from_shared_memory example_rt
                 (example_app "10" true
                    [(0%float, VFloat 10, VFloat 2); (1%float, VFloat 0, VFloat 2);
                     (2%float, VFloat 10, VFloat 4)]) in
      fst r = Raise IndexError
      /\ recorded_data (graph_display_page (snd r)) = []
      /\ spec_rows [(0%float, VFloat 5); (1%float, Invalid); (2%float, VFloat 2.5)]
         = [[VFloat 0; VFloat 5]; [VFloat 2; VFloat 2.5]]).
Proof.
  vm_compute. repeat split.
Qed.

Lemma header_columns (c : config) :
  header c
  = VStr "時間 (秒)"
      :: (if jig_mode c then
            [VStr (calculated_value_desc c ++ " (" ++ calculated_unit c ++ ")")]
          else
            VStr (ach_desc c ++ " (" ++ ach_unit c ++ ")")
              :: (if truthy (bch_desc c)
                  then [VStr (bch_desc c ++ " (" ++ bch_unit c ++ ")")]
                  else [])).
Proof.
  unfold header. destruct (jig_mode c), (truthy (bch_desc c)); reflexivity.
Qed.

(** C6 (as amended): stopping a recording clears the flag and leaves the
    captured buffer as it is (the next start, or [reset_graph], empties it).
    With rows captured, a path chosen in the save dialog and a write that
    succeeds, one file is written: a header row followed by the captured
    rows in order, one per entry.  The header row is the elapsed-time column
    followed by one column per retained series: the derived value in jig
    mode, named with the description and, in parentheses, the unit that
    [set_measurement_mode_descriptions] stored; channel A, and channel B when
    it is described, otherwise.  With the dialog cancelled nothing is
    written, and a failing write is reported.  With no row captured the only
    effect is the "nothing to save" message: no file is written. *)
Theorem stop_recording_exports
  (pg : page) (file_path : string) (io_ok : bool) :
  recording pg = true ->
  let pg' := toggle_recording file_path io_ok pg in
  recording pg' = false
  /\ recorded_data pg' = recorded_data pg
  /\ recorded_data (toggle_recording file_path io_ok pg') = []
  /\ (recorded_data pg = [] -> effects pg' = effects pg ++ [nothing_to_save])
  /\ (recorded_data pg <> [] -> truthy file_path = true -> io_ok = true ->
      effects pg'
      = effects pg
          ++ [FileWritten file_path (header (cfg pg) :: recorded_data pg);
              saved_to file_path])
  /\ (recorded_data pg <> [] -> truthy file_path = false ->
      effects pg' = effects pg)
  /\ (recorded_data pg <> [] -> truthy file_path = true -> io_ok = false ->
      effects pg' = effects pg ++ [save_failed])
  /\ (exists names,
        header (cfg pg) = VStr "時間 (秒)" :: names
        /\ List.length names
           = if jig_mode (cfg pg) then 1%nat
             else if truthy (bch_desc (cfg pg)) then 2%nat else 1%nat)
  /\ (jig_mode (cfg pg) = true ->
      header (cfg pg)
      = [VStr "時間 (秒)";
         VStr (calculated_value_desc (cfg pg) ++ " ("
                 ++ calculated_unit (cfg pg) ++ ")")])
  /\ (forall ach_desc bch_desc calculated_value_desc calculated_unit pg0,
        header (cfg (set_measurement_mode_descriptions ach_desc bch_desc true
                       calculated_value_desc calculated_unit pg0))
        = [VStr "時間 (秒)";
           VStr (calculated_value_desc ++ " (" ++ calculated_unit ++ ")")]).
Proof.
  intros Hrec pg'.
  assert (Hheader :
    (exists names,
        header (cfg pg) = VStr "時間 (秒)" :: names
        /\ List.length names
           = if jig_mode (cfg pg) then 1%nat
             else if truthy (bch_desc (cfg pg)) then 2%nat else 1%nat)
    /\ (jig_mode (cfg pg) = true ->
        header (cfg pg)
        = [VStr "時間 (秒)";
           VStr (calculated_value_desc (cfg pg) ++ " ("
                   ++ calculated_unit (cfg pg) ++ ")")])
    /\ (forall ach_desc bch_desc calculated_value_desc calculated_unit pg0,
          header (cfg (set_measurement_mode_descriptions ach_desc bch_desc true
                         calculated_value_desc calculated_unit pg0))
          = [VStr "時間 (秒)";
             VStr (calculated_value_desc ++ " (" ++ calculated_unit ++ ")")])).
  { split; [|split].
    - rewrite (header_columns (cfg pg)). eexists. split; [reflexivity|].
      destruct (jig_mode (cfg pg)); [reflexivity|].
      destruct (truthy (bch_desc (cfg pg))); reflexivity.
    - intros Hj. rewrite (header_columns (cfg pg)), Hj. reflexivity.
    - intros. reflexivity. }
  assert (Hflag : recording pg' = false).
  { unfold pg', toggle_recording, save_recorded_data. rewrite Hrec.
    cbn [negb recorded_data set_recording].
    destruct (is_nil (recorded_data pg)); [reflexivity|].
    destruct (truthy file_path); [|reflexivity].
    destruct io_ok; reflexivity. }
  split; [exact Hflag|].
  split.
  { unfold pg', toggle_recording, save_recorded_data. rewrite Hrec.
    cbn [negb recorded_data set_recording].
    destruct (is_nil (recorded_data pg)); [reflexivity|].
    destruct (truthy file_path); [|reflexivity].
    destruct io_ok; reflexivity. }
  split.
  { unfold toggle_recording at 1. rewrite Hflag. reflexivity. }
  unfold pg', toggle_recording, save_recorded_data. rewrite Hrec.
  cbn [negb recorded_data set_recording cfg].
  destruct (recorded_data pg) as [|row rows] eqn:Hrows; cbn [is_nil].
  - split; [reflexivity|].
    repeat (split; [intros H; now contradiction H|]). exact Hheader.
  - split; [discriminate|].
    split; [intros _ -> ->; cbn; rewrite <- app_assoc; reflexivity|].
    split; [intros _ ->; reflexivity|].
    split; [|exact Hheader].
    intros _ -> ->. reflexivity.
Qed.

Lemma stop_recording_exports_witness :
  effects (toggle_recording "out.csv" true
             (example_page "10" true [[VFloat 0; VFloat 1]; [VFloat 1; VFloat 2]]))
  = [FileWritten "out.csv"
       [[VStr "時間 (秒)"; VStr "R (Ω)"]; [VFloat 0; VFloat 1]; [VFloat 1; VFloat 2]];
     saved_to "out.csv"]
  /\ effects (toggle_recording "out.csv" true (example_page "10" true []))
     = [nothing_to_save].
Proof.
  split.
  - apply (stop_recording_exports
             (example_page "10" true [[VFloat 0; VFloat 1]; [VFloat 1; VFloat 2]])
             "out.csv" true eq_refl); [discriminate | reflexivity | reflexivity].
  - apply (stop_recording_exports (example_page "10" true []) "out.csv" true eq_refl).
    reflexivity.
Defined.

(** C6 (as stated) fails on "and then clears the buffer": after the stop
    that exported them, the captured rows are still in [recorded_data]. *)
Lemma stop_keeps_buffer :
  recorded_data (toggle_recording "out.csv" true
                   (example_page "10" true [[VFloat 0; VFloat 1]]))
  = [[VFloat 0; VFloat 1]]
  /\ recorded_data (toggle_recording "out.csv" true
                      (example_page "10" true [[VFloat 0; VFloat 1]]))
     <> [].
Proof. split; [reflexivity | discriminate]. Qed.

(* ================================================================== *)
(** ** The window on a tick without Invalid values *)
(* ================================================================== *)

Lemma index_app_here {A : Type} (pre rest : list A) (x : A) :
  index (pre ++ x :: rest) (List.length pre) = Ok x.
Proof.
  unfold index. rewrite nth_error_app2 by lia.
  rewrite Nat.sub_diag. reflexivity.
Qed.

Lemma select_window {A : Type} (lo hi : PrimFloat.float) :
  forall (times : list PrimFloat.float) (vals pre : list A),
    List.length vals = List.length times ->
    select (pre ++ vals) (indices_from (List.length pre) lo hi times)
    = Ok (map snd (filter (fun e => in_window lo hi (fst e))
                          (combine times vals))).
Proof.
  induction times as [|t times IH]; intros vals pre Hlen.
  - reflexivity.
  - destruct vals as [|v vals]; [discriminate Hlen|].
    injection Hlen as Hlen.
    assert (Hrest :
      select (pre ++ v :: vals) (indices_from (S (List.length pre)) lo hi times)
      = Ok (map snd (filter (fun e => in_window lo hi (fst e))
                            (combine times vals)))).
    { specialize (IH vals (pre ++ [v]) Hlen).
      rewrite <- app_assoc, length_app in IH. cbn [List.length app] in IH.
      rewrite Nat.add_1_r in IH. exact IH. }
    cbn [indices_from combine filter fst].
    destruct (in_window lo hi t).
    + cbn [select]. rewrite index_app_here, Hrest. reflexivity.
    + exact Hrest.
Qed.

Lemma filter_inf_all (tc : list (PrimFloat.float * value)) :
  Forall (fun e => math_isinf (snd e) = Ok false) tc ->
  filter_inf tc = Ok (map fst tc, map snd tc).
Proof.
  induction 1 as [|[t c] rest Hc _ IH]; [reflexivity|].
  cbn [filter_inf]. cbn [snd] in Hc. rewrite Hc, IH. reflexivity.
Qed.

Lemma combine_fst {A B : Type} (l : list A) (l' : list B) :
  List.length l = List.length l' -> map fst (combine l l') = l.
Proof.
  revert l'. induction l as [|a l IH]; intros [|b l'] H; try discriminate;
    [reflexivity|].
  injection H as H. simpl. now rewrite IH.
Qed.

Lemma combine_snd {A B : Type} (l : list A) (l' : list B) :
  List.length l = List.length l' -> map snd (combine l l') = l'.
Proof.
  revert l'. induction l as [|a l IH]; intros [|b l'] H; try discriminate;
    [reflexivity|].
  injection H as H. simpl. now rewrite IH.
Qed.

Lemma window_pairs {A : Type} (keep : PrimFloat.float -> bool) :
  forall (times : list PrimFloat.float) (vals : list A),
    List.length vals = List.length times ->
    combine (map snd (filter (fun e => keep (fst e)) (combine times times)))
            (map snd (filter (fun e => keep (fst e)) (combine times vals)))
    = filter (fun e => keep (fst e)) (combine times vals).
Proof.
  induction times as [|t times IH]; intros [|v vals] H; try discriminate;
    [reflexivity|].
  injection H as H. cbn [combine filter fst].
  destruct (keep t); cbn [map snd combine]; rewrite IH by assumption; reflexivity.
Qed.

Lemma window_lengths {A B : Type} (keep : PrimFloat.float -> bool) :
  forall (times : list PrimFloat.float) (va : list A) (vb : list B),
    List.length va = List.length times ->
    List.length vb = List.length times ->
    List.length (map snd (filter (fun e => keep (fst e)) (combine times va)))
    = List.length (map snd (filter (fun e => keep (fst e)) (combine times vb))).
Proof.
  induction times as [|t times IH]; intros [|a va] [|b vb] Ha Hb;
    try discriminate; [reflexivity|].
  injection Ha as Ha. injection Hb as Hb. cbn [combine filter fst].
  destruct (keep t); cbn [map List.length]; rewrite (IH va vb Ha Hb); reflexivity.
Qed.

Lemma frames_gret {A : Type} (a : A) : frames (gret a).
Proof. intros pg; split; reflexivity. Qed.

Lemma frames_lift {A : Type} (r : result A) : frames (lift r).
Proof. intros pg; split; reflexivity. Qed.

Lemma frames_get : frames get.
Proof. intros pg; split; reflexivity. Qed.

Lemma frames_gbind {A B : Type} (m : gui A) (k : A -> gui B) :
  frames m -> (forall a, frames (k a)) -> frames (gbind m k).
Proof.
  intros Hm Hk pg. unfold gbind.
  destruct (Hm pg) as [H1 H2].
  destruct (m pg) as [[a|e] pg']; cbn [snd] in *.
  - destruct (Hk a pg') as [H3 H4]. split; congruence.
  - split; assumption.
Qed.

Lemma frames_modify (f : page -> page) :
  (forall pg, time_data (f pg) = time_data pg
              /\ calculated_data (f pg) = calculated_data pg) ->
  frames (modify f).
Proof. intros H pg. apply H. Qed.

Lemma frames_show_labels (rt : runtime) (jig : bool)
  (ach_values bch_values calculated_values : list value) :
  frames (show_labels rt jig ach_values bch_values calculated_values).
Proof.
  unfold show_labels.
  apply frames_gbind; [apply frames_get|]. intros pg.
  destruct jig.
  - apply frames_gbind; [apply frames_lift|]. intros text.
    apply frames_modify. intros; split; reflexivity.
  - apply frames_gbind.
    + destruct (negb (is_nil ach_values)); [|apply frames_gret].
      apply frames_gbind; [apply frames_lift|]. intros text.
      apply frames_modify. intros; split; reflexivity.
    + intros _.
      destruct (truthy (bch_desc (cfg pg)) && negb (is_nil bch_values));
        [|apply frames_gret].
      apply frames_gbind; [apply frames_lift|]. intros text.
      apply frames_modify. intros; split; reflexivity.
Qed.

Lemma frames_record_calculated (tc : list (PrimFloat.float * value)) :
  frames (record_calculated tc).
Proof.
  induction tc as [|[t c] rest IH]; [apply frames_gret|].
  cbn [record_calculated].
  apply frames_gbind; [apply frames_lift|]. intros inf.
  apply frames_gbind; [|intros _; exact IH].
  destruct inf; [apply frames_gret|].
  apply frames_modify. intros; split; reflexivity.
Qed.

Lemma frames_record_channels (with_b : bool)
  (tab : list (PrimFloat.float * value * value)) :
  frames (record_channels with_b tab).
Proof.
  induction tab as [|[[t a] b] rest IH]; [apply frames_gret|].
  cbn [record_channels].
  apply frames_gbind; [|intros _; exact IH].
  apply frames_modify. intros; split; reflexivity.
Qed.

Lemma frames_record (jig : bool) (ach_values bch_values : list value)
  (time_values : list PrimFloat.float) (calculated_values : list value) :
  frames (record jig ach_values bch_values time_values calculated_values).
Proof.
  unfold record.
  apply frames_gbind; [apply frames_get|]. intros pg.
  destruct (recording pg); [|apply frames_gret].
  destruct jig; [apply frames_record_calculated | apply frames_record_channels].
Qed.

Lemma keep_window_buffers (bch_values : list value) (lo hi : PrimFloat.float)
  (pg : page) :
  List.length (calculated_data pg) = List.length (time_data pg) ->
  let pg' := snd (keep_window true bch_values lo hi pg) in
  time_data pg'
  = map snd (filter (fun e => in_window lo hi (fst e))
                    (combine (time_data pg) (time_data pg)))
  /\ calculated_data pg'
     = map snd (filter (fun e => in_window lo hi (fst e))
                       (combine (time_data pg) (calculated_data pg))).
Proof.
  intros Halign.
  pose proof (select_window lo hi (time_data pg) (time_data pg) [] eq_refl) as Ht.
  pose proof (select_window lo hi (time_data pg) (calculated_data pg) [] Halign)
    as Hc.
  cbn [List.length List.app] in Ht, Hc.
  unfold keep_window, gbind, get, lift, modify, gret.
  rewrite Ht.
  cbn [fst snd set_time_data set_calculated_data time_data calculated_data].
  rewrite Hc.
  cbn [fst snd set_time_data set_calculated_data time_data calculated_data].
  clear Ht Hc.
  repeat match goal with
         | |- context [match select ?l ?i with _ => _ end] =>
             destruct (select l i)
         end;
    split; reflexivity.
Qed.

(** On a tick in jig mode whose derived values are all numbers other than
    the infinities, with buffers of equal length before it, [update_graph]
    leaves in the buffers exactly the entries, old and new, whose timestamp
    lies within the bounds of the window, in order; this holds whether or not
    the method then raises. *)
Lemma update_graph_window
  (rt : runtime) (pg : page) (tv : list PrimFloat.float) (cv : list value)
  (lo hi : PrimFloat.float) :
  jig_mode (cfg pg) = true ->
  cv <> [] ->
  List.length tv = List.length cv ->
  Forall (fun c => math_isinf c = Ok false) cv ->
  List.length (calculated_data pg) = List.length (time_data pg) ->
  window_bounds rt (set_time_data (time_data pg ++ tv) pg) = Ok (lo, hi) ->
  let pg' := snd (update_graph rt [] [] tv cv pg) in
  combine (time_data pg') (calculated_data pg')
  = filter (fun e => in_window lo hi (fst e))
           (combine (time_data pg ++ tv) (calculated_data pg ++ cv))
  /\ List.length (calculated_data pg') = List.length (time_data pg').
Proof.
  intros Hjig Hcv Hlen Hinf Halign Hbounds pg'.
  set (T := time_data pg ++ tv) in *. set (C := calculated_data pg ++ cv).
  assert (HTC : List.length C = List.length T).
  { unfold C, T. rewrite !length_app. lia. }
  assert (Hnil : is_nil cv = false) by (destruct cv; [congruence | reflexivity]).
  assert (HT : is_nil T = false).
  { unfold T. destruct tv; [destruct cv; [congruence | discriminate Hlen]|].
    destruct (time_data pg); reflexivity. }
  assert (Hfilter : filter_inf (combine tv cv) = Ok (tv, cv)).
  { rewrite filter_inf_all.
    - rewrite combine_fst, combine_snd by assumption. reflexivity.
    - clear -Hinf Hlen. revert tv Hlen.
      induction Hinf as [|c cv Hc _ IH]; intros [|t tv] Hlen; try discriminate;
        constructor; [exact Hc | apply IH; now injection Hlen]. }
  set (rest := gbind (show_labels rt true [] [] cv)
                 (fun _ => record true [] [] tv cv)).
  assert (Hrun :
    update_graph rt [] [] tv cv pg
    = gbind (keep_window true [] lo hi) (fun _ => rest)
        (set_calculated_data C (set_time_data T pg))).
  { unfold rest, update_graph, extend_values.
    unfold gbind, modify, get, lift, gret.
    cbn [fst snd set_time_data set_calculated_data time_data calculated_data cfg].
    fold T. rewrite HT, Hjig, Hnil. cbn [andb negb]. rewrite Hfilter.
    cbn [fst snd set_time_data set_calculated_data time_data calculated_data cfg].
    fold C.
    change (window_bounds rt (set_calculated_data C (set_time_data T pg)))
      with (window_bounds rt (set_time_data T pg)).
    rewrite Hbounds. reflexivity. }
  assert (Hrest : frames rest).
  { apply frames_gbind; [apply frames_show_labels|].
    intros _. apply frames_record. }
  pose proof (keep_window_buffers [] lo hi
                (set_calculated_data C (set_time_data T pg)) HTC) as [Kt Kc].
  cbn [set_time_data set_calculated_data time_data calculated_data] in Kt, Kc.
  assert (Hbuf : time_data pg' = map snd (filter (fun e => in_window lo hi (fst e))
                                            (combine T T))
                 /\ calculated_data pg'
                    = map snd (filter (fun e => in_window lo hi (fst e))
                                      (combine T C))).
  { unfold pg'. rewrite Hrun. unfold gbind.
    destruct (keep_window true [] lo hi
                (set_calculated_data C (set_time_data T pg))) as [[u|e] pg4];
      cbn [snd] in *; [|split; assumption].
    destruct (Hrest pg4) as [F1 F2]. split; congruence. }
  destruct Hbuf as [-> ->]. split.
  - apply window_pairs. exact HTC.
  - apply window_lengths; [exact HTC | reflexivity].
Qed.

(** A tick of two valid entries five seconds apart with a span of one
    second: the buffers keep the later entry alone. *)
Example update_graph_window_evicts :
  let pg' := snd (update_graph example_rt [] [] [0; 5]%float [VFloat 1; VFloat 2]
                    (example_page "1" false [])) in
  combine (time_data pg') (calculated_data pg') = [(5%float, VFloat 2)].
Proof.
  assert (Hvalid : Forall (fun c => math_isinf c = Ok false) [VFloat 1; VFloat 2])
    by (repeat constructor).
  exact (proj1 (update_graph_window example_rt (example_page "1" false [])
                  [0; 5]%float [VFloat 1; VFloat 2] 4 5
                  eq_refl ltac:(discriminate) eq_refl Hvalid eq_refl eq_refl)).
Qed.

(* ================================================================== *)
(** ** More on the command queue and the completion handshake *)
(* ================================================================== *)

Lemma substring_all (s : string) : substring 0 (String.length s) s = s.
Proof. induction s as [|c s IH]; simpl; [reflexivity | now rewrite IH]. Qed.

(** A Configure request carries its text through the queue unchanged:
    whatever [cmd] is, the request ["SEND " ++ cmd] is dispatched as the
    completion handshake of exactly [cmd], never as a Stop or a Trigger. *)
Theorem send_request_round_trip (fuel : nat) (st : sampler) (cmd : string) :
  dispatch fuel st ("SEND " ++ cmd) = send_command fuel st cmd.
Proof.
  unfold dispatch, startswith, slice_from. cbn.
  rewrite Nat.sub_0_r, substring_all. destruct cmd; reflexivity.
Qed.

Lemma poll_opc_aborts (retries : list read_outcome) :
  forall (fuel : nat) (d : device) (e : exn) (rest : list read_outcome),
    forallb retried retries = true ->
    e <> VisaIOError ->
    pending d = retries ++ RFail e :: rest ->
    (List.length retries < fuel)%nat ->
    poll_opc fuel d
    = Some ({| pending := rest;
               trace := trace d ++ repeat ERead (S (List.length retries)) |},
            Some e).
Proof.
  induction retries as [|o retries IH]; intros fuel d e rest Hr He Hp Hfuel.
  - destruct fuel as [|k]; [inversion Hfuel|].
    simpl in Hp. cbn [poll_opc]. unfold dev_read. rewrite Hp.
    destruct e; try reflexivity. congruence.
  - destruct fuel as [|k]; [inversion Hfuel|].
    simpl in Hp, Hr. apply andb_prop in Hr as [Ho Hr].
    cbn [poll_opc]. unfold dev_read. rewrite Hp.
    assert (Hnext :
      poll_opc k {| pending := retries ++ RFail e :: rest;
                    trace := trace d ++ [ERead] |}
      = Some ({| pending := rest;
                 trace := trace d ++ repeat ERead (S (S (List.length retries))) |},
              Some e)).
    { rewrite (IH k {| pending := retries ++ RFail e :: rest;
                       trace := trace d ++ [ERead] |} e rest Hr He eq_refl)
        by (simpl in Hfuel; lia).
      cbn [trace]. rewrite <- app_assoc. reflexivity. }
    destruct o as [s|e'].
    + simpl in Ho. destruct (String.eqb (strip s) "1"); [discriminate Ho|].
      exact Hnext.
    + destruct e'; try discriminate Ho. exact Hnext.
Qed.

(** A read that fails with anything but a [VisaIOError] ends the handshake:
    the exception is printed, the command is not retried, and the sampler
    goes on with the reads made so far as the only trace. *)
Theorem handshake_aborts_on_error
  (fuel : nat) (st : sampler) (command : string) (e : exn)
  (retries rest : list read_outcome) :
  forallb retried retries = true ->
  e <> VisaIOError ->
  pending (dmm st) = retries ++ RFail e :: rest ->
  (List.length retries < fuel)%nat ->
  send_command fuel st command
  = Some (print_exn
            (set_dmm st
               {| pending := rest;
                  trace := trace (dmm st)
                             ++ handshake command (S (List.length retries)) |})
            e).
Proof.
  intros Hr He Hp Hfuel. unfold send_command.
  rewrite (poll_opc_aborts retries fuel
             (dev_write (dev_write (dev_clear (dev_write (dmm st) "*CLS")) command)
                        "*OPC?")
             e rest Hr He Hp Hfuel).
  unfold handshake, dev_write, dev_clear; cbn [trace pending].
  rewrite <- !app_assoc. reflexivity.
Qed.

Lemma handshake_aborts_on_error_witness :
  send_command 3 (example_sampler [] [RLine "0"; RFail OtherError; RLine "1"])
               "DSP1,F1"
  = Some (print_exn
            (set_dmm (example_sampler [] [])
               {| pending := [RLine "1"];
                  trace := handshake "DSP1,F1" 2 |})
            OtherError).
Proof.
  apply (handshake_aborts_on_error 3
           (example_sampler [] [RLine "0"; RFail OtherError; RLine "1"])
           "DSP1,F1" OtherError [RLine "0"] [RLine "1"]);
    [reflexivity | discriminate | reflexivity | simpl; lia].
Defined.




Lemma drain_sends (fuel : nat) (commands : list string) :
  forall (answers : list (list read_outcome * string)) (st : sampler)
         (rest : list read_outcome),
    command_queue st = map (fun cmd => ("SEND " ++ cmd)%string) commands ->
    List.length answers = List.length commands ->
    forallb completes answers = true ->
    pending (dmm st) = flat_map answer_reads answers ++ rest ->
    Forall (fun a => (List.length (fst a) < fuel)%nat) answers ->
    drain fuel (map (fun cmd => ("SEND " ++ cmd)%string) commands) st
    = Some (set_dmm (set_queue st [])
              {| pending := rest;
                 trace := trace (dmm st) ++ handshakes commands answers |}).
Proof.
  induction commands as [|c commands IH]; intros answers st rest Hq Hlen Hc Hp Hf.
  - destruct answers; [|discriminate Hlen].
    destruct st as [[p t] q l s r n pr]; simpl in *. subst.
    rewrite app_nil_r. reflexivity.
  - destruct answers as [|[retries tok] answers]; [discriminate Hlen|].
    injection Hlen as Hlen. simpl in Hc.
    apply andb_prop in Hc as [Ha Hc].
    unfold completes in Ha; cbn [fst snd] in Ha.
    apply andb_prop in Ha as [Hr Htok]. apply String.eqb_eq in Htok.
    inversion Hf as [|? ? Hfa Hfrest]; subst. cbn [fst] in Hfa.
    cbn [map drain]. rewrite send_request_round_trip.
    cbn [flat_map] in Hp.
    change (answer_reads (retries, tok)) with (retries ++ [RLine tok]) in Hp.
    rewrite <- !app_assoc in Hp. cbn [List.app] in Hp.
    rewrite (send_command_completes fuel
               (set_queue st (map (fun cmd => ("SEND " ++ cmd)%string) commands))
               c tok retries (flat_map answer_reads answers ++ rest)
               Hr Htok Hp Hfa).
    match goal with
    | |- match drain fuel _ ?s with _ => _ end = _ =>
        rewrite (IH answers s rest eq_refl Hlen Hc eq_refl Hfrest)
    | |- drain fuel _ ?s = _ =>
        rewrite (IH answers s rest eq_refl Hlen Hc eq_refl Hfrest)
    end.
    cbn [handshakes fst set_dmm set_queue dmm trace command_queue data_list
         stop_event is_ready_event ticks printed].
    rewrite <- !app_assoc. reflexivity.
Qed.

(** The commands of a session are executed in the order they were
    enqueued, each handshake completing before the next one starts: with the
    queue [start_measurement] fills and an instrument that answers every
    completion query (after any number of retried reads), draining the queue
    makes the handshake of ["*RST"], then the handshake of each setup command
    in turn, and nothing else; the queue is left empty and the log
    untouched. *)
Theorem setup_commands_run_in_order
  (fuel : nat) (st : sampler) (commands : list string)
  (answers : list (list read_outcome * string)) (rest : list read_outcome) :
  command_queue st = start_measurement commands [] ->
  List.length answers = S (List.length commands) ->
  forallb completes answers = true ->
  pending (dmm st) = flat_map answer_reads answers ++ rest ->
  Forall (fun a => (List.length (fst a) < fuel)%nat) answers ->
  check_commands fuel st
  = Some (set_dmm (set_queue st [])
            {| pending := rest;
               trace := trace (dmm st)
                          ++ handshakes ("*RST"%string :: commands) answers |}).
Proof.
  intros Hq Hlen Hc Hp Hf. unfold check_commands. rewrite Hq.
  apply (drain_sends fuel ("*RST"%string :: commands) answers st rest);
    assumption.
Qed.

Lemma setup_commands_run_in_order_witness :
  option_map (fun st => trace (dmm st))
    (check_commands 4
       (example_sampler (start_measurement ["DSP1,F1"; "TRS0"]%string [])
          [RLine "1"; RFail VisaIOError; RLine "1"; RLine "1"; RLine "DCV_ 1"]))
  = Some (handshake "*RST" 1 ++ handshake "DSP1,F1" 2 ++ handshake "TRS0" 1).
Proof.
  rewrite (setup_commands_run_in_order 4
             (example_sampler (start_measurement ["DSP1,F1"; "TRS0"]%string [])
                [RLine "1"; RFail VisaIOError; RLine "1"; RLine "1"; RLine "DCV_ 1"])
             ["DSP1,F1"; "TRS0"]%string
             [([], "1"); ([RFail VisaIOError], "1"); ([], "1")]%string
             [RLine "DCV_ 1"] eq_refl eq_refl eq_refl eq_refl).
  - reflexivity.
  - repeat constructor.
Defined.

(* ================================================================== *)
(** ** Invariants of the sampler *)
(* ================================================================== *)

Lemma poll_opc_trace (fuel : nat) :
  forall d d' r, poll_opc fuel d = Some (d', r) ->
    exists tr, trace d' = trace d ++ tr /\ Forall (fun ev => ev <> EClose) tr.
Proof.
  induction fuel as [|k IH]; intros d d' r H; [discriminate H|].
  cbn [poll_opc] in H. unfold dev_read in H.
  assert (Hstep : forall p, 
            (exists tr, trace d' = trace {| pending := p; trace := trace d ++ [ERead] |} ++ tr
                        /\ Forall (fun ev => ev <> EClose) tr) ->
            exists tr, trace d' = trace d ++ tr /\ Forall (fun ev => ev <> EClose) tr).
  { intros p (tr & Ht & Hn). exists (ERead :: tr).
    cbn [trace] in Ht. rewrite Ht, <- app_assoc. split; [reflexivity|].
    constructor; [discriminate | exact Hn]. }
  assert (Hdone : forall p, d' = {| pending := p; trace := trace d ++ [ERead] |} ->
            exists tr, trace d' = trace d ++ tr /\ Forall (fun ev => ev <> EClose) tr).
  { intros p ->. exists [ERead]. split; [reflexivity|].
    constructor; [discriminate | constructor]. }
  destruct (pending d) as [|o rest].
  - apply (Hstep []). eapply IH; eassumption.
  - destruct o as [s|e].
    + destruct (String.eqb (strip s) "1").
      * injection H as <- _. eapply Hdone; reflexivity.
      * apply (Hstep rest). eapply IH; eassumption.
    + destruct e;
        try (injection H as <- _; eapply Hdone; reflexivity);
        apply (Hstep rest); eapply IH; eassumption.
Qed.

Lemma same_but_device_refl (st : sampler) : same_but_device st st.
Proof.
  repeat split. exists []. rewrite app_nil_r. split; [reflexivity | constructor].
Qed.

Lemma same_but_device_trans (a b c : sampler) :
  same_but_device a b -> same_but_device b c -> same_but_device a c.
Proof.
  intros (D1 & T1 & R1 & tr1 & E1 & N1) (D2 & T2 & R2 & tr2 & E2 & N2).
  repeat split; try congruence.
  exists (tr1 ++ tr2). rewrite E2, E1, app_assoc. split; [reflexivity|].
  apply Forall_app; split; assumption.
Qed.

Lemma send_command_same (fuel : nat) (st st' : sampler) (command : string) :
  send_command fuel st command = Some st' ->
  same_but_device st st' /\ stop_event st' = stop_event st
  /\ command_queue st' = command_queue st.
Proof.
  unfold send_command.
  destruct (poll_opc fuel _) as [[d r]|] eqn:Hpoll; [|discriminate].
  apply poll_opc_trace in Hpoll as (tr & Ht & Hn).
  cbn [dev_write dev_clear trace] in Ht.
  assert (Htrace : exists tr', trace d = trace (dmm st) ++ tr'
                               /\ Forall (fun ev => ev <> EClose) tr').
  { exists ([EWrite "*CLS"; EClear; EWrite command; EWrite "*OPC?"] ++ tr).
    rewrite Ht, <- !app_assoc. split; [reflexivity|].
    repeat (constructor; [discriminate|]). exact Hn. }
  destruct r as [e|]; intros H; injection H as <-;
    (split; [repeat split; exact Htrace | split; reflexivity]).
Qed.

Lemma drain_same (fuel : nat) (queue : list string) :
  forall st st', drain fuel queue st = Some st' ->
    same_but_device st st'
    /\ stop_event st'
       = stop_event st || existsb (fun c => String.eqb c "STOP") queue
    /\ command_queue st' = match queue with
                           | [] => command_queue st
                           | _ :: _ => []
                           end.
Proof.
  induction queue as [|command rest IH]; intros st st' H.
  - injection H as <-. split; [apply same_but_device_refl|].
    split; [now rewrite orb_false_r | reflexivity].
  - cbn [drain] in H.
    destruct (dispatch fuel (set_queue st rest) command) as [st1|] eqn:E;
      [|discriminate H].
    apply IH in H as (S2 & Hstop & Hq).
    assert (Hd : same_but_device st st1
                 /\ stop_event st1 = stop_event st || String.eqb command "STOP"
                 /\ command_queue st1 = rest).
    { unfold dispatch in E.
      destruct (String.eqb command "STOP").
      - injection E as <-. split; [apply (same_but_device_refl st)|].
        split; [now rewrite orb_true_r | reflexivity].
      - rewrite orb_false_r.
        destruct (startswith command "SEND ").
        { apply send_command_same in E as (S1 & E1 & E2).
          split; [exact S1 | split; assumption]. }
        destruct (String.eqb command "TRIGGER").
        { apply send_command_same in E as (S1 & E1 & E2).
          split; [exact S1 | split; assumption]. }
        injection E as <-. split; [apply (same_but_device_refl st)|].
        split; reflexivity. }
    destruct Hd as (S1 & Hstop1 & Hq1).
    split; [eapply same_but_device_trans; eassumption|].
    split.
    + rewrite Hstop, Hstop1. cbn [existsb]. now rewrite orb_assoc.
    + rewrite Hq, Hq1. destruct rest; reflexivity.
Qed.

Lemma send_command_outside (fuel : nat) (a b : sampler) (command : string) :
  outside a = outside b ->
  option_map outside (send_command fuel a command)
  = option_map outside (send_command fuel b command).
Proof.
  unfold outside. intros H. injection H as Hd Hp.
  unfold send_command. rewrite Hd.
  destruct (poll_opc fuel _) as [[d [e|]]|]; cbn; rewrite ?Hp; reflexivity.
Qed.

Lemma drain_without_stop (fuel : nat) (queue : list string) :
  forall a b,
    outside a = outside b ->
    option_map outside (drain fuel queue a)
    = option_map outside (drain fuel (without_stop queue) b).
Proof.
  induction queue as [|command rest IH]; intros a b H.
  - cbn. rewrite H. reflexivity.
  - cbn [drain without_stop filter]. fold (without_stop rest).
    unfold dispatch.
    destruct (String.eqb command "STOP") eqn:Es; cbn [negb].
    + apply IH. exact H.
    + cbn [drain]. unfold dispatch. rewrite Es.
      assert (Hsend : forall c,
                match send_command fuel (set_queue a rest) c,
                      send_command fuel (set_queue b (without_stop rest)) c with
                | Some a', Some b' => outside a' = outside b'
                | None, None => True
                | _, _ => False
                end).
      { intros c.
        pose proof (send_command_outside fuel (set_queue a rest)
                      (set_queue b (without_stop rest)) c H) as Hs.
        destruct (send_command fuel (set_queue a rest) c),
          (send_command fuel (set_queue b (without_stop rest)) c);
          cbn [option_map] in Hs; try discriminate Hs; [congruence | exact I]. }
      destruct (startswith command "SEND ").
      { specialize (Hsend (slice_from 5 command)). cbv zeta.
        destruct (send_command fuel (set_queue a rest) _),
          (send_command fuel (set_queue b (without_stop rest)) _);
          try contradiction; [apply IH, Hsend | reflexivity]. }
      destruct (String.eqb command "TRIGGER").
      { specialize (Hsend "*TRG"%string).
        destruct (send_command fuel (set_queue a rest) _),
          (send_command fuel (set_queue b (without_stop rest)) _);
          try contradiction; [apply IH, Hsend | reflexivity]. }
      apply IH. exact H.
Qed.

(** Draining the queue consumes every command in it and touches neither
    the log nor the ready flag; the termination flag comes out set exactly
    when it was set before or a STOP was anywhere in the queue; the
    transport is never closed from here.  A STOP does not cut the queue
    short: the commands queued behind it are executed like the others, so
    that the instrument and the console are left exactly as by the same
    queue with its STOP requests taken out. *)
Theorem check_commands_drains_queue (fuel : nat) (st st' : sampler) :
  check_commands fuel st = Some st' ->
  command_queue st' = []
  /\ stop_event st'
     = stop_event st
       || existsb (fun c => String.eqb c "STOP") (command_queue st)
  /\ data_list st' = data_list st
  /\ is_ready_event st' = is_ready_event st
  /\ (exists tr, trace (dmm st') = trace (dmm st) ++ tr
                 /\ Forall (fun ev => ev <> EClose) tr)
  /\ option_map outside
       (check_commands fuel (set_queue st (without_stop (command_queue st))))
     = Some (outside st').
Proof.
  unfold check_commands. intros H.
  pose proof (drain_without_stop fuel (command_queue st) st
                (set_queue st (without_stop (command_queue st))) eq_refl) as Hw.
  rewrite H in Hw. cbn [option_map] in Hw.
  apply drain_same in H as ((D & T & R & Htr) & Hstop & Hq).
  split.
  { rewrite Hq. destruct (command_queue st); reflexivity. }
  repeat match goal with |- _ /\ _ => split end; try assumption.
  cbn [set_queue command_queue]. symmetry. exact Hw.
Qed.

Lemma check_commands_drains_queue_witness :
  option_map outside
    (check_commands 3
       (example_sampler ["STOP"; "SEND DSP1,F1"; "NOP"]%string [RLine "1"]))
  = Some ({| pending := []; trace := handshake "DSP1,F1" 1 |}, [])
  /\ option_map outside
       (check_commands 3 (example_sampler ["SEND DSP1,F1"; "NOP"]%string [RLine "1"]))
     = Some ({| pending := []; trace := handshake "DSP1,F1" 1 |}, []).
Proof.
  split; [reflexivity|].
  exact (proj2 (proj2 (proj2 (proj2 (proj2
           (check_commands_drains_queue 3
              (example_sampler ["STOP"; "SEND DSP1,F1"; "NOP"]%string [RLine "1"])
              (set_stop (set_dmm (example_sampler [] [])
                           {| pending := []; trace := handshake "DSP1,F1" 1 |}))
              eq_refl)))))).
Defined.

(** Strings that are none of the three requests are dropped: a queue of
    them is emptied with no instrument transaction at all, whatever the fuel,
    and nothing else changes. *)
Theorem unknown_commands_are_ignored (fuel : nat) (st : sampler) :
  forallb ignored (command_queue st) = true ->
  check_commands fuel st = Some (set_queue st []).
Proof.
  unfold check_commands.
  assert (H : forall queue st0, forallb ignored queue = true ->
                drain fuel queue (set_queue st0 queue) = Some (set_queue st0 [])).
  { induction queue as [|c rest IH]; intros st0 Hi; [reflexivity|].
    simpl in Hi. apply andb_prop in Hi as [Hc Hi].
    unfold ignored in Hc.
    apply andb_prop in Hc as [Hc Ht]. apply andb_prop in Hc as [Hs Hp].
    cbn [drain]. unfold dispatch.
    destruct (String.eqb c "STOP"); [discriminate Hs|].
    destruct (startswith c "SEND "); [discriminate Hp|].
    destruct (String.eqb c "TRIGGER"); [discriminate Ht|].
    apply (IH st0 Hi). }
  intros Hi. specialize (H (command_queue st) st Hi).
  destruct st as [d q l s r n pr]. exact H.
Qed.

Lemma unknown_commands_are_ignored_witness :
  check_commands 0 (example_sampler ["stop"; "SEND"; "TRIGGER "; ""]%string [])
  = Some (example_sampler [] []).
Proof.
  apply (unknown_commands_are_ignored 0
           (example_sampler ["stop"; "SEND"; "TRIGGER "; ""]%string [])).
  reflexivity.
Defined.

Lemma negative_zero_normalized (f : PrimFloat.float) :
  negative_zero (if negative_zero f then 0%float else f) = false.
Proof. destruct (negative_zero f) eqn:E; [reflexivity | exact E]. Qed.

Lemma spec_reading_parsed (rt : runtime) (part : string) (v : value) :
  spec_reading rt part = Some v -> parsed_reading v = true.
Proof.
  unfold spec_reading.
  destruct (split_ws part) as [|prefix [|value_str rest]]; try discriminate.
  destruct (endswith prefix "_").
  - destruct (float_of_str rt value_str); [|discriminate].
    intros H; injection H as <-. cbn [parsed_reading].
    now rewrite negative_zero_normalized.
  - destruct (endswith prefix "O"); [|discriminate].
    intros H; injection H as <-; reflexivity.
Qed.

Lemma spec_readings_parsed (rt : runtime) (parts : list string) :
  Forall (fun v => parsed_reading v = true) (spec_readings rt parts).
Proof.
  induction parts as [|part rest IH]; simpl; [constructor|].
  destruct (spec_reading rt part) as [v|] eqn:E; [|exact IH].
  constructor; [eapply spec_reading_parsed; eassumption | exact IH].
Qed.

(** What one pass through the [try] block of the loop does to the state. *)
Lemma acquire_step (rt : runtime) (clock : nat -> PrimFloat.float)
  (start : PrimFloat.float) (st : sampler) :
  let st' := acquire rt clock start st in
  stop_event st' = stop_event st
  /\ command_queue st' = command_queue st
  /\ trace (dmm st') = trace (dmm st) ++ [ERead]
  /\ ((data_list st' = data_list st /\ is_ready_event st' = is_ready_event st)
      \/ (exists x, data_list st' = data_list st ++ [x]
                    /\ parsed_sample x = true
                    /\ is_ready_event st' = true)).
Proof.
  unfold acquire.
  assert (Htrace : trace (snd (dev_read (dmm st))) = trace (dmm st) ++ [ERead]).
  { unfold dev_read. destruct (pending (dmm st)); reflexivity. }
  destruct (dev_read (dmm st)) as [o d] eqn:Hread. cbn [snd] in Htrace.
  destruct o as [line|e].
  - rewrite read_measurement_assign.
    pose proof (spec_readings_parsed rt (split_on "," line)) as Hp.
    pose proof (spec_readings_not_none rt (split_on "," line)) as Hn.
    destruct Hn as [|a rest Ha Hrest].
    + cbn. repeat split; try assumption. left. split; reflexivity.
    + inversion Hp as [|? ? Hpa Hprest]; subst.
      rewrite (assign_first_two (a :: rest)) by (constructor; assumption).
      cbn [nth fst]. rewrite Ha. cbv iota. rewrite Ha. cbn [negb].
      cbn [append_sample set_dmm stop_event command_queue dmm data_list
           is_ready_event ticks].
      repeat split; try assumption. right.
      eexists. split; [reflexivity|]. split; [|reflexivity].
      cbn [parsed_sample]. rewrite Hpa. cbn [andb].
      destruct rest as [|b rest']; [reflexivity|].
      inversion Hprest; subst. cbn [nth].
      match goal with H : parsed_reading b = true |- _ => rewrite H end.
      apply orb_true_r.
  - unfold read_measurement. cbn [bind try_except].
    destruct (exn_eqb e VisaIOError); cbn;
      repeat split; try assumption; left; split; reflexivity.
Qed.

(** When the sampler returns, the log it was given is a prefix of the log it
    leaves: entries are only appended, never changed or removed.  Every
    appended sample has a reading on channel A (a number other than the
    negative zero, or the Overload sentinel, never [None]) and a reading or
    [None] on channel B.  The ready flag is never cleared and is set as soon
    as one sample was appended.  On return the termination flag is set, the
    queue was consumed or never looked at, and the transport was closed
    exactly once, by the last transaction. *)
Theorem sampler_log_is_append_only
  (fuel : nat) (rt : runtime) (clock : nat -> PrimFloat.float)
  (start : PrimFloat.float) :
  forall st st',
    run_loop fuel rt clock start st = Some st' ->
    (exists new,
        data_list st' = data_list st ++ new
        /\ forallb parsed_sample new = true
        /\ (new <> [] -> is_ready_event st' = true))
    /\ (is_ready_event st = true -> is_ready_event st' = true)
    /\ stop_event st' = true
    /\ exists tr, trace (dmm st') = trace (dmm st) ++ tr ++ [EClose]
                  /\ Forall (fun ev => ev <> EClose) tr.
Proof.
  induction fuel as [|k IH]; intros st st' H; [discriminate H|].
  cbn [run_loop] in H.
  destruct (stop_event st) eqn:Hs.
  - injection H as <-. cbn.
    split; [exists []; rewrite app_nil_r; repeat split; congruence|].
    split; [auto|]. split; [exact Hs|].
    exists []. split; [reflexivity | constructor].
  - destruct (check_commands (S k) st) as [st1|] eqn:Hc; [|discriminate H].
    unfold check_commands in Hc.
    apply drain_same in Hc as ((Hd1 & _ & Hr1 & tr1 & Ht1 & Hn1) & _ & _).
    pose proof (acquire_step rt clock start st1) as (_ & _ & Ht2 & Hcase).
    apply IH in H as ((new & Hd3 & Hp3 & Hr3) & Hkeep & Hstop & tr3 & Ht3 & Hn3).
    assert (Htrace : exists tr, trace (dmm st') = trace (dmm st) ++ tr ++ [EClose]
                                /\ Forall (fun ev => ev <> EClose) tr).
    { exists (tr1 ++ [ERead] ++ tr3). rewrite Ht3, Ht2, Ht1.
      rewrite <- !app_assoc. split; [reflexivity|].
      apply Forall_app; split; [exact Hn1|].
      constructor; [discriminate | exact Hn3]. }
    destruct Hcase as [(Hd2 & Hr2) | (x & Hd2 & Hx & Hr2)].
    + split.
      { exists new. rewrite Hd3, Hd2, Hd1. repeat split; assumption. }
      split; [intros Hr; apply Hkeep; congruence|].
      split; assumption.
    + split.
      { exists (x :: new). rewrite Hd3, Hd2, Hd1, <- app_assoc.
        split; [reflexivity|]. split; [cbn; now rewrite Hx|].
        intros _. apply Hkeep, Hr2. }
      split; [intros _; apply Hkeep, Hr2|].
      split; assumption.
Qed.

Lemma sampler_log_is_append_only_witness :
  option_map data_list
    (run_loop 4 example_rt (fun _ => 3%float) 1
       (example_sampler ["TRIGGER"; "STOP"]%string
          [RLine "1"; RLine "DCV_ -0.0,DCIO 9.9E+37"]))
  = Some [(2%float, VFloat 0, Overload)]
  /\ parsed_sample (2%float, VFloat 0, Overload) = true.
Proof.
  split; [reflexivity|].
  destruct (sampler_log_is_append_only 4 example_rt (fun _ => 3%float) 1
              (example_sampler ["TRIGGER"; "STOP"]%string
                 [RLine "1"; RLine "DCV_ -0.0,DCIO 9.9E+37"])
              _ eq_refl) as ((new & Hd & Hp & _) & _).
  cbn in Hd. subst new.
  exact (proj1 (andb_prop _ _ Hp)).
Defined.

(* ================================================================== *)
(** ** More on response parsing *)
(* ================================================================== *)

Lemma readings_space_prefix (rt : runtime) (w line : string) :
  all_space w = true ->
  spec_readings rt (split_on "," (w ++ line))
  = spec_readings rt (split_on "," line).
Proof.
  intros Hw. rewrite split_on_space_prefix by assumption.
  pose proof (split_on_not_nil "," line) as Hne.
  destruct (split_on "," line) as [|p ps]; [congruence|].
  simpl. unfold spec_reading. rewrite split_ws_space_prefix by assumption.
  reflexivity.
Qed.

Lemma readings_space_suffix (rt : runtime) (line w : string) :
  all_space w = true ->
  spec_readings rt (split_on "," (line ++ w))
  = spec_readings rt (split_on "," line).
Proof.
  intros Hw. rewrite split_on_space_suffix by assumption.
  apply readings_app_last, Hw.
Qed.

(** White space around the response line does not count: a line padded
    with any white space on either side (a carriage return left by the
    transport, blanks, tabs) is parsed to the same pair of channels. *)
Theorem read_measurement_ignores_padding
  (rt : runtime) (line w1 w2 : string) :
  all_space w1 = true -> all_space w2 = true ->
  read_measurement rt (RLine (w1 ++ line ++ w2))
  = read_measurement rt (RLine line).
Proof.
  intros H1 H2. rewrite !read_measurement_assign.
  rewrite readings_space_prefix, readings_space_suffix by assumption.
  reflexivity.
Qed.

Lemma read_measurement_ignores_padding_witness :
  read_measurement example_rt
    (RLine (String "009" " " ++ "DCV_ +1.5E+00,DCIO 9.9E+37" ++ String "013" ""))
  = Ok (VFloat 1.5, Overload).
Proof.
  rewrite (read_measurement_ignores_padding example_rt
             "DCV_ +1.5E+00,DCIO 9.9E+37" (String "009" " ") (String "013" "")
             eq_refl eq_refl).
  reflexivity.
Defined.

(** A part that gives no reading does not hold its place: when the first
    of two parts is unreadable (a value that is not a number, an unknown
    prefix, a single token) and the second is readable, the reading of the
    second part is stored as channel A and channel B is absent. *)
Theorem unreadable_part_shifts_channels
  (rt : runtime) (line p q : string) (v : value) :
  split_on "," line = [p; q] ->
  read_part rt p = Ok None ->
  read_part rt q = Ok (Some v) ->
  read_measurement rt (RLine line) = Ok (v, VNone).
Proof.
  intros Hs Hp Hq. rewrite read_part_spec in Hp, Hq.
  injection Hp as Hp. injection Hq as Hq.
  rewrite read_measurement_assign, Hs. cbn [spec_readings].
  rewrite Hp, Hq. cbn [assign is_none fst].
  rewrite (spec_reading_not_none rt q v Hq). reflexivity.
Qed.

Lemma unreadable_part_shifts_channels_witness :
  read_measurement example_rt (RLine "DCV_ ----,DCI_ +1.5E+00")
  = Ok (VFloat 1.5, VNone).
Proof.
  apply (unreadable_part_shifts_channels example_rt
           "DCV_ ----,DCI_ +1.5E+00" "DCV_ ----" "DCI_ +1.5E+00" (VFloat 1.5));
    reflexivity.
Defined.

(* ================================================================== *)
(** ** The two reductions: replaying the log and the live tick *)
(* ================================================================== *)

Lemma shared_guards_list (name : string) (ach_value bch_value : value) :
  shared_calculated_value name ach_value bch_value
  = try_except (list_calculated_value name ach_value bch_value)
               ZeroDivisionError (Ok Invalid).
Proof.
  destruct (family_of_cases name) as [[H|[H|[H|[H|H]]]]|(H1 & H2 & H3 & H4 & H5)].
  1-5: subst name; unfold shared_calculated_value, list_calculated_value;
       cbn [String.eqb Ascii.eqb Bool.eqb andb orb];
       unfold ratio_guard, product_guard, ne_zero, eq_zero, math_isnan,
         truediv, Py.abs, Py.mul, try_except, bind;
       destruct ach_value as [a|s|], bch_value as [b|s'|]; try reflexivity;
       try (destruct (a =? 0)%float, (is_nan a); reflexivity);
       destruct (a =? 0)%float, (is_nan a), (is_nan b), (b =? 0)%float;
       reflexivity.
  unfold shared_calculated_value, list_calculated_value.
  rewrite H1, H2, H3, H4, H5. reflexivity.
Qed.

Lemma list_agrees_off_zero (name : string) (ach_value bch_value : value) :
  eq_zero bch_value = false ->
  list_calculated_value name ach_value bch_value
  = shared_calculated_value name ach_value bch_value.
Proof.
  intros Hz.
  destruct (family_of_cases name) as [[H|[H|[H|[H|H]]]]|(H1 & H2 & H3 & H4 & H5)].
  1-5: subst name; unfold shared_calculated_value, list_calculated_value;
       cbn [String.eqb Ascii.eqb Bool.eqb andb orb];
       unfold ratio_guard, product_guard, ne_zero, eq_zero, math_isnan,
         truediv, Py.abs, Py.mul, try_except, bind in *;
       destruct ach_value as [a|s|], bch_value as [b|s'|]; try reflexivity;
       try (destruct (a =? 0)%float, (is_nan a); reflexivity);
       rewrite ?Hz;
       destruct (a =? 0)%float eqn:Ea, (is_nan a), (is_nan b);
       rewrite ?Ea; reflexivity.
  unfold shared_calculated_value, list_calculated_value.
  rewrite H1, H2, H3, H4, H5. reflexivity.
Qed.

Lemma collect_ext (calc1 calc2 : value -> value -> result value)
  (jig mb : bool) (data : list sample) :
  Forall (fun x => calc1 (snd (fst x)) (snd x) = calc2 (snd (fst x)) (snd x))
         data ->
  forall acc, collect calc1 jig mb data acc = collect calc2 jig mb data acc.
Proof.
  induction 1 as [|[[t a] b] rest Hx _ IH]; intros acc; [reflexivity|].
  cbn [collect]. cbn [fst snd] in Hx. rewrite Hx.
  destruct jig; [|apply IH].
  destruct (calc2 a b); cbn [bind]; [apply IH | reflexivity].
Qed.

(** Opening the graph page replays the log with the reduction of
    [load_data_from_list]; the timer reduces new samples with the one of
    [update_from_shared_memory].  The live reduction is the replayed one with
    [ZeroDivisionError] turned into Invalid, on any two values; and when no
    sample of the log has a zero on channel B, a tick that starts from the
    beginning of the log leaves the page exactly as the replay does, with
    the same outcome. *)
Theorem replay_matches_live (rt : runtime) (a : DMMApp) :
  (forall name ach_value bch_value,
      shared_calculated_value name ach_value bch_value
      = try_except (list_calculated_value name ach_value bch_value)
                   ZeroDivisionError (Ok Invalid))
  /\ (last_read_index a = 0%nat ->
      Forall (fun x : sample => eq_zero (snd x) = false) (app_data_list a) ->
      update_from_shared_memory rt a
      = let r := load_data_from_list rt (app_data_list a) (app_jig_mode a)
                   (jig_mode_name a) (measurement_mode_bch a)
                   (graph_display_page a) in
        (fst r, set_page a (List.length (app_data_list a)) (snd r))).
Proof.
  split; [apply shared_guards_list|].
  intros Hi Hz. unfold update_from_shared_memory, load_data_from_list.
  rewrite Hi. cbn [skipn]. rewrite Nat.sub_0_r, Nat.add_0_l.
  destruct (app_data_list a) as [|x rest] eqn:Hd.
  - destruct a as [d i j n m pg]; simpl in *. subst. destruct j; reflexivity.
  - cbn [List.length Nat.leb].
    rewrite (collect_ext (list_calculated_value (jig_mode_name a))
               (shared_calculated_value (jig_mode_name a))).
    + destruct (collect _ _ _ _ _) as [b|e]; [|reflexivity].
      destruct (app_jig_mode a && negb (is_nil (calculated_values b)));
        [reflexivity|].
      destruct (negb (is_nil (ach_values b))); reflexivity.
    + eapply Forall_impl; [|exact Hz].
      intros [[t u] v] Hv. apply list_agrees_off_zero, Hv.
Qed.

Lemma replay_matches_live_witness :
  update_from_shared_memory example_rt
    (example_app "10" false [(0%float, VFloat 10, VFloat 2)])
  = (Ok tt,
     set_page (example_app "10" false [(0%float, VFloat 10, VFloat 2)]) 1
       (snd (load_data_from_list example_rt [(0%float, VFloat 10, VFloat 2)]
               true "四端子抵抗測定A_V" true (example_page "10" false [])))).
Proof.
  rewrite (proj2 (replay_matches_live example_rt
                    (example_app "10" false [(0%float, VFloat 10, VFloat 2)]))
             eq_refl ltac:(repeat constructor)).
  reflexivity.
Defined.

Lemma eqb_zero_not_nan (f : PrimFloat.float) :
  (f =? 0)%float = true -> is_nan f = false.
Proof. intros H. destruct (eqb_zero_cases f H) as [-> | ->]; reflexivity. Qed.

Lemma list_numeric_outcome (name : string) (a b : PrimFloat.float) :
  (exists v, list_calculated_value name (VFloat a) (VFloat b) = Ok v)
  \/ list_calculated_value name (VFloat a) (VFloat b) = Raise ZeroDivisionError.
Proof.
  pose proof (shared_guards_list name (VFloat a) (VFloat b)) as H.
  rewrite shared_numeric in H.
  destruct (list_calculated_value name (VFloat a) (VFloat b)) as [v|e].
  - left. exists v. reflexivity.
  - right. destruct e; try discriminate H. reflexivity.
Qed.

Lemma list_ratio_zero (name : string) (a b : PrimFloat.float) :
  family_of name = Ratio ->
  (a =? 0)%float = false -> is_nan a = false -> (b =? 0)%float = true ->
  list_calculated_value name (VFloat a) (VFloat b) = Raise ZeroDivisionError.
Proof.
  intros Hf Ha Hn Hb. pose proof (eqb_zero_not_nan b Hb) as Hnb.
  destruct (family_of_cases name) as [[H|[H|[H|[H|H]]]]|(H1 & H2 & H3 & H4 & H5)].
  1-5: subst name; try discriminate Hf;
       unfold list_calculated_value;
       cbn [String.eqb Ascii.eqb Bool.eqb andb orb];
       unfold ratio_guard, ne_zero, eq_zero, math_isnan, truediv, bind;
       rewrite Ha, Hn, Hnb; cbn [negb]; rewrite Hb; reflexivity.
  unfold family_of in Hf. rewrite H1, H2, H3, H4, H5 in Hf. discriminate Hf.
Qed.

Lemma collect_raises_zero_division (name : string) (mb : bool)
  (pre post : list sample) (x : sample) :
  forallb numeric_sample pre = true ->
  list_calculated_value name (snd (fst x)) (snd x) = Raise ZeroDivisionError ->
  forall acc,
    collect (list_calculated_value name) true mb (pre ++ x :: post) acc
    = Raise ZeroDivisionError.
Proof.
  intros Hpre Hx. induction pre as [|[[t u] v] pre IH]; intros acc.
  - destruct x as [[t u] v]. cbn [List.app collect]. cbn [fst snd] in Hx.
    rewrite Hx. reflexivity.
  - cbn [forallb] in Hpre. apply andb_prop in Hpre as [Hn Hpre].
    destruct u as [a|s|]; try discriminate Hn.
    destruct v as [b|s|]; try discriminate Hn.
    cbn [List.app collect].
    destruct (list_numeric_outcome name a b) as [[w Hw]|Hw]; rewrite Hw;
      cbn [bind]; [apply IH, Hpre | reflexivity].
Qed.

(** The replay has no handler for the division: in a ratio mode, one sample
    of the log with a zero on channel B (and a usable number on channel A)
    makes [load_data_from_list] raise [ZeroDivisionError] before the page is
    touched, so nothing of the log is shown, whereas the live tick turns that
    sample into Invalid. *)
Theorem replay_raises_on_zero_channel_B
  (rt : runtime) (name : string) (mb : bool) (pre post : list sample)
  (t a b : PrimFloat.float) (pg : page) :
  family_of name = Ratio ->
  forallb numeric_sample pre = true ->
  (a =? 0)%float = false -> is_nan a = false -> (b =? 0)%float = true ->
  load_data_from_list rt (pre ++ (t, VFloat a, VFloat b) :: post) true name mb pg
  = (Raise ZeroDivisionError, pg)
  /\ shared_calculated_value name (VFloat a) (VFloat b) = Ok Invalid.
Proof.
  intros Hf Hpre Ha Hn Hb.
  pose proof (list_ratio_zero name a b Hf Ha Hn Hb) as Hx.
  split.
  - unfold load_data_from_list.
    rewrite (collect_raises_zero_division name mb pre post
               (t, VFloat a, VFloat b) Hpre Hx).
    reflexivity.
  - rewrite shared_guards_list, Hx. reflexivity.
Qed.

Lemma replay_raises_on_zero_channel_B_witness :
  load_data_from_list example_rt
    [(0%float, VFloat 10, VFloat 2); (1%float, VFloat 10, VFloat 0);
     (2%float, VFloat 10, VFloat 4)]
    true "四端子抵抗測定B_V" true (example_page "10" false [])
  = (Raise ZeroDivisionError, example_page "10" false []).
Proof.
  exact (proj1 (replay_raises_on_zero_channel_B example_rt "四端子抵抗測定B_V"
                  true [(0%float, VFloat 10, VFloat 2)]
                  [(2%float, VFloat 10, VFloat 4)] 1 10 0
                  (example_page "10" false [])
                  eq_refl eq_refl eq_refl eq_refl eq_refl)).
Defined.

(* ================================================================== *)
(** ** The cursor of the timer tick and the two reads of the log *)
(* ================================================================== *)

Lemma update_from_shared_memory_deliver (rt : runtime) (a : DMMApp) :
  update_from_shared_memory rt a
  = if (List.length (app_data_list a) <=? last_read_index a)%nat
    then (Ok tt, a)
    else deliver rt a (skipn (last_read_index a) (app_data_list a))
           (last_read_index a
            + (List.length (app_data_list a) - last_read_index a)).
Proof. reflexivity. Qed.

Lemma deliver_shape (rt : runtime) (a : DMMApp) (data_slice : list sample)
  (index : nat) :
  exists pg, snd (deliver rt a data_slice index) = set_page a index pg.
Proof.
  unfold deliver. cbv zeta.
  destruct (collect _ _ _ _ _) as [b|e]; [|eexists; reflexivity].
  destruct (app_jig_mode a && negb (is_nil (calculated_values b)));
    [eexists; reflexivity|].
  destruct (negb (is_nil (ach_values b))); eexists; reflexivity.
Qed.

(** The tick reads the shared log twice, its length and then its tail,
    and the sampler thread may append in between.  The cursor moves to the
    length read first (never back), but the samples handed to the page are
    those from the old cursor to the end of the log as read second.  So the
    samples appended between the two reads are handed over by this tick and
    again by the next one, which starts its slice with them, whatever else
    arrived meanwhile.  When nothing is appended between the reads, the tick
    is the one of a single reading of the log. *)
Theorem late_samples_are_delivered_twice
  (rt : runtime) (a : DMMApp) (late : list sample) :
  (last_read_index a < List.length (app_data_list a))%nat ->
  let r := update_from_shared_memory_two_reads rt a late in
  let a' := snd r in
  r = deliver rt (set_data_list a (app_data_list a ++ late))
        (skipn (last_read_index a) (app_data_list a) ++ late)
        (List.length (app_data_list a))
  /\ last_read_index a' = List.length (app_data_list a)
  /\ app_data_list a' = app_data_list a ++ late
  /\ (forall more late',
        late ++ more <> [] ->
        update_from_shared_memory_two_reads rt
          (set_data_list a' (app_data_list a' ++ more)) late'
        = deliver rt
            (set_data_list a' ((app_data_list a' ++ more) ++ late'))
            (late ++ more ++ late')
            (List.length (app_data_list a' ++ more)))
  /\ (late = [] ->
      update_from_shared_memory_two_reads rt a late
      = update_from_shared_memory rt a).
Proof.
  intros Hlt. cbv zeta.
  assert (Hr : update_from_shared_memory_two_reads rt a late
               = deliver rt (set_data_list a (app_data_list a ++ late))
                   (skipn (last_read_index a) (app_data_list a) ++ late)
                   (List.length (app_data_list a))).
  { unfold update_from_shared_memory_two_reads.
    destruct (_ <=? _)%nat eqn:Hle; [apply Nat.leb_le in Hle; lia|].
    cbv zeta. rewrite skipn_app.
    replace (last_read_index a - List.length (app_data_list a))%nat
      with 0%nat by lia.
    cbn [skipn].
    replace (last_read_index a
             + (List.length (app_data_list a) - last_read_index a))%nat
      with (List.length (app_data_list a)) by lia.
    reflexivity. }
  rewrite Hr.
  destruct (deliver_shape rt (set_data_list a (app_data_list a ++ late))
              (skipn (last_read_index a) (app_data_list a) ++ late)
              (List.length (app_data_list a))) as [pg Hpg].
  rewrite Hpg. cbn [set_page set_data_list last_read_index app_data_list].
  split; [reflexivity|]. split; [reflexivity|]. split; [reflexivity|].
  split.
  - intros more late' Hne.
    unfold update_from_shared_memory_two_reads.
    cbn [set_page set_data_list last_read_index app_data_list].
    destruct (_ <=? _)%nat eqn:Hle.
    { apply Nat.leb_le in Hle. rewrite !length_app in Hle.
      destruct late, more; cbn [List.length List.app] in Hle, Hne;
        try lia. congruence. }
    cbv zeta. f_equal.
    + rewrite <- !app_assoc.
      rewrite skipn_app, skipn_all, Nat.sub_diag. reflexivity.
    + rewrite !length_app. lia.
  - intros ->. clear Hpg pg Hr.
    rewrite update_from_shared_memory_deliver.
    destruct (_ <=? _)%nat eqn:Hle; [apply Nat.leb_le in Hle; lia|].
    replace (last_read_index a
             + (List.length (app_data_list a) - last_read_index a))%nat
      with (List.length (app_data_list a)) by lia.
    rewrite !app_nil_r. unfold deliver. cbv zeta.
    cbn [set_data_list app_jig_mode jig_mode_name measurement_mode_bch
         graph_display_page].
    destruct (collect _ _ _ _ _) as [b|e]; [|destruct a; reflexivity].
    destruct (app_jig_mode a && negb (is_nil (calculated_values b)));
      [destruct a; reflexivity|].
    destruct (negb (is_nil (ach_values b))); destruct a; reflexivity.
Qed.

Lemma late_samples_are_delivered_twice_witness :
  let a := example_app "10" false [(0%float, VFloat 10, VFloat 2)] in
  let late := [(1%float, VFloat 10, VFloat 4)] in
  let a' := snd (update_from_shared_memory_two_reads example_rt a late) in
  last_read_index a' = 1%nat
  /\ time_data (graph_display_page a') = [0%float; 1%float]
  /\ time_data (graph_display_page
                  (snd (update_from_shared_memory_two_reads example_rt a' [])))
     = [0%float; 1%float; 1%float].
Proof.
  cbv zeta.
  pose proof (late_samples_are_delivered_twice example_rt
                (example_app "10" false [(0%float, VFloat 10, VFloat 2)])
                [(1%float, VFloat 10, VFloat 4)]
                ltac:(simpl; lia)) as (Hr & Hi & _).
  split; [exact Hi|]. rewrite Hr. split; reflexivity.
Defined.

(* ================================================================== *)
(** ** Invariants of the graph page *)
(* ================================================================== *)

Lemma preserves_gret {X A : Type} (f : page -> X) (a : A) :
  preserves f (gret a).
Proof. intros pg; reflexivity. Qed.

Lemma preserves_lift {X A : Type} (f : page -> X) (r : result A) :
  preserves f (lift r).
Proof. intros pg; reflexivity. Qed.

Lemma preserves_get {X : Type} (f : page -> X) : preserves f get.
Proof. intros pg; reflexivity. Qed.

Lemma preserves_gbind {X A B : Type} (f : page -> X)
  (m : gui A) (k : A -> gui B) :
  preserves f m -> (forall a, preserves f (k a)) -> preserves f (gbind m k).
Proof.
  intros Hm Hk pg. unfold gbind. specialize (Hm pg).
  destruct (m pg) as [[a|e] pg']; cbn [snd] in *; [|exact Hm].
  rewrite (Hk a pg'). exact Hm.
Qed.

Lemma preserves_modify {X : Type} (f : page -> X) (g : page -> page) :
  (forall pg, f (g pg) = f pg) -> preserves f (modify g).
Proof. intros H pg. apply H. Qed.

Ltac preserve :=
  repeat match goal with
         | |- preserves _ (gret _) => apply preserves_gret
         | |- preserves _ (lift _) => apply preserves_lift
         | |- preserves _ get => apply preserves_get
         | |- preserves _ (modify _) =>
             apply preserves_modify; intros; reflexivity
         | |- preserves _ (gbind _ _) => apply preserves_gbind
         | |- preserves _ (if ?b then _ else _) => destruct b
         | |- forall _, preserves _ _ => intros ?
         end.

Lemma preserves_extend_values {X : Type} (f : page -> X) (jig : bool)
  (ach_values bch_values : list value) (time_values : list PrimFloat.float)
  (calculated_values : list value) :
  (forall v pg, f (set_calculated_data v pg) = f pg) ->
  (forall v pg, f (set_ach_data v pg) = f pg) ->
  (forall v pg, f (set_bch_data v pg) = f pg) ->
  preserves f (extend_values jig ach_values bch_values time_values
                 calculated_values).
Proof.
  intros Hc Ha Hb. unfold extend_values. destruct jig.
  - apply preserves_gbind; [apply preserves_lift|]. intros r.
    apply preserves_gbind; [|intros _; apply preserves_gret].
    apply preserves_modify. intros; apply Hc.
  - apply preserves_gbind; [apply preserves_modify; intros; apply Ha|].
    intros _. apply preserves_gbind; [apply preserves_get|]. intros pg.
    apply preserves_gbind; [|intros _; apply preserves_gret].
    destruct (truthy (bch_desc (cfg pg)) && negb (is_nil bch_values));
      [apply preserves_modify; intros; apply Hb | apply preserves_gret].
Qed.

Lemma preserves_keep_window {X : Type} (f : page -> X) (jig : bool)
  (bch_values : list value) (lo hi : PrimFloat.float) :
  (forall v pg, f (set_time_data v pg) = f pg) ->
  (forall v pg, f (set_calculated_data v pg) = f pg) ->
  (forall v pg, f (set_ach_data v pg) = f pg) ->
  (forall v pg, f (set_bch_data v pg) = f pg) ->
  preserves f (keep_window jig bch_values lo hi).
Proof.
  intros Ht Hc Ha Hb. unfold keep_window.
  apply preserves_gbind; [apply preserves_get|]. intros pg. cbv zeta.
  apply preserves_gbind; [apply preserves_lift|]. intros td.
  apply preserves_gbind; [apply preserves_modify; intros; apply Ht|].
  intros _. destruct jig.
  - apply preserves_gbind; [apply preserves_get|]. intros pg1.
    apply preserves_gbind; [apply preserves_lift|]. intros cd.
    apply preserves_gbind; [apply preserves_modify; intros; apply Hc|].
    intros _. preserve.
  - apply preserves_gbind; [apply preserves_get|]. intros pg1.
    apply preserves_gbind; [apply preserves_lift|]. intros ad.
    apply preserves_gbind; [apply preserves_modify; intros; apply Ha|].
    intros _. apply preserves_gbind; [apply preserves_get|]. intros pg2.
    apply preserves_gbind.
    + destruct (truthy (bch_desc (cfg pg2)) && negb (is_nil bch_values));
        [|apply preserves_gret].
      apply preserves_gbind; [apply preserves_lift|]. intros bd.
      apply preserves_modify; intros; apply Hb.
    + intros _. preserve.
Qed.

Lemma preserves_show_labels {X : Type} (f : page -> X) (rt : runtime)
  (jig : bool) (ach_values bch_values calculated_values : list value) :
  (forall a b c pg, f (set_labels a b c pg) = f pg) ->
  preserves f (show_labels rt jig ach_values bch_values calculated_values).
Proof.
  intros Hl. unfold show_labels.
  apply preserves_gbind; [apply preserves_get|]. intros pg.
  destruct jig.
  - apply preserves_gbind; [apply preserves_lift|]. intros text.
    apply preserves_modify. intros; apply Hl.
  - apply preserves_gbind.
    + destruct (negb (is_nil ach_values)); [|apply preserves_gret].
      apply preserves_gbind; [apply preserves_lift|]. intros text.
      apply preserves_modify. intros; apply Hl.
    + intros _.
      destruct (truthy (bch_desc (cfg pg)) && negb (is_nil bch_values));
        [|apply preserves_gret].
      apply preserves_gbind; [apply preserves_lift|]. intros text.
      apply preserves_modify. intros; apply Hl.
Qed.

Lemma preserves_record_calculated {X : Type} (f : page -> X)
  (tc : list (PrimFloat.float * value)) :
  (forall v pg, f (set_recorded_data v pg) = f pg) ->
  preserves f (record_calculated tc).
Proof.
  intros Hr. induction tc as [|[t c] rest IH]; [apply preserves_gret|].
  cbn [record_calculated].
  apply preserves_gbind; [apply preserves_lift|]. intros inf.
  apply preserves_gbind; [|intros _; exact IH].
  destruct inf; [apply preserves_gret|].
  apply preserves_modify. intros; apply Hr.
Qed.

Lemma preserves_record_channels {X : Type} (f : page -> X) (with_b : bool)
  (tab : list (PrimFloat.float * value * value)) :
  (forall v pg, f (set_recorded_data v pg) = f pg) ->
  preserves f (record_channels with_b tab).
Proof.
  intros Hr. induction tab as [|[[t a] b] rest IH]; [apply preserves_gret|].
  cbn [record_channels].
  apply preserves_gbind; [|intros _; exact IH].
  apply preserves_modify. intros; apply Hr.
Qed.

Lemma preserves_record {X : Type} (f : page -> X) (jig : bool)
  (ach_values bch_values : list value) (time_values : list PrimFloat.float)
  (calculated_values : list value) :
  (forall v pg, f (set_recorded_data v pg) = f pg) ->
  preserves f (record jig ach_values bch_values time_values calculated_values).
Proof.
  intros Hr. unfold record.
  apply preserves_gbind; [apply preserves_get|]. intros pg.
  destruct (recording pg); [|apply preserves_gret].
  destruct jig;
    [apply preserves_record_calculated | apply preserves_record_channels];
    exact Hr.
Qed.

(** [update_graph] never changes the configuration of the page. *)
Lemma update_graph_cfg (rt : runtime) (ach_values bch_values : list value)
  (time_values : list PrimFloat.float) (calculated_values : list value) :
  preserves cfg (update_graph rt ach_values bch_values time_values
                   calculated_values).
Proof.
  unfold update_graph.
  apply preserves_gbind; [apply preserves_modify; reflexivity|]. intros _.
  apply preserves_gbind; [apply preserves_get|]. intros pg.
  destruct (is_nil (time_data pg)); [apply preserves_gret|]. cbv zeta.
  apply preserves_gbind;
    [apply preserves_extend_values; reflexivity|]. intros tv.
  apply preserves_gbind; [apply preserves_get|]. intros pg1.
  apply preserves_gbind; [apply preserves_lift|]. intros bounds.
  apply preserves_gbind; [apply preserves_keep_window; reflexivity|]. intros _.
  apply preserves_gbind; [apply preserves_show_labels; reflexivity|]. intros _.
  apply preserves_record; reflexivity.
Qed.

Lemma toggle_recording_cfg (file_path : string) (io_ok : bool) (pg : page) :
  cfg (toggle_recording file_path io_ok pg) = cfg pg.
Proof.
  unfold toggle_recording, save_recorded_data.
  destruct (recording pg); cbn [negb]; [|reflexivity].
  cbn [set_recording recorded_data].
  destruct (is_nil (recorded_data pg)); [reflexivity|].
  destruct (truthy file_path); [|reflexivity].
  destruct io_ok; reflexivity.
Qed.

Lemma load_data_from_list_cfg (rt : runtime) (data_list : list sample)
  (jig : bool) (name : string) (mb : bool) :
  preserves cfg (load_data_from_list rt data_list jig name mb).
Proof.
  intros pg. unfold load_data_from_list.
  destruct (collect _ _ _ _ _) as [b|e]; [|reflexivity].
  destruct (jig && negb (is_nil (calculated_values b)));
    [apply update_graph_cfg|].
  destruct (negb (is_nil (ach_values b)));
    [apply update_graph_cfg | reflexivity].
Qed.

Lemma graph_page_step_units (rt : runtime) (pg pg' : page) :
  graph_page_step rt pg pg' ->
  ach_unit (cfg pg') = ach_unit (cfg pg)
  /\ bch_unit (cfg pg') = bch_unit (cfg pg).
Proof.
  intros H. destruct H.
  - split; reflexivity.
  - rewrite load_data_from_list_cfg. split; reflexivity.
  - rewrite update_graph_cfg. split; reflexivity.
  - rewrite toggle_recording_cfg. split; reflexivity.
  - split; reflexivity.
  - split; reflexivity.
Qed.

(** The units of the two channels never reach the graph page: they are
    empty when the page is constructed and no method of the page (nor an edit
    of the span) assigns them, whatever the setup page selected.  So in
    the normal mode the header of every export names its columns with empty
    parentheses. *)
Theorem graph_page_never_learns_units (rt : runtime) (pg0 pg : page) :
  constructed pg0 ->
  graph_page_reaches rt pg0 pg ->
  ach_unit (cfg pg) = ""%string
  /\ bch_unit (cfg pg) = ""%string
  /\ (jig_mode (cfg pg) = false ->
      header (cfg pg)
      = VStr "時間 (秒)"
          :: VStr (ach_desc (cfg pg) ++ " ()")
          :: (if truthy (bch_desc (cfg pg))
              then [VStr (bch_desc (cfg pg) ++ " ()")] else [])).
Proof.
  intros Hc Hr.
  assert (Hu : ach_unit (cfg pg) = ""%string /\ bch_unit (cfg pg) = ""%string).
  { induction Hr as [pg|pg pg' pg'' _ IH Hs].
    - destruct Hc as (_ & Ha & Hb & _). split; assumption.
    - destruct (IH Hc) as [Ha Hb].
      destruct (graph_page_step_units rt pg' pg'' Hs) as [Ha' Hb'].
      split; congruence. }
  destruct Hu as [Ha Hb]. split; [exact Ha|]. split; [exact Hb|].
  intros Hj. rewrite header_columns, Hj, Ha, Hb. reflexivity.
Qed.

Lemma graph_page_never_learns_units_witness :
  header (cfg (snd (update_graph example_rt [VFloat 1.5] [VFloat 2] [0%float] []
                      (set_measurement_mode_descriptions
                         "直流電圧測定 (DCV-Ach)" "Bch 直流電流測定 (DCI-Bch)"
                         false "" "" fresh_page))))
  = [VStr "時間 (秒)"; VStr "直流電圧測定 (DCV-Ach) ()";
     VStr "Bch 直流電流測定 (DCI-Bch) ()"].
Proof.
  assert (Hc : constructed fresh_page)
    by (unfold constructed; repeat split).
  assert (Hr : graph_page_reaches example_rt fresh_page
                 (snd (update_graph example_rt [VFloat 1.5] [VFloat 2]
                         [0%float] []
                         (set_measurement_mode_descriptions
                            "直流電圧測定 (DCV-Ach)" "Bch 直流電流測定 (DCI-Bch)"
                            false "" "" fresh_page)))).
  { eapply ReachesNext; [eapply ReachesNext; [apply ReachesHere|]|].
    - apply (StepDescriptions example_rt "直流電圧測定 (DCV-Ach)"
               "Bch 直流電流測定 (DCI-Bch)" false "" "").
    - apply StepUpdate. }
  exact (proj2 (proj2 (graph_page_never_learns_units example_rt fresh_page _
                         Hc Hr)) eq_refl).
Defined.

Lemma grows_refl (w : nat) (pg : page) : grows w pg pg.
Proof.
  split; [reflexivity|]. split; [reflexivity|].
  exists []. rewrite app_nil_r. split; [reflexivity | constructor].
Qed.

Lemma grows_trans (w : nat) (a b c : page) :
  grows w a b -> grows w b c -> grows w a c.
Proof.
  intros (C1 & R1 & r1 & D1 & F1) (C2 & R2 & r2 & D2 & F2).
  split; [congruence|]. split; [congruence|].
  exists (r1 ++ r2). rewrite D2, D1, app_assoc. split; [reflexivity|].
  apply Forall_app; split; assumption.
Qed.

Lemma grows_of_preserves {A : Type} (w : nat) (m : gui A) (pg : page) :
  preserves capture m -> grows w pg (snd (m pg)).
Proof.
  intros H. specialize (H pg). unfold capture in H.
  injection H as Hc Hr Hd.
  split; [exact Hc|]. split; [exact Hr|].
  exists []. rewrite app_nil_r. split; [exact Hd | constructor].
Qed.

Lemma grows_gbind {A B : Type} (w : nat) (m : gui A) (k : A -> gui B)
  (pg : page) :
  grows w pg (snd (m pg)) ->
  (forall a pg1, m pg = (Ok a, pg1) -> grows w pg1 (snd (k a pg1))) ->
  grows w pg (snd (gbind m k pg)).
Proof.
  intros Hm Hk. unfold gbind.
  destruct (m pg) as [[a|e] pg1] eqn:E; cbn [snd] in *; [|exact Hm].
  eapply grows_trans; [exact Hm | apply Hk; reflexivity].
Qed.

Lemma record_calculated_grows (tc : list (PrimFloat.float * value)) :
  forall pg, grows 2 pg (snd (record_calculated tc pg)).
Proof.
  induction tc as [|[t c] rest IH]; intros pg; [apply grows_refl|].
  cbn [record_calculated].
  apply grows_gbind; [apply grows_refl|]. intros inf pg1 E.
  unfold lift in E. injection E as _ <-.
  apply grows_gbind; [|intros _ pg2 _; apply IH].
  destruct inf; [apply grows_refl|].
  unfold modify; cbn [snd].
  split; [reflexivity|]. split; [reflexivity|].
  exists [[VFloat t; c]]. split; [reflexivity|].
  constructor; [reflexivity | constructor].
Qed.

Lemma record_channels_grows (with_b : bool)
  (tab : list (PrimFloat.float * value * value)) :
  forall pg, grows (if with_b then 3 else 2) pg
               (snd (record_channels with_b tab pg)).
Proof.
  induction tab as [|[[t a] b] rest IH]; intros pg; [apply grows_refl|].
  cbn [record_channels].
  apply grows_gbind; [|intros _ pg2 _; apply IH].
  unfold modify; cbn [snd].
  split; [reflexivity|]. split; [reflexivity|].
  eexists. split; [reflexivity|].
  constructor; [destruct with_b; reflexivity | constructor].
Qed.

Lemma record_grows (jig : bool) (ach_values bch_values : list value)
  (time_values : list PrimFloat.float) (calculated_values : list value)
  (pg : page) :
  grows (if jig then 2 else if truthy (bch_desc (cfg pg)) then 3 else 2) pg
    (snd (record jig ach_values bch_values time_values calculated_values pg)).
Proof.
  unfold record, gbind, get.
  destruct (recording pg); [|apply grows_refl].
  destruct jig; [apply record_calculated_grows | apply record_channels_grows].
Qed.

Lemma preserves_capture_cfg {A : Type} (m : gui A) (a : A) (pg pg1 : page) :
  preserves capture m -> m pg = (Ok a, pg1) -> cfg pg1 = cfg pg.
Proof.
  intros H E. specialize (H pg). rewrite E in H. cbn [snd] in H.
  unfold capture in H. congruence.
Qed.

(** The rows a call of [update_graph] appends all have the width that goes
    with the configuration and the kind of the call. *)
Lemma update_graph_grows (rt : runtime) (ach_values bch_values : list value)
  (time_values : list PrimFloat.float) (calculated_values : list value)
  (pg : page) :
  grows (row_width (cfg pg) calculated_values) pg
    (snd (update_graph rt ach_values bch_values time_values
            calculated_values pg)).
Proof.
  set (w := row_width (cfg pg) calculated_values).
  unfold update_graph.
  apply grows_gbind;
    [apply grows_of_preserves, preserves_modify; reflexivity|].
  intros u pg1 E1.
  assert (C1 : cfg pg1 = cfg pg)
    by (unfold modify in E1; injection E1 as _ <-; reflexivity).
  apply grows_gbind; [apply grows_refl|]. intros pg1' pg1'' E.
  unfold get in E. injection E as <- <-.
  destruct (is_nil (time_data pg1)); [apply grows_refl|]. cbv zeta.
  set (jig := jig_mode (cfg pg1) && negb (is_nil calculated_values)).
  assert (P2 : preserves capture
                 (extend_values jig ach_values bch_values time_values
                    calculated_values))
    by (apply preserves_extend_values; reflexivity).
  apply grows_gbind; [apply grows_of_preserves, P2|].
  intros tv pg2 E2.
  pose proof (preserves_capture_cfg _ _ _ _ P2 E2) as C2.
  apply grows_gbind; [apply grows_refl|]. intros pg2' pg2'' E.
  unfold get in E. injection E as <- <-.
  apply grows_gbind; [apply grows_refl|]. intros bounds pg2' E.
  unfold lift in E. injection E as _ <-.
  assert (P3 : preserves capture
                 (keep_window jig bch_values (fst bounds) (snd bounds)))
    by (apply preserves_keep_window; reflexivity).
  apply grows_gbind; [apply grows_of_preserves, P3|].
  intros u3 pg3 E3.
  pose proof (preserves_capture_cfg _ _ _ _ P3 E3) as C3.
  assert (P4 : preserves capture
                 (show_labels rt jig ach_values bch_values calculated_values))
    by (apply preserves_show_labels; reflexivity).
  apply grows_gbind; [apply grows_of_preserves, P4|].
  intros u4 pg4 E4.
  pose proof (preserves_capture_cfg _ _ _ _ P4 E4) as C4.
  replace w with (if jig then 2%nat
                  else if truthy (bch_desc (cfg pg4)) then 3%nat else 2%nat).
  - apply record_grows.
  - unfold w, row_width, jig. rewrite C4, C3, C2, C1. reflexivity.
Qed.

Lemma header_length (c : config) :
  List.length (header c)
  = if jig_mode c then 2%nat else if truthy (bch_desc c) then 3%nat else 2%nat.
Proof. unfold header. destruct (jig_mode c), (truthy (bch_desc c)); reflexivity. Qed.

Lemma grows_rectangular (c_values : list value) (pg pg' : page) :
  (jig_mode (cfg pg) = true -> c_values <> []) ->
  rectangular pg ->
  grows (row_width (cfg pg) c_values) pg pg' ->
  rectangular pg'.
Proof.
  intros Hj Hrect (Hc & _ & rows & Hd & Hw).
  unfold rectangular in *. rewrite Hd, Hc. apply Forall_app. split; [exact Hrect|].
  eapply Forall_impl; [|exact Hw].
  intros row ->. rewrite header_length. unfold row_width.
  destruct (jig_mode (cfg pg)) eqn:E; [|reflexivity].
  destruct c_values; [exfalso; apply Hj; reflexivity | reflexivity].
Qed.

Lemma collect_jig_channels (calc : value -> value -> result value) (mb : bool)
  (data : list sample) :
  forall acc b, collect calc true mb data acc = Ok b ->
                ach_values b = ach_values acc.
Proof.
  induction data as [|[[t u] v] rest IH]; intros acc b H.
  - injection H as <-. reflexivity.
  - cbn [collect] in H. destruct (calc u v) as [c|e]; [|discriminate H].
    cbn [bind] in H. apply IH in H. exact H.
Qed.

(** Every export is a rectangle.  While the page and the application agree
    on the jig flag (both are set by [go_to_mode_selection]), the rows a
    timer tick captures have as many cells as the header row written above
    them: two in jig mode and with one channel, three with two channels.
    Starting, stopping and resetting keep it so, and the rows of a file
    written at a stop, header included, all have the same length. *)
Theorem exported_rows_match_header
  (rt : runtime) (a : DMMApp) (file_path : string) (io_ok : bool) :
  jig_mode (cfg (graph_display_page a)) = app_jig_mode a ->
  rectangular (graph_display_page a) ->
  rectangular (graph_display_page (snd (update_from_shared_memory rt a)))
  /\ rectangular (toggle_recording file_path io_ok (graph_display_page a))
  /\ rectangular (reset_graph (graph_display_page a))
  /\ (forall path rows,
        In (FileWritten path rows)
           (effects (toggle_recording file_path io_ok (graph_display_page a))) ->
        ~ In (FileWritten path rows) (effects (graph_display_page a)) ->
        Forall (fun row => List.length row
                           = List.length (header (cfg (graph_display_page a))))
               rows).
Proof.
  intros Hj Hrect. set (pg := graph_display_page a) in *.
  split; [|split; [|split]].
  - unfold update_from_shared_memory. fold pg.
    destruct (_ <=? _)%nat; [exact Hrect|].
    destruct (collect _ _ _ _ _) as [b|e] eqn:Hcol; [|exact Hrect].
    destruct (app_jig_mode a) eqn:Hjig.
    + cbn [andb]. pose proof (collect_jig_channels _ _ _ _ _ Hcol) as Ha.
      cbn [empty_batch ach_values] in Ha.
      destruct (is_nil (calculated_values b)) eqn:Hn; cbn [negb].
      * rewrite Ha. exact Hrect.
      * cbn [snd set_page graph_display_page].
        apply (grows_rectangular (calculated_values b) pg); [|exact Hrect|].
        -- intros _ Hnil. rewrite Hnil in Hn. discriminate Hn.
        -- apply update_graph_grows.
    + cbn [andb].
      destruct (negb (is_nil (ach_values b))); [|exact Hrect].
      cbn [snd set_page graph_display_page].
      apply (grows_rectangular [] pg); [|exact Hrect|].
      * intros Ht. congruence.
      * apply update_graph_grows.
  - unfold rectangular. rewrite toggle_recording_cfg.
    unfold toggle_recording, save_recorded_data.
    destruct (recording pg); cbn [negb]; [|constructor].
    cbn [set_recording recorded_data].
    destruct (is_nil (recorded_data pg)); [exact Hrect|].
    destruct (truthy file_path); [|exact Hrect].
    destruct io_ok; exact Hrect.
  - constructor.
  - intros path rows Hin Hnew.
    unfold toggle_recording, save_recorded_data in Hin.
    destruct (recording pg); cbn [negb] in Hin; [|contradiction].
    cbn [set_recording recorded_data effects cfg] in Hin.
    destruct (is_nil (recorded_data pg)).
    { cbn [emit effects] in Hin. apply in_app_or in Hin as [Hin|[Hin|[]]];
        [contradiction | discriminate Hin]. }
    destruct (truthy file_path); [|contradiction].
    destruct io_ok; cbn [emit effects] in Hin.
    + apply in_app_or in Hin as [Hin|[Hin|[]]]; [|discriminate Hin].
      apply in_app_or in Hin as [Hin|[Hin|[]]]; [contradiction|].
      injection Hin as _ <-. constructor; [reflexivity | exact Hrect].
    + apply in_app_or in Hin as [Hin|[Hin|[]]];
        [contradiction | discriminate Hin].
Qed.

Lemma exported_rows_match_header_witness :
  let a := example_app "10" true
             [(0%float, VFloat 10, VFloat 2); (1%float, VFloat 10, VFloat 4)] in
  recorded_data (graph_display_page (snd (update_from_shared_memory example_rt a)))
  = [[VFloat 0; VFloat 5]; [VFloat 1; VFloat 2.5]]
  /\ rectangular (graph_display_page (snd (update_from_shared_memory example_rt a))).
Proof.
  split; [reflexivity|].
  apply (exported_rows_match_header example_rt
           (example_app "10" true
              [(0%float, VFloat 10, VFloat 2); (1%float, VFloat 10, VFloat 4)])
           "" true); [reflexivity | constructor].
Defined.

(* ================================================================== *)
(** ** [format_si_unit] on finite numbers *)
(* ================================================================== *)

Lemma SFcompare_finite_refl (s : bool) (m : positive) (e : Z) :
  SFcompare (S754_finite s m e) (S754_finite s m e) = Some Eq.
Proof.
  cbn [SFcompare]. rewrite Z.compare_refl, Pos.compare_cont_refl.
  destruct s; reflexivity.
Qed.

(** The classes of a float, as the tests of the program see them. *)
Lemma float_classes (f : PrimFloat.float) :
  match Prim2SF f with
  | S754_nan => is_nan f = true /\ is_infinity f = false
  | S754_infinity _ => is_nan f = false /\ is_infinity f = true
  | S754_zero _ =>
      is_nan f = false /\ is_infinity f = false /\ (f =? 0)%float = true
  | S754_finite s m e =>
      is_nan f = false /\ is_infinity f = false /\ (f =? 0)%float = false
      /\ is_nan (PrimFloat.abs f) = false
      /\ is_infinity (PrimFloat.abs f) = false
      /\ (0 <? PrimFloat.abs f)%float = true
  end.
Proof.
  unfold is_nan, is_infinity.
  rewrite !eqb_spec, ltb_spec, !abs_spec.
  change (Prim2SF 0) with (S754_zero false).
  change (Prim2SF infinity) with (S754_infinity false).
  destruct (Prim2SF f) as [[|]|[|]| |s m e]; try (repeat split; reflexivity).
  unfold SFeqb, SFltb. cbn [SFabs].
  rewrite !SFcompare_finite_refl. repeat split. destruct s; reflexivity.
Qed.

Lemma math_floor_total (l : PrimFloat.float) :
  is_nan l || is_infinity l = false -> exists e, math_floor l = Ok e.
Proof.
  intros H. apply orb_false_elim in H as [Hn Hi].
  pose proof (float_classes l) as Hc. unfold math_floor.
  destruct (Prim2SF l) as [s|s| |s m e].
  - eexists; reflexivity.
  - destruct Hc as [_ Hc]. congruence.
  - destruct Hc as [Hc _]. congruence.
  - eexists; reflexivity.
Qed.

Lemma format_si_unit_on_infinity (rt : runtime) (unit : string)
  (f : PrimFloat.float) :
  is_infinity f = true -> format_si_unit rt (VFloat f) unit = Raise OverflowError.
Proof.
  intros Hi. pose proof (float_classes f) as Hc.
  destruct (Prim2SF f) as [s|s| |s m e] eqn:Hf.
  - destruct Hc as (_ & Hc & _). congruence.
  - rewrite <- (SF2Prim_Prim2SF f), Hf. destruct s; reflexivity.
  - destruct Hc as [_ Hc]. congruence.
  - destruct Hc as (_ & Hc & _). congruence.
Qed.

Lemma format_si_unit_off_infinity (rt : runtime) (unit : string)
  (f : PrimFloat.float) :
  finite_log10 rt -> is_infinity f = false ->
  format_si_unit rt (VFloat f) unit = Ok "Overload"%string
  \/ exists e, format_si_unit rt (VFloat f) unit = Ok (spec_format e f unit).
Proof.
  intros Hlibm Hi. pose proof (float_classes f) as Hc.
  destruct (Prim2SF f) as [s|s| |s m e] eqn:Hf.
  - destruct Hc as (Hn & _ & Hz). right. exists 0.
    apply format_si_unit_zero; assumption.
  - destruct Hc as [_ Hc]. congruence.
  - left. apply format_si_unit_overload. apply Hc.
  - destruct Hc as (Hn & _ & Hz & Han & Hai & Hap).
    pose proof (Hlibm (PrimFloat.abs f) Han Hai Hap) as Hl.
    destruct (math_floor_total _ Hl) as [x Hx].
    right. exists x.
    apply format_si_unit_number with (l := libm_log10 rt (PrimFloat.abs f));
      try assumption.
    apply math_log10_finite with (e := x); assumption.
Qed.

(** Among the numbers, only the infinities make [format_si_unit] raise.
    With a C library whose [log10] is finite on the finite positive doubles,
    every float that is not infinite is formatted: a not-a-number reads
    "Overload" and any other value reads as the rule of the prefix table
    says, for some exponent; an infinity of either sign raises
    [OverflowError]. *)
Theorem format_si_unit_raises_only_on_infinity
  (rt : runtime) (unit : string) (f : PrimFloat.float) :
  finite_log10 rt ->
  (is_infinity f = true -> format_si_unit rt (VFloat f) unit = Raise OverflowError)
  /\ (is_infinity f = false ->
      format_si_unit rt (VFloat f) unit = Ok "Overload"%string
      \/ exists e, format_si_unit rt (VFloat f) unit = Ok (spec_format e f unit)).
Proof.
  intros Hlibm. split.
  - apply format_si_unit_on_infinity.
  - apply format_si_unit_off_infinity, Hlibm.
Qed.

Lemma example_rt_finite_log10 : finite_log10 example_rt.
Proof.
  intros x _ _ _. unfold example_rt; cbn [libm_log10].
  destruct (x =? 1500)%float; [reflexivity|].
  destruct (x =? 1e12)%float; reflexivity.
Defined.

Lemma format_si_unit_raises_only_on_infinity_witness :
  format_si_unit example_rt (VFloat (-2.5)) "A" = Ok "Overload"%string
  \/ exists e, format_si_unit example_rt (VFloat (-2.5)) "A"
               = Ok (spec_format e (-2.5) "A").
Proof.
  exact (proj2 (format_si_unit_raises_only_on_infinity example_rt "A" (-2.5)
                  example_rt_finite_log10) eq_refl).
Defined.

(* ================================================================== *)
(** ** The value page *)
(* ================================================================== *)

Lemma value_page_step_hidden (rt : runtime) (vp vp' : ValueDisplayPage.state) :
  ValueDisplayPage.step rt vp vp' ->
  ValueDisplayPage.hidden (ValueDisplayPage.value_label_ach vp) = true ->
  ValueDisplayPage.hidden (ValueDisplayPage.value_label_ach vp') = true.
Proof.
  intros H Hh. destruct H as [a b j d u vp|av bv cv au bu cu j vp].
  - cbn. destruct j; [reflexivity | exact Hh].
  - unfold ValueDisplayPage.update_values. destruct j.
    + destruct (ValueDisplayPage.calculated_text _ _ _ _); exact Hh.
    + destruct (ValueDisplayPage.channel_text _ _ _ _); [|exact Hh].
      cbv zeta.
      destruct (ValueDisplayPage.described _); [|exact Hh].
      destruct (ValueDisplayPage.channel_text _ _ _ _); exact Hh.
Qed.

(** No method of the value page ever shows the label of channel A again:
    once a jig session has been set up (which hides it), the label stays
    hidden in every later state of the page, also after the application was
    reset and a normal session set up, where its text is still updated. *)
Theorem channel_A_label_is_never_shown_again
  (rt : runtime) (ach_desc : string) (bch_desc : option string)
  (calculated_value_desc calculated_unit : string)
  (vp vp' : ValueDisplayPage.state) :
  ValueDisplayPage.reaches rt
    (ValueDisplayPage.set_measurement_mode_descriptions ach_desc bch_desc true
       calculated_value_desc calculated_unit vp) vp' ->
  ValueDisplayPage.hidden (ValueDisplayPage.value_label_ach vp') = true.
Proof.
  intros H.
  remember (ValueDisplayPage.set_measurement_mode_descriptions ach_desc
              bch_desc true calculated_value_desc calculated_unit vp) as vp0
    eqn:E.
  induction H as [vp1|vp1 vp2 vp3 _ IH Hs].
  - subst vp1. reflexivity.
  - apply (value_page_step_hidden rt vp2 vp3 Hs). apply IH, E.
Qed.

Lemma channel_A_label_is_never_shown_again_witness :
  let jig := ValueDisplayPage.set_measurement_mode_descriptions
               "直流電圧測定 (DCV-Ach)" (Some "Bch 直流電流測定 (DCI-Bch)"%string)
               true "抵抗値" "Ω" ValueDisplayPage.init in
  let normal := ValueDisplayPage.set_measurement_mode_descriptions
                  "直流電圧測定 (DCV-Ach)" None false "" ""
                  (ValueDisplayPage.set_measurement_mode_descriptions
                     "" (Some ""%string) false "" "" jig) in
  let shown := snd (ValueDisplayPage.update_values example_rt (VFloat 1500)
                      VNone VNone "V" "" "" false normal) in
  ValueDisplayPage.value_label_ach shown
  = {| ValueDisplayPage.text := "直流電圧測定 (DCV-Ach): 1.5 kV";
       ValueDisplayPage.hidden := true |}
  /\ ValueDisplayPage.hidden (ValueDisplayPage.value_label_ach shown) = true.
Proof.
  cbv zeta. split; [reflexivity|].
  apply (channel_A_label_is_never_shown_again example_rt
           "直流電圧測定 (DCV-Ach)" (Some "Bch 直流電流測定 (DCI-Bch)"%string)
           "抵抗値" "Ω" ValueDisplayPage.init).
  eapply ValueDisplayPage.ReachesNext;
    [eapply ValueDisplayPage.ReachesNext;
       [eapply ValueDisplayPage.ReachesNext;
          [apply ValueDisplayPage.ReachesHere|]|]|].
  - apply (ValueDisplayPage.StepDescriptions example_rt "" (Some ""%string)
             false "" "").
  - apply (ValueDisplayPage.StepDescriptions example_rt
             "直流電圧測定 (DCV-Ach)" None false "" "").
  - apply ValueDisplayPage.StepValues.
Defined.

Lemma numeric_reduce_float (fam : family) (a b : PrimFloat.float) :
  is_float (numeric_reduce fam a b) = true.
Proof.
  unfold numeric_reduce.
  destruct fam; try reflexivity;
    match goal with |- context [if ?c then _ else _] => destruct c end;
    reflexivity.
Qed.

Lemma collect_numeric_jig (name : string) (mb : bool) (data : list sample) :
  forallb numeric_sample data = true ->
  forall acc,
    forallb is_float (calculated_values acc) = true ->
    exists b,
      collect (shared_calculated_value name) true mb data acc = Ok b
      /\ forallb is_float (calculated_values b) = true
      /\ (List.length (calculated_values b)
          = List.length (calculated_values acc) + List.length data)%nat.
Proof.
  induction data as [|[[t u] v] rest IH]; intros Hn acc Hacc.
  - exists acc. split; [reflexivity|]. split; [exact Hacc|]. simpl. lia.
  - cbn [forallb] in Hn. apply andb_prop in Hn as [Hx Hn].
    destruct u as [x|s|]; try discriminate Hx.
    destruct v as [y|s|]; try discriminate Hx.
    cbn [collect]. rewrite shared_numeric. cbn [bind].
    destruct (IH Hn
                {| time_values := time_values acc ++ [t];
                   ach_values := ach_values acc;
                   bch_values := bch_values acc;
                   calculated_values :=
                     calculated_values acc
                       ++ [numeric_reduce (family_of name) x y] |})
      as (b & Hb & Hf & Hl).
    + cbn [calculated_values]. rewrite forallb_app, Hacc. cbn [forallb].
      rewrite numeric_reduce_float. reflexivity.
    + exists b. split; [exact Hb|]. split; [exact Hf|].
      rewrite Hl. cbn [calculated_values]. rewrite length_app. simpl. lia.
Qed.

Lemma latest_float (l : list value) :
  forallb is_float l = true -> l <> [] -> exists f, latest l = Ok (VFloat f).
Proof.
  intros Hf Hne. unfold latest, index.
  destruct (nth_error l (List.length l - 1)) as [v|] eqn:E.
  - apply nth_error_In in E.
    rewrite forallb_forall in Hf. specialize (Hf v E).
    destruct v as [f|s|]; try discriminate Hf. exists f. reflexivity.
  - apply nth_error_None in E. destruct l; [congruence | simpl in E; lia].
Qed.

Lemma calculated_text_float (rt : runtime) (desc unit : string)
  (f : PrimFloat.float) :
  finite_log10 rt ->
  exists s, ValueDisplayPage.calculated_text rt desc unit (VFloat f) = Ok s
            /\ (reads_overload (VFloat f) = true
                -> s = (desc ++ ": Overload")%string).
Proof.
  intros Hlibm. unfold ValueDisplayPage.calculated_text.
  cbn [eq_str is_none math_isnan math_isinf bind reads_overload].
  destruct (is_nan f) eqn:Hn; cbn [bind].
  { eexists. split; [reflexivity | reflexivity]. }
  destruct (is_infinity f) eqn:Hi; cbn [bind orb].
  { eexists. split; [reflexivity | reflexivity]. }
  destruct (truthy unit).
  - destruct (format_si_unit_off_infinity rt unit f Hlibm Hi) as [H|[e H]];
      rewrite H; cbn [bind]; eexists; (split; [reflexivity | discriminate]).
  - cbn [bind]. eexists. split; [reflexivity | discriminate].
Qed.

(** In jig mode a tick on the value page never raises on samples that
    carry two numbers, whatever the numbers (zeros, not-a-numbers and
    infinities included): the reduction gives a number or Invalid, and the
    label of the derived value is rewritten, reading "Overload" when the
    latest derived value is Invalid, infinite or not a number.  The C
    library's [log10] is taken to be finite on finite positive doubles. *)
Theorem jig_value_tick_never_raises
  (rt : runtime) (a : DMMApp) (ach_unit bch_unit calculated_unit : string)
  (vp : ValueDisplayPage.state) :
  finite_log10 rt ->
  app_jig_mode a = true ->
  forallb numeric_sample (skipn (last_read_index a) (app_data_list a)) = true ->
  let r := OnValuePage.update_from_shared_memory rt a ach_unit bch_unit
             calculated_unit vp in
  fst r = Ok tt
  /\ (forall t x y,
        List.last (skipn (last_read_index a) (app_data_list a))
                  (t, VNone, VNone) = (t, VFloat x, VFloat y) ->
        reads_overload (numeric_reduce (family_of (jig_mode_name a)) x y) = true ->
        ValueDisplayPage.text (ValueDisplayPage.value_label_calculated (snd (snd r)))
        = (ValueDisplayPage.calculated_value_desc vp ++ ": Overload")%string).
Proof.
  intros Hlibm Hjig Hnum. cbv zeta.
  unfold OnValuePage.update_from_shared_memory.
  destruct (_ <=? _)%nat eqn:Hle.
  { split; [reflexivity|]. intros t x y Hlast _.
    apply Nat.leb_le in Hle. rewrite skipn_all2 in Hlast by exact Hle.
    discriminate Hlast. }
  set (data := skipn (last_read_index a) (app_data_list a)) in *.
  assert (Hdata : data <> []).
  { apply Nat.leb_gt in Hle. unfold data. intros E.
    apply (f_equal (@List.length sample)) in E.
    rewrite length_skipn in E. simpl in E. lia. }
  destruct (collect_numeric_jig (jig_mode_name a) (measurement_mode_bch a)
              data Hnum empty_batch eq_refl) as (b & Hb & Hf & Hl).
  rewrite Hjig in *. rewrite Hb.
  assert (Hne : calculated_values b <> []).
  { intros E. rewrite E in Hl. destruct data; [congruence | simpl in Hl; lia]. }
  destruct (calculated_values b) as [|c0 cs] eqn:Hcv; [congruence|].
  cbn [is_nil negb]. rewrite <- Hcv in *.
  destruct (latest_float _ Hf Hne) as [f Hlatest]. rewrite Hlatest.
  cbv zeta. unfold ValueDisplayPage.update_values.
  destruct (calculated_text_float rt
              (ValueDisplayPage.calculated_value_desc
                 (ValueDisplayPage.set_jig_mode true vp))
              calculated_unit f Hlibm) as (s & Hs & Hover).
  rewrite Hs. cbn [fst snd]. split; [reflexivity|].
  intros t x y Hlast Hro. cbn.
  rewrite Hover; [reflexivity|].
  (* the latest derived value is the reduction of the last sample *)
  clear Hs Hover s.
  assert (Hlastc : forall acc bb,
            collect (shared_calculated_value (jig_mode_name a)) true
                    (measurement_mode_bch a) data acc = Ok bb ->
            latest (calculated_values bb)
            = Ok (numeric_reduce (family_of (jig_mode_name a)) x y)).
  { clear -Hlast Hdata. revert Hlast Hdata.
    induction data as [|[[t0 u] v] rest IH]; intros Hlast Hdata acc bb Hc;
      [congruence|].
    destruct rest as [|x1 rest'].
    - cbn [List.last] in Hlast. injection Hlast as -> -> ->.
      cbn [collect] in Hc. rewrite shared_numeric in Hc. cbn [bind] in Hc.
      injection Hc as <-. cbn [calculated_values].
      unfold latest, index. rewrite length_app. cbn [List.length].
      replace (List.length (calculated_values acc) + 1 - 1)%nat
        with (List.length (calculated_values acc) + 0)%nat by lia.
      rewrite nth_error_app2 by lia.
      replace (List.length (calculated_values acc) + 0
               - List.length (calculated_values acc))%nat with 0%nat by lia.
      reflexivity.
    - cbn [collect] in Hc.
      destruct (shared_calculated_value (jig_mode_name a) u v) as [c|e];
        [|discriminate Hc].
      cbn [bind] in Hc.
      apply (IH Hlast ltac:(discriminate) _ bb Hc). }
  rewrite (Hlastc empty_batch b Hb) in Hlatest.
  injection Hlatest as <-. exact Hro.
Qed.

Lemma jig_value_tick_never_raises_witness :
  let vp := ValueDisplayPage.set_measurement_mode_descriptions
              "直流電圧測定 (DCV-Ach)" (Some "Bch 直流電流測定 (DCI-Bch)"%string)
              true "抵抗値" "Ω" ValueDisplayPage.init in
  let r := OnValuePage.update_from_shared_memory example_rt
             (example_app "10" false [(0%float, VFloat 0, VFloat 5)])
             "V" "A" "Ω" vp in
  fst r = Ok tt
  /\ ValueDisplayPage.text (ValueDisplayPage.value_label_calculated (snd (snd r)))
     = "抵抗値: Overload"%string.
Proof.
  cbv zeta.
  pose proof (jig_value_tick_never_raises example_rt
                (example_app "10" false [(0%float, VFloat 0, VFloat 5)])
                "V" "A" "Ω"
                (ValueDisplayPage.set_measurement_mode_descriptions
                   "直流電圧測定 (DCV-Ach)"
                   (Some "Bch 直流電流測定 (DCI-Bch)"%string)
                   true "抵抗値" "Ω" ValueDisplayPage.init)
                example_rt_finite_log10 eq_refl eq_refl) as [H1 H2].
  split; [exact H1|].
  exact (H2 0%float 0%float 5%float eq_refl eq_refl).
Defined.

Lemma collect_channels (calc : value -> value -> result value)
  (data : list sample) :
  forall acc,
    collect calc false true data acc
    = Ok {| time_values := time_values acc ++ map (fun x => fst (fst x)) data;
            ach_values := ach_values acc ++ map (fun x => snd (fst x)) data;
            bch_values := bch_values acc ++ map snd data;
            calculated_values := calculated_values acc |}.
Proof.
  induction data as [|[[t u] v] rest IH]; intros acc.
  - cbn [collect map]. rewrite !app_nil_r. destruct acc; reflexivity.
  - cbn [collect]. rewrite IH. cbn [time_values ach_values bch_values
                                     calculated_values map fst snd].
    rewrite <- !app_assoc. reflexivity.
Qed.

Lemma latest_app_one {A : Type} (l : list A) (x : A) : latest (l ++ [x]) = Ok x.
Proof.
  unfold latest, index. rewrite length_app. cbn [List.length].
  replace (List.length l + 1 - 1)%nat with (List.length l + 0)%nat by lia.
  rewrite nth_error_app2 by lia.
  replace (List.length l + 0 - List.length l)%nat with 0%nat by lia.
  reflexivity.
Qed.

Lemma is_nil_app_one {A : Type} (l : list A) (x : A) :
  is_nil (l ++ [x]) = false.
Proof. destruct l; reflexivity. Qed.

Lemma channel_text_float (rt : runtime) (desc unit : string)
  (x : PrimFloat.float) :
  finite_log10 rt -> is_infinity x = false ->
  exists s, ValueDisplayPage.channel_text rt desc unit (VFloat x) = Ok s.
Proof.
  intros Hlibm Hi. unfold ValueDisplayPage.channel_text.
  cbn [eq_str math_isnan bind].
  destruct (is_nan x); [eexists; reflexivity|].
  destruct (format_si_unit_off_infinity rt unit x Hlibm Hi) as [H|[e H]];
    rewrite H; eexists; reflexivity.
Qed.

(** With two channels shown in the normal mode, a sample whose channel B
    is absent (the instrument answered with one reading only) makes the tick
    on the value page raise [TypeError]: [math.isnan] is applied to [None].
    The label of channel A has been rewritten by then, the label of channel
    B is left as it was, and the samples of the tick are consumed. *)
Theorem absent_channel_B_raises_on_value_page
  (rt : runtime) (a : DMMApp) (ach_unit bch_unit calculated_unit : string)
  (vp : ValueDisplayPage.state) (pre : list sample) (t x : PrimFloat.float) :
  finite_log10 rt ->
  is_infinity x = false ->
  app_jig_mode a = false ->
  measurement_mode_bch a = true ->
  ValueDisplayPage.described (ValueDisplayPage.bch_desc vp) = true ->
  skipn (last_read_index a) (app_data_list a) = pre ++ [(t, VFloat x, VNone)] ->
  let r := OnValuePage.update_from_shared_memory rt a ach_unit bch_unit
             calculated_unit vp in
  fst r = Raise TypeError
  /\ ValueDisplayPage.value_label_bch (snd (snd r))
     = ValueDisplayPage.value_label_bch vp
  /\ ValueDisplayPage.channel_text rt (ValueDisplayPage.ach_desc vp) ach_unit
       (VFloat x)
     = Ok (ValueDisplayPage.text
             (ValueDisplayPage.value_label_ach (snd (snd r))))
  /\ last_read_index (fst (snd r)) = List.length (app_data_list a).
Proof.
  intros Hlibm Hi Hjig Hmb Hdesc Hdata. cbv zeta.
  unfold OnValuePage.update_from_shared_memory.
  assert (Hlt : (last_read_index a < List.length (app_data_list a))%nat).
  { apply (f_equal (@List.length sample)) in Hdata.
    rewrite length_skipn, length_app in Hdata. simpl in Hdata. lia. }
  destruct (_ <=? _)%nat eqn:Hle; [apply Nat.leb_le in Hle; lia|].
  rewrite Hjig, Hmb, Hdata, collect_channels.
  cbn [empty_batch time_values ach_values bch_values calculated_values List.app].
  rewrite !map_app. cbn [map fst snd].
  rewrite !is_nil_app_one. cbn [negb]. rewrite !latest_app_one.
  cbv zeta. unfold ValueDisplayPage.update_values.
  destruct (channel_text_float rt
              (ValueDisplayPage.ach_desc (ValueDisplayPage.set_jig_mode false vp))
              ach_unit x Hlibm Hi) as [s Hs].
  rewrite Hs. cbv zeta.
  cbn [ValueDisplayPage.set_labels ValueDisplayPage.set_jig_mode
       ValueDisplayPage.bch_desc].
  rewrite Hdesc.
  change (ValueDisplayPage.channel_text rt
            (ValueDisplayPage.str (ValueDisplayPage.bch_desc vp)) bch_unit VNone)
    with (@Raise string TypeError).
  cbn [fst snd ValueDisplayPage.value_label_bch ValueDisplayPage.value_label_ach
       ValueDisplayPage.setText ValueDisplayPage.text set_page last_read_index].
  cbn [ValueDisplayPage.ach_desc ValueDisplayPage.set_jig_mode] in Hs.
  repeat match goal with |- _ /\ _ => split end;
    [reflexivity | reflexivity | exact Hs | lia].
Qed.

Lemma absent_channel_B_raises_on_value_page_witness :
  fst (OnValuePage.update_from_shared_memory example_rt
         {| app_data_list := [(0%float, VFloat 1500, VNone)];
            last_read_index := 0; app_jig_mode := false;
            jig_mode_name := ""; measurement_mode_bch := true;
            graph_display_page := fresh_page |}
         "V" "A" ""
         (ValueDisplayPage.set_measurement_mode_descriptions
            "直流電圧測定 (DCV-Ach)" (Some "Bch 直流電流測定 (DCI-Bch)"%string)
            false "" "" ValueDisplayPage.init))
  = Raise TypeError.
Proof.
  apply (absent_channel_B_raises_on_value_page example_rt
           {| app_data_list := [(0%float, VFloat 1500, VNone)];
              last_read_index := 0; app_jig_mode := false;
              jig_mode_name := ""; measurement_mode_bch := true;
              graph_display_page := fresh_page |}
           "V" "A" ""
           (ValueDisplayPage.set_measurement_mode_descriptions
              "直流電圧測定 (DCV-Ach)" (Some "Bch 直流電流測定 (DCI-Bch)"%string)
              false "" "" ValueDisplayPage.init)
           [] 0 1500 example_rt_finite_log10);
    reflexivity.
Defined.

(* ================================================================== *)
(** ** The setup page *)
(* ================================================================== *)

Lemma item_in_range {A : Type} (l : list A) (i : Z) :
  0 <= i < Z.of_nat (List.length l) ->
  exists x, item l i = Ok x /\ nth_error l (Z.to_nat i) = Some x.
Proof.
  intros H. unfold item. cbv zeta.
  replace ((0 <=? i) && (i <? Z.of_nat (List.length l))) with true
    by (symmetry; apply andb_true_intro; split;
        [apply Z.leb_le | apply Z.ltb_lt]; lia).
  unfold index.
  destruct (nth_error l (Z.to_nat i)) as [x|] eqn:E.
  - exists x. split; reflexivity.
  - apply nth_error_None in E. lia.
Qed.

Lemma option_index_from_spec
  (options : list (string * string * string * string)) (key : string) :
  forall idx,
    let r := option_index_from idx options key in
    (r = -1 /\ Forall (fun o => fst (fst (fst o)) <> key) options)
    \/ (idx <= r < idx + Z.of_nat (List.length options)
        /\ exists o, nth_error options (Z.to_nat (r - idx)) = Some o
                     /\ fst (fst (fst o)) = key).
Proof.
  induction options as [|[[[k d] p] u] rest IH]; intros idx; cbv zeta.
  - left. split; [reflexivity | constructor].
  - cbn [option_index_from].
    destruct (String.eqb_spec k key) as [->|Hne].
    + right. split; [cbn [List.length]; lia|].
      exists (key, d, p, u). rewrite Z.sub_diag. split; reflexivity.
    + destruct (IH (idx + 1)) as [[Hr Hall]|[Hr (o & Ho & Hk)]].
      * left. split; [exact Hr|]. constructor; [exact Hne | exact Hall].
      * right. split; [cbn [List.length]; lia|].
        exists o. split; [|exact Hk].
        replace (Z.to_nat (option_index_from (idx + 1) rest key - idx))
          with (S (Z.to_nat (option_index_from (idx + 1) rest key - (idx + 1))))
          by lia.
        exact Ho.
Qed.

Lemma option_index_of_entry (idx : nat)
  (o : string * string * string * string) :
  nth_error measurement_options idx = Some o ->
  get_measurement_option_index (fst (fst (fst o))) = Z.of_nat idx.
Proof.
  intros H.
  do 17 (destruct idx as [|idx];
         [injection H as <-; reflexivity|]).
  destruct idx; discriminate H.
Qed.

Lemma option_index_found (key : string) :
  (get_measurement_option_index key = -1
   /\ Forall (fun o => fst (fst (fst o)) <> key) measurement_options)
  \/ exists o,
       item measurement_options (get_measurement_option_index key) = Ok o
       /\ fst (fst (fst o)) = key.
Proof.
  unfold get_measurement_option_index.
  destruct (option_index_from_spec measurement_options key 0)
    as [H|[Hr (o & Ho & Hk)]]; [left; exact H|].
  right. exists o. split; [|exact Hk].
  destruct (item_in_range measurement_options
              (option_index_from 0 measurement_options key))
    as (x & Hx & Hn); [lia|].
  rewrite Z.sub_0_r in Ho. rewrite Hx. congruence.
Qed.

(** [get_measurement_option_index] inverts the table of functions: the keys
    of the table are pairwise distinct, so the index found for the key of
    the entry at [idx] is [idx]; a key that is in the table is found at an
    index where the table holds that key, and only a key that is not in the
    table gives [-1]. *)
Theorem option_index_inverts_the_table :
  (forall idx o,
      nth_error measurement_options idx = Some o ->
      get_measurement_option_index (fst (fst (fst o))) = Z.of_nat idx)
  /\ (forall key,
        (get_measurement_option_index key = -1
         /\ Forall (fun o => fst (fst (fst o)) <> key) measurement_options)
        \/ exists o,
             item measurement_options (get_measurement_option_index key) = Ok o
             /\ fst (fst (fst o)) = key).
Proof.
  split; [exact option_index_of_entry | exact option_index_found].
Qed.

Lemma option_index_inverts_the_table_witness :
  get_measurement_option_index "F35" = 11.
Proof.
  exact (proj1 option_index_inverts_the_table 11%nat
           ("F35", "Bch 直流電流測定 (DCI-Bch)", "BDI", "A")%string eq_refl).
Defined.

Lemma range_command_ok (dsp key : string) (range_idx : Z) :
  range_command dsp key range_idx = Ok []
  \/ exists range_key,
       range_command dsp key range_idx = Ok [(dsp ++ "," ++ range_key)%string]
       /\ exists ranges, lookup_ranges range_dict key = Some ranges
                         /\ In range_key (map fst ranges).
Proof.
  unfold range_command. cbv zeta.
  destruct (lookup_ranges range_dict key) as [ranges|] eqn:Hl.
  - destruct ((0 <=? range_idx) && (range_idx <? Z.of_nat (List.length ranges)))
      eqn:Hin; [|left; reflexivity].
    apply andb_prop in Hin as [H0 H1].
    apply Z.leb_le in H0. apply Z.ltb_lt in H1.
    destruct (item_in_range ranges range_idx) as (x & Hx & Hn); [lia|].
    right. exists (fst x). rewrite Hx. split; [reflexivity|].
    exists ranges. split; [reflexivity|].
    apply in_map, (nth_error_In _ _ Hn).
  - left. cbn [List.length]. 
    destruct ((0 <=? range_idx) && (range_idx <? Z.of_nat 0)) eqn:Hin;
      [|reflexivity].
    apply andb_prop in Hin as [H0 H1].
    apply Z.leb_le in H0. apply Z.ltb_lt in H1. simpl in H1. lia.
Qed.

Lemma range_command_shape (dsp key : string) (range_idx : Z) :
  exists r, range_command dsp key range_idx = Ok r
            /\ Forall (fun c => exists t, c = (dsp ++ "," ++ t)%string) r.
Proof.
  destruct (range_command_ok dsp key range_idx) as [H|(rk & H & _)];
    rewrite H; eexists; (split; [reflexivity|]).
  - constructor.
  - constructor; [exists rk; reflexivity | constructor].
Qed.

Lemma starts_with_D (dsp : string) (r : list string) :
  (exists t, dsp = String "D" t) ->
  Forall (fun c => exists t, c = (dsp ++ "," ++ t)%string) r ->
  Forall (fun c => exists t, c = String "D" t) r.
Proof.
  intros [t ->] H. eapply Forall_impl; [|exact H].
  intros c [u ->]. eexists. reflexivity.
Qed.

Ltac all_D :=
  repeat match goal with
         | |- Forall _ (_ :: _) => constructor
         | |- Forall _ [] => constructor
         | |- Forall _ (_ ++ _) => apply Forall_app; split
         | |- exists t, _ = String "D" t => eexists; reflexivity
         | H : Forall (fun c => exists t, c = (?dsp ++ "," ++ t)%string) ?r
           |- Forall _ ?r =>
             apply (starts_with_D dsp r); [eexists; reflexivity | exact H]
         end.

Lemma normal_mode_commands_shape (s : DMMSetupPage)
  (r : list string + effect) :
  normal_mode_commands s = Ok r ->
  match r with
  | inl commands => mode_commands_shape commands
  | inr dialog => exists text, dialog = MsgCritical "エラー" text
  end.
Proof.
  unfold normal_mode_commands. cbv zeta.
  destruct (dsp1_option_group s =? -1).
  { intros H. injection H as <-. eexists. reflexivity. }
  destruct (item measurement_options (dsp1_option_group s))
    as [[[[k1 d1] p1] u1]|e]; [|discriminate].
  cbn [bind].
  assert (H1 : exists r1,
            (if negb (fst (dsp1_range_group s) =? 0)%nat
             then range_command "DSP1" k1 (snd (dsp1_range_group s))
             else Ok []) = Ok r1
            /\ Forall (fun c => exists t, c = ("DSP1" ++ "," ++ t)%string) r1).
  { destruct (negb _); [apply range_command_shape|].
    eexists. split; [reflexivity | constructor]. }
  destruct H1 as (r1 & -> & Hr1). cbn [bind].
  destruct (dsp2_option_group s =? -1).
  { intros H. injection H as <-. split.
    - eexists. eexists. reflexivity.
    - cbn [List.app]. all_D. }
  destruct (item measurement_options (dsp2_option_group s))
    as [[[[k2 d2] p2] u2]|e]; [|discriminate].
  cbn [bind].
  destruct (String.eqb k2 "DE0").
  { intros H. injection H as <-. split.
    - eexists. eexists. reflexivity.
    - cbn [List.app]. all_D. }
  assert (H2 : exists r2,
            (if negb (fst (dsp2_range_group s) =? 0)%nat
             then range_command "DSP2" k2 (snd (dsp2_range_group s))
             else Ok []) = Ok r2
            /\ Forall (fun c => exists t, c = ("DSP2" ++ "," ++ t)%string) r2).
  { destruct (negb _); [apply range_command_shape|].
    eexists. split; [reflexivity | constructor]. }
  destruct H2 as (r2 & -> & Hr2). cbn [bind].
  intros H. injection H as <-. split.
  - eexists. eexists. reflexivity.
  - cbn [List.app]. all_D.
Qed.

Lemma jig_mode_commands_shape (s : DMMSetupPage) (r : list string + effect) :
  jig_mode_commands s = Ok r ->
  match r with
  | inl commands => mode_commands_shape commands
  | inr dialog => exists text, dialog = MsgCritical "エラー" text
  end.
Proof.
  unfold jig_mode_commands. cbv zeta.
  destruct (find_jig_mode _ _) as [[k1 k2]|];
    [|intros H; injection H as <-; eexists; reflexivity].
  destruct (has_ranges k1);
    [|intros H; injection H as <-; eexists; reflexivity].
  destruct (range_command_shape "DSP1" k1 (snd (dsp1_range_group s)))
    as (r1 & -> & Hr1). cbn [bind].
  destruct (has_ranges k2);
    [|intros H; injection H as <-; eexists; reflexivity].
  destruct (range_command_shape "DSP2" k2 (snd (dsp2_range_group s)))
    as (r2 & -> & Hr2). cbn [bind].
  intros H. injection H as <-. split.
  - eexists. eexists. reflexivity.
  - constructor; [eexists; reflexivity|]. all_D.
Qed.

Lemma get_setup_commands_shape (s : DMMSetupPage) (commands : list string)
  (shown : list effect) :
  get_setup_commands s = Ok (commands, shown) ->
  (commands = [] /\ exists text, shown = [MsgCritical "エラー" text])
  \/ (shown = []
      /\ exists mode_commands,
           commands = mode_commands ++ common_commands s
           /\ mode_commands_shape mode_commands).
Proof.
  unfold get_setup_commands.
  destruct (if mode_group s =? 0 then normal_mode_commands s
            else jig_mode_commands s) as [r|e] eqn:E; [|discriminate].
  assert (Hshape : match r with
                   | inl commands => mode_commands_shape commands
                   | inr dialog => exists text, dialog = MsgCritical "エラー" text
                   end).
  { destruct (mode_group s =? 0);
      [apply (normal_mode_commands_shape s) | apply (jig_mode_commands_shape s)];
      exact E. }
  cbn [bind]. destruct r as [mc|d]; intros H; injection H as <- <-.
  - right. split; [reflexivity|]. exists mc. split; [reflexivity | exact Hshape].
  - left. split; [reflexivity|]. destruct Hshape as [text ->].
    exists text. reflexivity.
Qed.

Lemma searched_option (key : string) :
  (get_measurement_option_index key =? -1) = false ->
  exists o, item measurement_options (get_measurement_option_index key) = Ok o.
Proof.
  intros H. apply Z.eqb_neq in H.
  destruct (option_index_found key) as [[Hr _]|(o & Ho & _)];
    [congruence|].
  exists o. exact Ho.
Qed.

Lemma modes_after_commands (s : DMMSetupPage) (commands : list string)
  (shown : list effect) :
  get_setup_commands s = Ok (commands, shown) ->
  commands <> [] ->
  exists m, get_measurement_modes s = Ok m.
Proof.
  unfold get_setup_commands, get_measurement_modes.
  destruct (mode_group s =? 0).
  - unfold normal_mode_commands. cbv zeta.
    destruct (dsp1_option_group s =? -1).
    { cbn [bind]. intros H Hne. injection H as <- _. congruence. }
    destruct (item measurement_options (dsp1_option_group s))
      as [[[[k1 d1] p1] u1]|e]; [|discriminate].
    cbn [bind].
    destruct (if negb (fst (dsp1_range_group s) =? 0)%nat
              then range_command "DSP1" k1 (snd (dsp1_range_group s))
              else Ok []) as [r1|e]; [|discriminate].
    cbn [bind].
    destruct (dsp2_option_group s =? -1); [intros; eexists; reflexivity|].
    destruct (item measurement_options (dsp2_option_group s))
      as [[[[k2 d2] p2] u2]|e]; [|discriminate].
    cbn [bind fst]. intros _ _.
    destruct (String.eqb k2 "DE0"); eexists; reflexivity.
  - intros _ _.
    destruct (find_jig_mode _ _) as [[k1 k2]|]; [|eexists; reflexivity].
    cbv zeta.
    destruct (get_measurement_option_index k1 =? -1) eqn:E1; cbn [negb bind].
    + destruct (get_measurement_option_index k2 =? -1) eqn:E2; cbn [negb bind].
      * eexists; reflexivity.
      * destruct (searched_option k2 E2) as [o ->]. eexists; reflexivity.
    + destruct (searched_option k1 E1) as [o1 ->]. cbn [bind].
      destruct (get_measurement_option_index k2 =? -1) eqn:E2; cbn [negb bind].
      * eexists; reflexivity.
      * destruct (searched_option k2 E2) as [o ->]. eexists; reflexivity.
Qed.

(** Pressing "next" on the setup page either shows one error dialog and
    changes nothing else (no command is queued, both pages and the trigger
    mode stay as they were), or starts a session: the reset and then the
    function of display 1 are queued first, the trigger mode is the one
    selected, and both pages are told the jig flag the application keeps.
    The method raises only when [get_setup_commands] itself does (a checked
    button whose id is no index of the table). *)
Theorem session_starts_unless_dialog (s : DMMSetupPage) (w : MainWindow.state) :
  (forall e, get_setup_commands s = Raise e
             <-> MainWindow.go_to_mode_selection s w = Raise e)
  /\ (forall w',
        MainWindow.go_to_mode_selection s w = Ok w' ->
        (exists text,
            MainWindow.dialogs w'
            = MainWindow.dialogs w ++ [MsgCritical "エラー" text]
            /\ MainWindow.command_queue w' = MainWindow.command_queue w
            /\ MainWindow.trigger_mode w' = MainWindow.trigger_mode w
            /\ MainWindow.value_display_page w' = MainWindow.value_display_page w
            /\ MainWindow.graph_display_page w' = MainWindow.graph_display_page w)
        \/ (exists key rest,
              MainWindow.command_queue w'
              = MainWindow.command_queue w
                  ++ "SEND *RST"%string :: ("SEND DSP1," ++ key)%string :: rest
              /\ MainWindow.trigger_mode w' = get_trigger_mode s
              /\ jig_mode (cfg (MainWindow.graph_display_page w'))
                 = MainWindow.jig_mode w'
              /\ ValueDisplayPage.jig_mode (MainWindow.value_display_page w')
                 = MainWindow.jig_mode w')).
Proof.
  unfold MainWindow.go_to_mode_selection.
  destruct (get_setup_commands s) as [[commands shown]|e0] eqn:Hc; cbn [bind].
  - destruct (get_setup_commands_shape s commands shown Hc)
      as [[-> [text ->]]|[-> (mc & -> & (key & rest & ->) & _)]].
    + cbn [is_nil]. split; [intros e; split; discriminate|].
      intros w' H. injection H as <-. left. exists text.
      repeat match goal with |- _ /\ _ => split end; reflexivity.
    + destruct (modes_after_commands s _ _ Hc ltac:(discriminate))
        as [[[[[d1 p1] u1] [[d2 p2] u2]] shown'] ->].
      cbn [List.app is_nil bind]. split; [intros e; split; discriminate|].
      intros w' H. injection H as <-. right.
      exists key. eexists.
      repeat match goal with |- _ /\ _ => split end; reflexivity.
  - split; [intros e; split; intros H; injection H as ->; reflexivity|].
    intros w' H. discriminate H.
Qed.

Lemma session_starts_unless_dialog_witness :
  MainWindow.go_to_mode_selection (example_setup 0 "" 17 (-1) false) fresh_window
  = Raise IndexError
  /\ exists rest,
       option_map MainWindow.command_queue
         (match MainWindow.go_to_mode_selection
                  (example_setup 0 "" 0 (-1) false) fresh_window with
          | Ok w' => Some w'
          | Raise _ => None
          end)
       = Some ("SEND *RST" :: "SEND DSP1,F1" :: rest)%string.
Proof.
  split.
  - apply (proj1 (session_starts_unless_dialog
                    (example_setup 0 "" 17 (-1) false) fresh_window)).
    reflexivity.
  - destruct (MainWindow.go_to_mode_selection
                (example_setup 0 "" 0 (-1) false) fresh_window)
      as [w'|e] eqn:E; [|discriminate E].
    destruct (proj2 (session_starts_unless_dialog
                       (example_setup 0 "" 0 (-1) false) fresh_window) w' E)
      as [(text & _ & Hq & _)|(key & rest & Hq & _)].
    + injection E as <-. discriminate Hq.
    + injection E as <-. eexists. reflexivity.
Defined.

Lemma common_commands_trigger (s : DMMSetupPage) :
  In "TRS3"%string (common_commands s)
  <-> get_trigger_mode s = Some "TRS3"%string.
Proof.
  unfold common_commands, get_trigger_mode.
  destruct (auto_zero_group s =? 0), (auto_zero_group s =? 1),
    (auto_zero_group s =? 2), (trigger_radio1 s), (trigger_radio3 s),
    (sampling_radio1 s), (sampling_radio2 s), (sampling_radio3 s),
    (sampling_radio4 s); cbn [List.app In];
    (split; [intros H; repeat (destruct H as [H|H]; [discriminate H|]);
                       try contradiction; try reflexivity;
                       repeat (destruct H as [H|H]; try discriminate H);
                       try contradiction; reflexivity
            | intros H; try discriminate H; tauto]).
Qed.

Lemma send_prefix_injective (c c' : string) :
  ("SEND " ++ c)%string = ("SEND " ++ c')%string -> c = c'.
Proof. intros H. injection H as H. exact H. Qed.

(** The trigger button acts exactly when the instrument was put on the bus
    trigger: in a session started from an empty queue, the setup commands
    queued contain ["TRS3"] if and only if the trigger mode the application
    keeps is ["TRS3"]; in that case [send_trigger] appends one TRIGGER request
    to the queue, and otherwise it does nothing at all. *)
Theorem trigger_requests_need_bus_trigger
  (s : DMMSetupPage) (w w' : MainWindow.state) :
  MainWindow.command_queue w = [] ->
  MainWindow.go_to_mode_selection s w = Ok w' ->
  MainWindow.command_queue w' <> [] ->
  (In "SEND TRS3"%string (MainWindow.command_queue w')
   <-> MainWindow.trigger_mode w' = Some "TRS3"%string)
  /\ (MainWindow.trigger_mode w' = Some "TRS3"%string ->
      MainWindow.command_queue (MainWindow.send_trigger w')
      = MainWindow.command_queue w' ++ ["TRIGGER"%string])
  /\ (MainWindow.trigger_mode w' <> Some "TRS3"%string ->
      MainWindow.send_trigger w' = w').
Proof.
  intros Hq Hgo Hne.
  assert (Hsend :
    (MainWindow.trigger_mode w' = Some "TRS3"%string ->
     MainWindow.command_queue (MainWindow.send_trigger w')
     = MainWindow.command_queue w' ++ ["TRIGGER"%string])
    /\ (MainWindow.trigger_mode w' <> Some "TRS3"%string ->
        MainWindow.send_trigger w' = w')).
  { unfold MainWindow.send_trigger. split.
    - intros ->. reflexivity.
    - intros Hn. destruct (MainWindow.trigger_mode w') as [m|]; [|reflexivity].
      destruct (String.eqb_spec m "TRS3"); [subst; congruence | reflexivity]. }
  split; [|exact Hsend]. clear Hsend.
  unfold MainWindow.go_to_mode_selection in Hgo.
  destruct (get_setup_commands s) as [[commands shown]|e0] eqn:Hc;
    [|discriminate Hgo].
  cbn [bind] in Hgo.
  destruct (get_setup_commands_shape s commands shown Hc)
    as [[-> [text ->]]|[-> (mc & -> & (key & rest & ->) & HD)]].
  { cbn [is_nil] in Hgo. injection Hgo as <-. cbn in Hne. congruence. }
  destruct (modes_after_commands s _ _ Hc ltac:(discriminate))
    as [[[[[d1 p1] u1] [[d2 p2] u2]] shown'] Hm].
  rewrite Hm in Hgo. cbn [List.app is_nil bind] in Hgo.
  injection Hgo as <-.
  cbn [MainWindow.command_queue MainWindow.trigger_mode].
  rewrite Hq. unfold start_measurement. cbn [List.app].
  rewrite <- common_commands_trigger. split.
  - intros [H|H]; [discriminate H|].
    apply in_map_iff in H as (c & Hc' & Hin).
    apply (send_prefix_injective c "TRS3") in Hc'. subst c.
    destruct Hin as [Hin|Hin]; [discriminate Hin|].
    apply in_app_or in Hin as [Hin|Hin]; [|exact Hin].
    inversion HD as [|? ? _ HDrest]; subst.
    rewrite Forall_forall in HDrest. destruct (HDrest _ Hin) as [t Ht].
    discriminate Ht.
  - intros H. right. apply in_map_iff. exists "TRS3"%string.
    split; [reflexivity|].
    right. apply in_or_app. right. exact H.
Qed.

Lemma trigger_requests_need_bus_trigger_witness :
  option_map (fun w' => MainWindow.command_queue (MainWindow.send_trigger w'))
    (match MainWindow.go_to_mode_selection
             (example_setup 1 "hFE測定" 0 (-1) true) fresh_window with
     | Ok w' => Some w'
     | Raise _ => None
     end)
  = Some ["SEND *RST"; "SEND DSP1,F5"; "SEND DSP1,R0"; "SEND DSP2,F35";
          "SEND AZ0"; "SEND TRS3"; "SEND PR1"; "TRIGGER"]%string.
Proof.
  destruct (MainWindow.go_to_mode_selection
              (example_setup 1 "hFE測定" 0 (-1) true) fresh_window)
    as [w'|e] eqn:E; [|discriminate E].
  cbn [option_map].
  rewrite (proj1 (proj2 (trigger_requests_need_bus_trigger
                           (example_setup 1 "hFE測定" 0 (-1) true)
                           fresh_window w' eq_refl E
                           ltac:(injection E as <-; discriminate)))
             ltac:(injection E as <-; reflexivity)).
  injection E as <-. reflexivity.
Defined.

Ltac evaluate t := let v := eval vm_compute in t in change t with v.

Lemma range_command_list (dsp key : string) (range_idx : Z) :
  exists r, range_command dsp key range_idx = Ok r.
Proof.
  destruct (range_command_ok dsp key range_idx) as [H|(rk & H & _)];
    rewrite H; eexists; reflexivity.
Qed.

(** The tables agree with each other on every jig mode the combo box
    offers: for each entry of [jig_modes], whatever the other widgets show,
    [get_setup_commands] reports no error and selects the function of the
    entry on each display (both functions have ranges), [get_measurement_modes]
    finds a description, a prefix and a unit for both without a dialog, the
    reduction of the timer tick knows the mode by its name, and the derived
    value has a description. *)
Theorem every_jig_mode_is_configured
  (s : DMMSetupPage) (name dsp1_key dsp2_key : string) :
  In (name, dsp1_key, dsp2_key) jig_modes ->
  setup_jig_modes s = jig_modes ->
  mode_group s = 1 ->
  jig_selection_combo s = name ->
  (exists rest,
      get_setup_commands s = Ok (("DSP1," ++ dsp1_key)%string :: rest, [])
      /\ In ("DSP2," ++ dsp2_key)%string rest)
  /\ (exists d1 p1 u1 d2 p2 u2,
        get_measurement_modes s
        = Ok ((Some d1, Some p1, Some u1), (Some d2, Some p2, Some u2), [])
        /\ truthy d1 = true /\ truthy p1 = true /\ truthy u1 = true
        /\ truthy d2 = true /\ truthy p2 = true /\ truthy u2 = true)
  /\ family_of name <> Unrecognized
  /\ fst (MainWindow.calculated_labels name) <> ""%string.
Proof.
  intros Hin Hmodes Hmode Hname.
  assert (Hcases :
    (name, dsp1_key, dsp2_key) = ("四端子抵抗測定A_V", "F1", "F35")%string
    \/ (name, dsp1_key, dsp2_key) = ("四端子抵抗測定B_V", "F12", "F5")%string
    \/ (name, dsp1_key, dsp2_key) = ("hFE測定", "F5", "F35")%string
    \/ (name, dsp1_key, dsp2_key) = ("電力計測(小電流)", "F5", "F12")%string
    \/ (name, dsp1_key, dsp2_key) = ("電力計測(大電流)", "F1", "F35")%string).
  { cbn [jig_modes In] in Hin.
    repeat (destruct Hin as [Hin|Hin]; [symmetry in Hin; tauto|]).
    contradiction. }
  clear Hin.
  repeat match goal with |- _ /\ _ => split end.
  - unfold get_setup_commands, jig_mode_commands.
    rewrite Hmode, Hmodes, Hname. cbv zeta.
    change (1 =? 0) with false. cbv iota.
    destruct (range_command_list "DSP1" dsp1_key (snd (dsp1_range_group s)))
      as [r1 Hr1].
    destruct (range_command_list "DSP2" dsp2_key (snd (dsp2_range_group s)))
      as [r2 Hr2].
    destruct Hcases as [H|[H|[H|[H|H]]]]; injection H as -> -> ->;
      match goal with
      | |- context [find_jig_mode jig_modes ?n] =>
          evaluate (find_jig_mode jig_modes n)
      end;
      cbv iota beta;
      repeat match goal with
             | |- context [has_ranges ?k] => evaluate (has_ranges k)
             end;
      cbv iota; rewrite Hr1; cbn [bind]; rewrite Hr2; cbn [bind];
      eexists; (split; [reflexivity|]);
      apply in_or_app; left; apply in_or_app; right; left; reflexivity.
  - unfold get_measurement_modes.
    rewrite Hmode, Hmodes, Hname. change (1 =? 0) with false. cbv iota.
    destruct Hcases as [H|[H|[H|[H|H]]]]; injection H as -> -> ->;
      vm_compute; do 6 eexists; repeat split.
  - destruct Hcases as [H|[H|[H|[H|H]]]]; injection H as -> _ _;
      vm_compute; discriminate.
  - destruct Hcases as [H|[H|[H|[H|H]]]]; injection H as -> _ _;
      vm_compute; discriminate.
Qed.

Lemma every_jig_mode_is_configured_witness :
  exists rest,
    get_setup_commands (example_setup 1 "電力計測(小電流)" (-1) (-1) true)
    = Ok ("DSP1,F5" :: rest, [])%string
    /\ In "DSP2,F12"%string rest.
Proof.
  exact (proj1 (every_jig_mode_is_configured
                  (example_setup 1 "電力計測(小電流)" (-1) (-1) true)
                  "電力計測(小電流)" "F5" "F12"
                  ltac:(cbn; tauto) eq_refl eq_refl eq_refl)).
Defined.

(* ================================================================== *)
(** ** Opening the graph page again *)
(* ================================================================== *)

Lemma update_graph_preserves {X : Type} (f : page -> X) (rt : runtime)
  (ach_values bch_values : list value) (time_values : list PrimFloat.float)
  (calculated_values : list value) :
  (forall v pg, f (set_time_data v pg) = f pg) ->
  (forall v pg, f (set_calculated_data v pg) = f pg) ->
  (forall v pg, f (set_ach_data v pg) = f pg) ->
  (forall v pg, f (set_bch_data v pg) = f pg) ->
  (forall a b c pg, f (set_labels a b c pg) = f pg) ->
  (forall v pg, f (set_recorded_data v pg) = f pg) ->
  preserves f (update_graph rt ach_values bch_values time_values
                 calculated_values).
Proof.
  intros Ht Hc Ha Hb Hl Hr. unfold update_graph.
  apply preserves_gbind; [apply preserves_modify; intros; apply Ht|]. intros _.
  apply preserves_gbind; [apply preserves_get|]. intros pg.
  destruct (is_nil (time_data pg)); [apply preserves_gret|]. cbv zeta.
  apply preserves_gbind;
    [apply preserves_extend_values; assumption|]. intros tv.
  apply preserves_gbind; [apply preserves_get|]. intros pg1.
  apply preserves_gbind; [apply preserves_lift|]. intros bounds.
  apply preserves_gbind; [apply preserves_keep_window; assumption|]. intros _.
  apply preserves_gbind; [apply preserves_show_labels; assumption|]. intros _.
  apply preserves_record; assumption.
Qed.

Lemma collect_plottable (name : string) (mb : bool) (log : list sample) :
  forallb (plottable name) log = true ->
  forall acc,
    collect (list_calculated_value name) true mb log acc
    = Ok {| time_values := time_values acc ++ map (fun x => fst (fst x)) log;
            ach_values := ach_values acc;
            bch_values := bch_values acc;
            calculated_values := calculated_values acc ++ map (derived name) log |}.
Proof.
  induction log as [|[[t u] v] rest IH]; intros Hp acc.
  - cbn [collect map]. rewrite !app_nil_r. destruct acc; reflexivity.
  - cbn [forallb] in Hp. apply andb_prop in Hp as [Hx Hp].
    destruct u as [a|s|]; try discriminate Hx.
    destruct v as [b|s|]; try discriminate Hx.
    cbn [plottable] in Hx. apply andb_prop in Hx as [Hb _].
    apply negb_true_iff in Hb.
    cbn [collect]. rewrite (list_numeric name a b Hb). cbn [bind].
    rewrite (IH Hp). cbn [time_values ach_values bch_values calculated_values
                          map fst snd derived].
    rewrite <- !app_assoc. reflexivity.
Qed.

Lemma plottable_not_infinite (name : string) (log : list sample) :
  forallb (plottable name) log = true ->
  Forall (fun c => math_isinf c = Ok false) (map (derived name) log).
Proof.
  induction log as [|[[t u] v] rest IH]; intros Hp; [constructor|].
  cbn [forallb] in Hp. apply andb_prop in Hp as [Hx Hp].
  destruct u as [a|s|]; try discriminate Hx.
  destruct v as [b|s|]; try discriminate Hx.
  cbn [plottable] in Hx. apply andb_prop in Hx as [_ Hi].
  cbn [map derived]. constructor; [|apply IH, Hp].
  pose proof (numeric_reduce_float (family_of name) a b) as Hf.
  destruct (numeric_reduce (family_of name) a b) as [f|s|]; try discriminate Hf.
  cbn [not_infinite] in Hi. apply negb_true_iff in Hi.
  cbn [math_isinf]. rewrite Hi. reflexivity.
Qed.

Lemma latest_app {A : Type} (l tv : list A) :
  tv <> [] -> latest (l ++ tv) = latest tv.
Proof.
  intros Hne. unfold latest, index. rewrite length_app.
  destruct tv as [|x tv]; [congruence|]. cbn [List.length].
  rewrite nth_error_app2 by lia.
  replace (List.length l + S (List.length tv) - 1 - List.length l)%nat
    with (S (List.length tv) - 1)%nat by lia.
  reflexivity.
Qed.

Lemma combine_app_same {A B : Type} (l1 l2 : list A) (m1 m2 : list B) :
  List.length l1 = List.length m1 ->
  combine (l1 ++ l2) (m1 ++ m2) = combine l1 m1 ++ combine l2 m2.
Proof.
  revert m1. induction l1 as [|a l1 IH]; intros [|b m1] H; try discriminate H;
    [reflexivity|].
  injection H as H. cbn [List.app combine]. rewrite IH by exact H. reflexivity.
Qed.

Lemma filter_idempotent {A : Type} (f : A -> bool) (l : list A) :
  filter f (filter f l) = filter f l.
Proof.
  induction l as [|a l IH]; [reflexivity|].
  cbn [filter]. destruct (f a) eqn:E; [|exact IH].
  cbn [filter]. rewrite E, IH. reflexivity.
Qed.

(** The page is not cleared when it is opened: [load_data_from_list] adds
    the whole log to the buffers it finds.  In jig mode with a positive span,
    on a log of plottable samples, opening the page a second time on the
    same log leaves every entry of the window in the buffers twice. *)
Theorem reopening_the_graph_page_duplicates
  (rt : runtime) (name : string) (mb : bool) (log : list sample) (pg : page) :
  jig_mode (cfg pg) = true ->
  time_data pg = [] -> calculated_data pg = [] ->
  (0 <? max_display_time rt pg)%float = true ->
  log <> [] ->
  forallb (plottable name) log = true ->
  let pg1 := snd (load_data_from_list rt log true name mb pg) in
  let pg2 := snd (load_data_from_list rt log true name mb pg1) in
  combine (time_data pg2) (calculated_data pg2)
  = combine (time_data pg1) (calculated_data pg1)
      ++ combine (time_data pg1) (calculated_data pg1).
Proof.
  intros Hjig Ht Hc Hspan Hlog Hp. cbv zeta.
  set (tv := map (fun x : sample => fst (fst x)) log).
  set (cv := map (derived name) log).
  assert (Hload : forall p, load_data_from_list rt log true name mb p
                            = update_graph rt [] [] tv cv p).
  { intros p. unfold load_data_from_list.
    rewrite (collect_plottable name mb log Hp).
    cbn [empty_batch time_values ach_values bch_values calculated_values
         List.app andb].
    fold tv. fold cv.
    destruct cv as [|c cv'] eqn:E; [|reflexivity].
    unfold cv in E. destruct log; [congruence | discriminate E]. }
  rewrite !Hload.
  assert (Hcv : cv <> []) by (unfold cv; destruct log; [congruence | discriminate]).
  assert (Htv : tv <> []) by (unfold tv; destruct log; [congruence | discriminate]).
  assert (Hlen : List.length tv = List.length cv)
    by (unfold tv, cv; rewrite !length_map; reflexivity).
  pose proof (plottable_not_infinite name log Hp) as Hinf. fold cv in Hinf.
  assert (Hlast : exists last, latest tv = Ok last).
  { unfold latest, index.
    destruct (nth_error tv (List.length tv - 1)) as [x|] eqn:E;
      [exists x; reflexivity|].
    apply nth_error_None in E. destruct tv; [congruence | simpl in E; lia]. }
  destruct Hlast as [last Hlast].
  set (lo := max0 (last - max_display_time rt pg)%float).
  assert (Hbounds : forall p,
            time_input p = time_input pg ->
            window_bounds rt (set_time_data (time_data p ++ tv) p) = Ok (lo, last)).
  { intros p Hin. unfold window_bounds.
    assert (Hs : max_display_time rt (set_time_data (time_data p ++ tv) p)
                 = max_display_time rt pg).
    { unfold max_display_time. cbn [set_time_data time_input]. rewrite Hin.
      reflexivity. }
    rewrite Hs, Hspan. cbn [set_time_data time_data].
    rewrite (latest_app _ _ Htv), Hlast. reflexivity. }
  destruct (update_graph_window rt pg tv cv lo last Hjig Hcv Hlen Hinf
              ltac:(rewrite Ht, Hc; reflexivity) (Hbounds pg eq_refl))
    as [E1 L1].
  rewrite Ht, Hc in E1. cbn [List.app] in E1.
  set (pg1 := snd (update_graph rt [] [] tv cv pg)) in *.
  assert (Hjig1 : jig_mode (cfg pg1) = true).
  { unfold pg1. rewrite update_graph_cfg. exact Hjig. }
  assert (Hin1 : time_input pg1 = time_input pg).
  { unfold pg1. apply (update_graph_preserves time_input); reflexivity. }
  destruct (update_graph_window rt pg1 tv cv lo last Hjig1 Hcv Hlen Hinf
              L1 (Hbounds pg1 Hin1)) as [E2 _].
  rewrite E2, combine_app_same by (symmetry; exact L1).
  rewrite filter_app, E1, filter_idempotent. reflexivity.
Qed.

Lemma reopening_the_graph_page_duplicates_witness :
  let log := [(0%float, VFloat 10, VFloat 2); (1%float, VFloat 10, VFloat 4)] in
  let pg := example_page "10" false [] in
  let pg2 := snd (load_data_from_list example_rt log true "四端子抵抗測定A_V" true
                    (snd (load_data_from_list example_rt log true
                            "四端子抵抗測定A_V" true pg))) in
  combine (time_data pg2) (calculated_data pg2)
  = [(0%float, VFloat 5); (1%float, VFloat 2.5);
     (0%float, VFloat 5); (1%float, VFloat 2.5)].
Proof.
  cbv zeta.
  rewrite (reopening_the_graph_page_duplicates example_rt "四端子抵抗測定A_V" true
             [(0%float, VFloat 10, VFloat 2); (1%float, VFloat 10, VFloat 4)]
             (example_page "10" false [])
             eq_refl eq_refl eq_refl eq_refl ltac:(discriminate) eq_refl).
  reflexivity.
Defined.
